(** * Webshare front-end: credential handshake and download orchestration

    A shallow embedding of [webshare_api.py] (class [WebshareAPI]) and of the
    download part of [app.py] (the [/api/download] routes and the background
    worker), followed by the properties of the specification that were
    checked against it.

    Conventions of the embedding.
    - A Python [str] is a Rocq [string] that holds the bytes of its UTF-8
      form; [Py.code_points] gives its characters, and every text is held
      by some string ([Py.str_of]).  [None] is the [None] of an [option].
    - A Python [int] is a [Z].  A Python [float] is the rational it denotes
      (module [Float64]); every operation rounds to binary64.
    - Exceptions are values: a computation that can raise returns a
      [result], and [try]/[except] is a match on it.
    - The hash functions of [passlib] and [hashlib] are an interface,
      [HashLib]; the properties hold for every implementation of it, and
      [Hashes] implements it.
    - The network, the file system and the clock are the environment: each
      blocking call takes the outcome the environment gives it as an
      argument.
    - Threads are interleaved by an explicit step function on a [world]:
      a step is a request, or a thread that runs up to its next blocking
      call, or one statement of a worker on [active_downloads]. *)

From Stdlib Require Import ZArith QArith Qround Qpower Qabs Lia Lqa Bool.
From Stdlib Require Import String Ascii List Sorted.
From Stdlib Require Floats.SpecFloat.
From stdpp Require Import base option list gmap strings pretty.
Import ListNotations.
Local Open Scope Z_scope.
#[local] Set Warnings "-register-all".

(* ===================================================================== *)
(** * Python values and exceptions *)
(* ===================================================================== *)

Module Py.

(** The exception classes that the modelled code raises or catches.  All of
    them are subclasses of [Exception]. *)
Inductive exn_class :=
  | Exception
  | RequestException   (* requests.exceptions.RequestException and subclasses *)
  | ParseError         (* xml.etree.ElementTree.ParseError *)
  | ValueError
  | UnicodeEncodeError (* a ValueError *)
  | TypeError
  | AttributeError
  | KeyError
  | OverflowError
  | ZeroDivisionError
  | OSError.

(** An exception object: its class and the text [str(e)] gives. *)
Record exn := Raise { exc_class : exn_class; exc_str : string }.

Definition result (A : Type) : Type := (exn + A)%type.

Definition ret {A} (a : A) : result A := inr a.
Definition raise {A} (c : exn_class) (msg : string) : result A :=
  inl (Raise c msg).

Definition bind {A B} (m : result A) (k : A -> result B) : result B :=
  match m with
  | inl e => inl e
  | inr a => k a
  end.

(** [try: m  except Exception as e: raise Exception(prefix + str(e))] *)
Definition reraise {A} (prefix : string) (m : result A) : result A :=
  match m with
  | inl e => raise Exception (prefix +:+ exc_str e)
  | inr a => inr a
  end.

(** Truth value of an optional string: [None] and [''] are false. *)
Definition truthy (o : option string) : bool :=
  match o with
  | None => false
  | Some s => negb (String.eqb s EmptyString)
  end.

(** [a or b] on optional strings. *)
Definition or_else (a b : option string) : option string :=
  if truthy a then a else b.

(** How an f-string renders an optional string. *)
Definition fmt (o : option string) : string :=
  match o with
  | None => "None"
  | Some s => s
  end.

(** [o == s] for an optional string [o] and a literal [s]. *)
Definition eq_str (o : option string) (s : string) : bool :=
  match o with
  | None => false
  | Some t => String.eqb t s
  end.

(** ** Text *)

(** A str is a sequence of code points.  The Rocq string that holds it has
    one character for each byte of its UTF-8 form; a lone surrogate, which
    a str can hold and UTF-8 has no form for, has the three bytes that the
    same scheme gives it. *)

Definition code (c : ascii) : N := N_of_ascii c.

(** The bytes that hold one code point. *)
Definition chr_bytes (c : N) : list ascii :=
  (if c <? 128 then [ascii_of_N c]
   else if c <? 2048 then
     [ascii_of_N (192 + c / 64); ascii_of_N (128 + c mod 64)]
   else if c <? 65536 then
     [ascii_of_N (224 + c / 4096); ascii_of_N (128 + c / 64 mod 64);
      ascii_of_N (128 + c mod 64)]
   else
     [ascii_of_N (240 + c / 262144); ascii_of_N (128 + c / 4096 mod 64);
      ascii_of_N (128 + c / 64 mod 64); ascii_of_N (128 + c mod 64)])%N.

(** The str with the given code points: [''.join(map(chr, l))]. *)
Definition str_of (l : list N) : string :=
  string_of_list_ascii (flat_map chr_bytes l).

(** The code points that a list of bytes holds.  A byte that opens or
    continues no character stands for U+FFFD. *)
Fixpoint points (l : list ascii) : list N :=
  match l with
  | [] => []
  | a :: r =>
      let n := code a in
      let low (b : ascii) : N := (code b mod 64)%N in
      if (n <? 128)%N then n :: points r
      else if (n <? 192)%N then 65533%N :: points r
      else
        match r with
        | b :: r2 =>
            if (n <? 224)%N then ((n - 192) * 64 + low b)%N :: points r2
            else
              match r2 with
              | c :: r3 =>
                  if (n <? 240)%N then
                    ((n - 224) * 4096 + low b * 64 + low c)%N :: points r3
                  else
                    match r3 with
                    | d :: r4 =>
                        ((n - 240) * 262144 + low b * 4096 + low c * 64
                         + low d)%N :: points r4
                    | [] => [65533%N]
                    end
              | [] => [65533%N]
              end
        | [] => [65533%N]
        end
  end.

(** [map(ord, s)] *)
Definition code_points (s : string) : list N :=
  points (list_ascii_of_string s).

(** ** The character database *)

(** What the methods of [str] and [int()] know of a character comes from
    the Unicode character database of the interpreter; the tables are those
    of Unicode 14.0, which CPython 3.11 carries.  A table lists the first
    and the last code point of each run of characters. *)

(** The decimal digits (category Nd), in runs of ten: a digit's value is its
    place in its run, modulo ten. *)
Definition decimal_digits : list (N * N) :=
  [(0x30, 0x39); (0x660, 0x669); (0x6F0, 0x6F9); (0x7C0, 0x7C9);
   (0x966, 0x96F); (0x9E6, 0x9EF); (0xA66, 0xA6F); (0xAE6, 0xAEF);
   (0xB66, 0xB6F); (0xBE6, 0xBEF); (0xC66, 0xC6F); (0xCE6, 0xCEF);
   (0xD66, 0xD6F); (0xDE6, 0xDEF); (0xE50, 0xE59); (0xED0, 0xED9);
   (0xF20, 0xF29); (0x1040, 0x1049); (0x1090, 0x1099); (0x17E0, 0x17E9);
   (0x1810, 0x1819); (0x1946, 0x194F); (0x19D0, 0x19D9); (0x1A80, 0x1A89);
   (0x1A90, 0x1A99); (0x1B50, 0x1B59); (0x1BB0, 0x1BB9); (0x1C40, 0x1C49);
   (0x1C50, 0x1C59); (0xA620, 0xA629); (0xA8D0, 0xA8D9); (0xA900, 0xA909);
   (0xA9D0, 0xA9D9); (0xA9F0, 0xA9F9); (0xAA50, 0xAA59); (0xABF0, 0xABF9);
   (0xFF10, 0xFF19); (0x104A0, 0x104A9); (0x10D30, 0x10D39);
   (0x11066, 0x1106F); (0x110F0, 0x110F9); (0x11136, 0x1113F);
   (0x111D0, 0x111D9); (0x112F0, 0x112F9); (0x11450, 0x11459);
   (0x114D0, 0x114D9); (0x11650, 0x11659); (0x116C0, 0x116C9);
   (0x11730, 0x11739); (0x118E0, 0x118E9); (0x11950, 0x11959);
   (0x11C50, 0x11C59); (0x11D50, 0x11D59); (0x11DA0, 0x11DA9);
   (0x16A60, 0x16A69); (0x16AC0, 0x16AC9); (0x16B50, 0x16B59);
   (0x1D7CE, 0x1D7FF); (0x1E140, 0x1E149); (0x1E2F0, 0x1E2F9);
   (0x1E950, 0x1E959); (0x1FBF0, 0x1FBF9)]%N.

(** The characters that are digits without being decimal digits:
    superscripts, subscripts, circled digits and the like. *)
Definition other_digits : list (N * N) :=
  [(0xB2, 0xB3); (0xB9, 0xB9); (0x1369, 0x1371); (0x19DA, 0x19DA);
   (0x2070, 0x2070); (0x2074, 0x2079); (0x2080, 0x2089); (0x2460, 0x2468);
   (0x2474, 0x247C); (0x2488, 0x2490); (0x24EA, 0x24EA); (0x24F5, 0x24FD);
   (0x24FF, 0x24FF); (0x2776, 0x277E); (0x2780, 0x2788); (0x278A, 0x2792);
   (0x10A40, 0x10A43); (0x10E60, 0x10E68); (0x11052, 0x1105A);
   (0x1F100, 0x1F10A)]%N.

(** The white space from code point 127 on. *)
Definition white_space : list (N * N) :=
  [(0x85, 0x85); (0xA0, 0xA0); (0x1680, 0x1680); (0x2000, 0x200A);
   (0x2028, 0x2029); (0x202F, 0x202F); (0x205F, 0x205F); (0x3000, 0x3000)]%N.

(** The printable characters: what [repr] leaves as it is. *)
Definition printable : list (N * N) :=
  [(0x20, 0x7E); (0xA1, 0xAC); (0xAE, 0x377); (0x37A, 0x37F);
   (0x384, 0x38A); (0x38C, 0x38C); (0x38E, 0x3A1); (0x3A3, 0x52F);
   (0x531, 0x556); (0x559, 0x58A); (0x58D, 0x58F); (0x591, 0x5C7);
   (0x5D0, 0x5EA); (0x5EF, 0x5F4); (0x606, 0x61B); (0x61D, 0x6DC);
   (0x6DE, 0x70D); (0x710, 0x74A); (0x74D, 0x7B1); (0x7C0, 0x7FA);
   (0x7FD, 0x82D); (0x830, 0x83E); (0x840, 0x85B); (0x85E, 0x85E);
   (0x860, 0x86A); (0x870, 0x88E); (0x898, 0x8E1); (0x8E3, 0x983);
   (0x985, 0x98C); (0x98F, 0x990); (0x993, 0x9A8); (0x9AA, 0x9B0);
   (0x9B2, 0x9B2); (0x9B6, 0x9B9); (0x9BC, 0x9C4); (0x9C7, 0x9C8);
   (0x9CB, 0x9CE); (0x9D7, 0x9D7); (0x9DC, 0x9DD); (0x9DF, 0x9E3);
   (0x9E6, 0x9FE); (0xA01, 0xA03); (0xA05, 0xA0A); (0xA0F, 0xA10);
   (0xA13, 0xA28); (0xA2A, 0xA30); (0xA32, 0xA33); (0xA35, 0xA36);
   (0xA38, 0xA39); (0xA3C, 0xA3C); (0xA3E, 0xA42); (0xA47, 0xA48);
   (0xA4B, 0xA4D); (0xA51, 0xA51); (0xA59, 0xA5C); (0xA5E, 0xA5E);
   (0xA66, 0xA76); (0xA81, 0xA83); (0xA85, 0xA8D); (0xA8F, 0xA91);
   (0xA93, 0xAA8); (0xAAA, 0xAB0); (0xAB2, 0xAB3); (0xAB5, 0xAB9);
   (0xABC, 0xAC5); (0xAC7, 0xAC9); (0xACB, 0xACD); (0xAD0, 0xAD0);
   (0xAE0, 0xAE3); (0xAE6, 0xAF1); (0xAF9, 0xAFF); (0xB01, 0xB03);
   (0xB05, 0xB0C); (0xB0F, 0xB10); (0xB13, 0xB28); (0xB2A, 0xB30);
   (0xB32, 0xB33); (0xB35, 0xB39); (0xB3C, 0xB44); (0xB47, 0xB48);
   (0xB4B, 0xB4D); (0xB55, 0xB57); (0xB5C, 0xB5D); (0xB5F, 0xB63);
   (0xB66, 0xB77); (0xB82, 0xB83); (0xB85, 0xB8A); (0xB8E, 0xB90);
   (0xB92, 0xB95); (0xB99, 0xB9A); (0xB9C, 0xB9C); (0xB9E, 0xB9F);
   (0xBA3, 0xBA4); (0xBA8, 0xBAA); (0xBAE, 0xBB9); (0xBBE, 0xBC2);
   (0xBC6, 0xBC8); (0xBCA, 0xBCD); (0xBD0, 0xBD0); (0xBD7, 0xBD7);
   (0xBE6, 0xBFA); (0xC00, 0xC0C); (0xC0E, 0xC10); (0xC12, 0xC28);
   (0xC2A, 0xC39); (0xC3C, 0xC44); (0xC46, 0xC48); (0xC4A, 0xC4D);
   (0xC55, 0xC56); (0xC58, 0xC5A); (0xC5D, 0xC5D); (0xC60, 0xC63);
   (0xC66, 0xC6F); (0xC77, 0xC8C); (0xC8E, 0xC90); (0xC92, 0xCA8);
   (0xCAA, 0xCB3); (0xCB5, 0xCB9); (0xCBC, 0xCC4); (0xCC6, 0xCC8);
   (0xCCA, 0xCCD); (0xCD5, 0xCD6); (0xCDD, 0xCDE); (0xCE0, 0xCE3);
   (0xCE6, 0xCEF); (0xCF1, 0xCF2); (0xD00, 0xD0C); (0xD0E, 0xD10);
   (0xD12, 0xD44); (0xD46, 0xD48); (0xD4A, 0xD4F); (0xD54, 0xD63);
   (0xD66, 0xD7F); (0xD81, 0xD83); (0xD85, 0xD96); (0xD9A, 0xDB1);
   (0xDB3, 0xDBB); (0xDBD, 0xDBD); (0xDC0, 0xDC6); (0xDCA, 0xDCA);
   (0xDCF, 0xDD4); (0xDD6, 0xDD6); (0xDD8, 0xDDF); (0xDE6, 0xDEF);
   (0xDF2, 0xDF4); (0xE01, 0xE3A); (0xE3F, 0xE5B); (0xE81, 0xE82);
   (0xE84, 0xE84); (0xE86, 0xE8A); (0xE8C, 0xEA3); (0xEA5, 0xEA5);
   (0xEA7, 0xEBD); (0xEC0, 0xEC4); (0xEC6, 0xEC6); (0xEC8, 0xECD);
   (0xED0, 0xED9); (0xEDC, 0xEDF); (0xF00, 0xF47); (0xF49, 0xF6C);
   (0xF71, 0xF97); (0xF99, 0xFBC); (0xFBE, 0xFCC); (0xFCE, 0xFDA);
   (0x1000, 0x10C5); (0x10C7, 0x10C7); (0x10CD, 0x10CD); (0x10D0, 0x1248);
   (0x124A, 0x124D); (0x1250, 0x1256); (0x1258, 0x1258); (0x125A, 0x125D);
   (0x1260, 0x1288); (0x128A, 0x128D); (0x1290, 0x12B0); (0x12B2, 0x12B5);
   (0x12B8, 0x12BE); (0x12C0, 0x12C0); (0x12C2, 0x12C5); (0x12C8, 0x12D6);
   (0x12D8, 0x1310); (0x1312, 0x1315); (0x1318, 0x135A); (0x135D, 0x137C);
   (0x1380, 0x1399); (0x13A0, 0x13F5); (0x13F8, 0x13FD); (0x1400, 0x167F);
   (0x1681, 0x169C); (0x16A0, 0x16F8); (0x1700, 0x1715); (0x171F, 0x1736);
   (0x1740, 0x1753); (0x1760, 0x176C); (0x176E, 0x1770); (0x1772, 0x1773);
   (0x1780, 0x17DD); (0x17E0, 0x17E9); (0x17F0, 0x17F9); (0x1800, 0x180D);
   (0x180F, 0x1819); (0x1820, 0x1878); (0x1880, 0x18AA); (0x18B0, 0x18F5);
   (0x1900, 0x191E); (0x1920, 0x192B); (0x1930, 0x193B); (0x1940, 0x1940);
   (0x1944, 0x196D); (0x1970, 0x1974); (0x1980, 0x19AB); (0x19B0, 0x19C9);
   (0x19D0, 0x19DA); (0x19DE, 0x1A1B); (0x1A1E, 0x1A5E); (0x1A60, 0x1A7C);
   (0x1A7F, 0x1A89); (0x1A90, 0x1A99); (0x1AA0, 0x1AAD); (0x1AB0, 0x1ACE);
   (0x1B00, 0x1B4C); (0x1B50, 0x1B7E); (0x1B80, 0x1BF3); (0x1BFC, 0x1C37);
   (0x1C3B, 0x1C49); (0x1C4D, 0x1C88); (0x1C90, 0x1CBA); (0x1CBD, 0x1CC7);
   (0x1CD0, 0x1CFA); (0x1D00, 0x1F15); (0x1F18, 0x1F1D); (0x1F20, 0x1F45);
   (0x1F48, 0x1F4D); (0x1F50, 0x1F57); (0x1F59, 0x1F59); (0x1F5B, 0x1F5B);
   (0x1F5D, 0x1F5D); (0x1F5F, 0x1F7D); (0x1F80, 0x1FB4); (0x1FB6, 0x1FC4);
   (0x1FC6, 0x1FD3); (0x1FD6, 0x1FDB); (0x1FDD, 0x1FEF); (0x1FF2, 0x1FF4);
   (0x1FF6, 0x1FFE); (0x2010, 0x2027); (0x2030, 0x205E); (0x2070, 0x2071);
   (0x2074, 0x208E); (0x2090, 0x209C); (0x20A0, 0x20C0); (0x20D0, 0x20F0);
   (0x2100, 0x218B); (0x2190, 0x2426); (0x2440, 0x244A); (0x2460, 0x2B73);
   (0x2B76, 0x2B95); (0x2B97, 0x2CF3); (0x2CF9, 0x2D25); (0x2D27, 0x2D27);
   (0x2D2D, 0x2D2D); (0x2D30, 0x2D67); (0x2D6F, 0x2D70); (0x2D7F, 0x2D96);
   (0x2DA0, 0x2DA6); (0x2DA8, 0x2DAE); (0x2DB0, 0x2DB6); (0x2DB8, 0x2DBE);
   (0x2DC0, 0x2DC6); (0x2DC8, 0x2DCE); (0x2DD0, 0x2DD6); (0x2DD8, 0x2DDE);
   (0x2DE0, 0x2E5D); (0x2E80, 0x2E99); (0x2E9B, 0x2EF3); (0x2F00, 0x2FD5);
   (0x2FF0, 0x2FFB); (0x3001, 0x303F); (0x3041, 0x3096); (0x3099, 0x30FF);
   (0x3105, 0x312F); (0x3131, 0x318E); (0x3190, 0x31E3); (0x31F0, 0x321E);
   (0x3220, 0xA48C); (0xA490, 0xA4C6); (0xA4D0, 0xA62B); (0xA640, 0xA6F7);
   (0xA700, 0xA7CA); (0xA7D0, 0xA7D1); (0xA7D3, 0xA7D3); (0xA7D5, 0xA7D9);
   (0xA7F2, 0xA82C); (0xA830, 0xA839); (0xA840, 0xA877); (0xA880, 0xA8C5);
   (0xA8CE, 0xA8D9); (0xA8E0, 0xA953); (0xA95F, 0xA97C); (0xA980, 0xA9CD);
   (0xA9CF, 0xA9D9); (0xA9DE, 0xA9FE); (0xAA00, 0xAA36); (0xAA40, 0xAA4D);
   (0xAA50, 0xAA59); (0xAA5C, 0xAAC2); (0xAADB, 0xAAF6); (0xAB01, 0xAB06);
   (0xAB09, 0xAB0E); (0xAB11, 0xAB16); (0xAB20, 0xAB26); (0xAB28, 0xAB2E);
   (0xAB30, 0xAB6B); (0xAB70, 0xABED); (0xABF0, 0xABF9); (0xAC00, 0xD7A3);
   (0xD7B0, 0xD7C6); (0xD7CB, 0xD7FB); (0xF900, 0xFA6D); (0xFA70, 0xFAD9);
   (0xFB00, 0xFB06); (0xFB13, 0xFB17); (0xFB1D, 0xFB36); (0xFB38, 0xFB3C);
   (0xFB3E, 0xFB3E); (0xFB40, 0xFB41); (0xFB43, 0xFB44); (0xFB46, 0xFBC2);
   (0xFBD3, 0xFD8F); (0xFD92, 0xFDC7); (0xFDCF, 0xFDCF); (0xFDF0, 0xFE19);
   (0xFE20, 0xFE52); (0xFE54, 0xFE66); (0xFE68, 0xFE6B); (0xFE70, 0xFE74);
   (0xFE76, 0xFEFC); (0xFF01, 0xFFBE); (0xFFC2, 0xFFC7); (0xFFCA, 0xFFCF);
   (0xFFD2, 0xFFD7); (0xFFDA, 0xFFDC); (0xFFE0, 0xFFE6); (0xFFE8, 0xFFEE);
   (0xFFFC, 0xFFFD); (0x10000, 0x1000B); (0x1000D, 0x10026);
   (0x10028, 0x1003A); (0x1003C, 0x1003D); (0x1003F, 0x1004D);
   (0x10050, 0x1005D); (0x10080, 0x100FA); (0x10100, 0x10102);
   (0x10107, 0x10133); (0x10137, 0x1018E); (0x10190, 0x1019C);
   (0x101A0, 0x101A0); (0x101D0, 0x101FD); (0x10280, 0x1029C);
   (0x102A0, 0x102D0); (0x102E0, 0x102FB); (0x10300, 0x10323);
   (0x1032D, 0x1034A); (0x10350, 0x1037A); (0x10380, 0x1039D);
   (0x1039F, 0x103C3); (0x103C8, 0x103D5); (0x10400, 0x1049D);
   (0x104A0, 0x104A9); (0x104B0, 0x104D3); (0x104D8, 0x104FB);
   (0x10500, 0x10527); (0x10530, 0x10563); (0x1056F, 0x1057A);
   (0x1057C, 0x1058A); (0x1058C, 0x10592); (0x10594, 0x10595);
   (0x10597, 0x105A1); (0x105A3, 0x105B1); (0x105B3, 0x105B9);
   (0x105BB, 0x105BC); (0x10600, 0x10736); (0x10740, 0x10755);
   (0x10760, 0x10767); (0x10780, 0x10785); (0x10787, 0x107B0);
   (0x107B2, 0x107BA); (0x10800, 0x10805); (0x10808, 0x10808);
   (0x1080A, 0x10835); (0x10837, 0x10838); (0x1083C, 0x1083C);
   (0x1083F, 0x10855); (0x10857, 0x1089E); (0x108A7, 0x108AF);
   (0x108E0, 0x108F2); (0x108F4, 0x108F5); (0x108FB, 0x1091B);
   (0x1091F, 0x10939); (0x1093F, 0x1093F); (0x10980, 0x109B7);
   (0x109BC, 0x109CF); (0x109D2, 0x10A03); (0x10A05, 0x10A06);
   (0x10A0C, 0x10A13); (0x10A15, 0x10A17); (0x10A19, 0x10A35);
   (0x10A38, 0x10A3A); (0x10A3F, 0x10A48); (0x10A50, 0x10A58);
   (0x10A60, 0x10A9F); (0x10AC0, 0x10AE6); (0x10AEB, 0x10AF6);
   (0x10B00, 0x10B35); (0x10B39, 0x10B55); (0x10B58, 0x10B72);
   (0x10B78, 0x10B91); (0x10B99, 0x10B9C); (0x10BA9, 0x10BAF);
   (0x10C00, 0x10C48); (0x10C80, 0x10CB2); (0x10CC0, 0x10CF2);
   (0x10CFA, 0x10D27); (0x10D30, 0x10D39); (0x10E60, 0x10E7E);
   (0x10E80, 0x10EA9); (0x10EAB, 0x10EAD); (0x10EB0, 0x10EB1);
   (0x10F00, 0x10F27); (0x10F30, 0x10F59); (0x10F70, 0x10F89);
   (0x10FB0, 0x10FCB); (0x10FE0, 0x10FF6); (0x11000, 0x1104D);
   (0x11052, 0x11075); (0x1107F, 0x110BC); (0x110BE, 0x110C2);
   (0x110D0, 0x110E8); (0x110F0, 0x110F9); (0x11100, 0x11134);
   (0x11136, 0x11147); (0x11150, 0x11176); (0x11180, 0x111DF);
   (0x111E1, 0x111F4); (0x11200, 0x11211); (0x11213, 0x1123E);
   (0x11280, 0x11286); (0x11288, 0x11288); (0x1128A, 0x1128D);
   (0x1128F, 0x1129D); (0x1129F, 0x112A9); (0x112B0, 0x112EA);
   (0x112F0, 0x112F9); (0x11300, 0x11303); (0x11305, 0x1130C);
   (0x1130F, 0x11310); (0x11313, 0x11328); (0x1132A, 0x11330);
   (0x11332, 0x11333); (0x11335, 0x11339); (0x1133B, 0x11344);
   (0x11347, 0x11348); (0x1134B, 0x1134D); (0x11350, 0x11350);
   (0x11357, 0x11357); (0x1135D, 0x11363); (0x11366, 0x1136C);
   (0x11370, 0x11374); (0x11400, 0x1145B); (0x1145D, 0x11461);
   (0x11480, 0x114C7); (0x114D0, 0x114D9); (0x11580, 0x115B5);
   (0x115B8, 0x115DD); (0x11600, 0x11644); (0x11650, 0x11659);
   (0x11660, 0x1166C); (0x11680, 0x116B9); (0x116C0, 0x116C9);
   (0x11700, 0x1171A); (0x1171D, 0x1172B); (0x11730, 0x11746);
   (0x11800, 0x1183B); (0x118A0, 0x118F2); (0x118FF, 0x11906);
   (0x11909, 0x11909); (0x1190C, 0x11913); (0x11915, 0x11916);
   (0x11918, 0x11935); (0x11937, 0x11938); (0x1193B, 0x11946);
   (0x11950, 0x11959); (0x119A0, 0x119A7); (0x119AA, 0x119D7);
   (0x119DA, 0x119E4); (0x11A00, 0x11A47); (0x11A50, 0x11AA2);
   (0x11AB0, 0x11AF8); (0x11C00, 0x11C08); (0x11C0A, 0x11C36);
   (0x11C38, 0x11C45); (0x11C50, 0x11C6C); (0x11C70, 0x11C8F);
   (0x11C92, 0x11CA7); (0x11CA9, 0x11CB6); (0x11D00, 0x11D06);
   (0x11D08, 0x11D09); (0x11D0B, 0x11D36); (0x11D3A, 0x11D3A);
   (0x11D3C, 0x11D3D); (0x11D3F, 0x11D47); (0x11D50, 0x11D59);
   (0x11D60, 0x11D65); (0x11D67, 0x11D68); (0x11D6A, 0x11D8E);
   (0x11D90, 0x11D91); (0x11D93, 0x11D98); (0x11DA0, 0x11DA9);
   (0x11EE0, 0x11EF8); (0x11FB0, 0x11FB0); (0x11FC0, 0x11FF1);
   (0x11FFF, 0x12399); (0x12400, 0x1246E); (0x12470, 0x12474);
   (0x12480, 0x12543); (0x12F90, 0x12FF2); (0x13000, 0x1342E);
   (0x14400, 0x14646); (0x16800, 0x16A38); (0x16A40, 0x16A5E);
   (0x16A60, 0x16A69); (0x16A6E, 0x16ABE); (0x16AC0, 0x16AC9);
   (0x16AD0, 0x16AED); (0x16AF0, 0x16AF5); (0x16B00, 0x16B45);
   (0x16B50, 0x16B59); (0x16B5B, 0x16B61); (0x16B63, 0x16B77);
   (0x16B7D, 0x16B8F); (0x16E40, 0x16E9A); (0x16F00, 0x16F4A);
   (0x16F4F, 0x16F87); (0x16F8F, 0x16F9F); (0x16FE0, 0x16FE4);
   (0x16FF0, 0x16FF1); (0x17000, 0x187F7); (0x18800, 0x18CD5);
   (0x18D00, 0x18D08); (0x1AFF0, 0x1AFF3); (0x1AFF5, 0x1AFFB);
   (0x1AFFD, 0x1AFFE); (0x1B000, 0x1B122); (0x1B150, 0x1B152);
   (0x1B164, 0x1B167); (0x1B170, 0x1B2FB); (0x1BC00, 0x1BC6A);
   (0x1BC70, 0x1BC7C); (0x1BC80, 0x1BC88); (0x1BC90, 0x1BC99);
   (0x1BC9C, 0x1BC9F); (0x1CF00, 0x1CF2D); (0x1CF30, 0x1CF46);
   (0x1CF50, 0x1CFC3); (0x1D000, 0x1D0F5); (0x1D100, 0x1D126);
   (0x1D129, 0x1D172); (0x1D17B, 0x1D1EA); (0x1D200, 0x1D245);
   (0x1D2E0, 0x1D2F3); (0x1D300, 0x1D356); (0x1D360, 0x1D378);
   (0x1D400, 0x1D454); (0x1D456, 0x1D49C); (0x1D49E, 0x1D49F);
   (0x1D4A2, 0x1D4A2); (0x1D4A5, 0x1D4A6); (0x1D4A9, 0x1D4AC);
   (0x1D4AE, 0x1D4B9); (0x1D4BB, 0x1D4BB); (0x1D4BD, 0x1D4C3);
   (0x1D4C5, 0x1D505); (0x1D507, 0x1D50A); (0x1D50D, 0x1D514);
   (0x1D516, 0x1D51C); (0x1D51E, 0x1D539); (0x1D53B, 0x1D53E);
   (0x1D540, 0x1D544); (0x1D546, 0x1D546); (0x1D54A, 0x1D550);
   (0x1D552, 0x1D6A5); (0x1D6A8, 0x1D7CB); (0x1D7CE, 0x1DA8B);
   (0x1DA9B, 0x1DA9F); (0x1DAA1, 0x1DAAF); (0x1DF00, 0x1DF1E);
   (0x1E000, 0x1E006); (0x1E008, 0x1E018); (0x1E01B, 0x1E021);
   (0x1E023, 0x1E024); (0x1E026, 0x1E02A); (0x1E100, 0x1E12C);
   (0x1E130, 0x1E13D); (0x1E140, 0x1E149); (0x1E14E, 0x1E14F);
   (0x1E290, 0x1E2AE); (0x1E2C0, 0x1E2F9); (0x1E2FF, 0x1E2FF);
   (0x1E7E0, 0x1E7E6); (0x1E7E8, 0x1E7EB); (0x1E7ED, 0x1E7EE);
   (0x1E7F0, 0x1E7FE); (0x1E800, 0x1E8C4); (0x1E8C7, 0x1E8D6);
   (0x1E900, 0x1E94B); (0x1E950, 0x1E959); (0x1E95E, 0x1E95F);
   (0x1EC71, 0x1ECB4); (0x1ED01, 0x1ED3D); (0x1EE00, 0x1EE03);
   (0x1EE05, 0x1EE1F); (0x1EE21, 0x1EE22); (0x1EE24, 0x1EE24);
   (0x1EE27, 0x1EE27); (0x1EE29, 0x1EE32); (0x1EE34, 0x1EE37);
   (0x1EE39, 0x1EE39); (0x1EE3B, 0x1EE3B); (0x1EE42, 0x1EE42);
   (0x1EE47, 0x1EE47); (0x1EE49, 0x1EE49); (0x1EE4B, 0x1EE4B);
   (0x1EE4D, 0x1EE4F); (0x1EE51, 0x1EE52); (0x1EE54, 0x1EE54);
   (0x1EE57, 0x1EE57); (0x1EE59, 0x1EE59); (0x1EE5B, 0x1EE5B);
   (0x1EE5D, 0x1EE5D); (0x1EE5F, 0x1EE5F); (0x1EE61, 0x1EE62);
   (0x1EE64, 0x1EE64); (0x1EE67, 0x1EE6A); (0x1EE6C, 0x1EE72);
   (0x1EE74, 0x1EE77); (0x1EE79, 0x1EE7C); (0x1EE7E, 0x1EE7E);
   (0x1EE80, 0x1EE89); (0x1EE8B, 0x1EE9B); (0x1EEA1, 0x1EEA3);
   (0x1EEA5, 0x1EEA9); (0x1EEAB, 0x1EEBB); (0x1EEF0, 0x1EEF1);
   (0x1F000, 0x1F02B); (0x1F030, 0x1F093); (0x1F0A0, 0x1F0AE);
   (0x1F0B1, 0x1F0BF); (0x1F0C1, 0x1F0CF); (0x1F0D1, 0x1F0F5);
   (0x1F100, 0x1F1AD); (0x1F1E6, 0x1F202); (0x1F210, 0x1F23B);
   (0x1F240, 0x1F248); (0x1F250, 0x1F251); (0x1F260, 0x1F265);
   (0x1F300, 0x1F6D7); (0x1F6DD, 0x1F6EC); (0x1F6F0, 0x1F6FC);
   (0x1F700, 0x1F773); (0x1F780, 0x1F7D8); (0x1F7E0, 0x1F7EB);
   (0x1F7F0, 0x1F7F0); (0x1F800, 0x1F80B); (0x1F810, 0x1F847);
   (0x1F850, 0x1F859); (0x1F860, 0x1F887); (0x1F890, 0x1F8AD);
   (0x1F8B0, 0x1F8B1); (0x1F900, 0x1FA53); (0x1FA60, 0x1FA6D);
   (0x1FA70, 0x1FA74); (0x1FA78, 0x1FA7C); (0x1FA80, 0x1FA86);
   (0x1FA90, 0x1FAAC); (0x1FAB0, 0x1FABA); (0x1FAC0, 0x1FAC5);
   (0x1FAD0, 0x1FAD9); (0x1FAE0, 0x1FAE7); (0x1FAF0, 0x1FAF6);
   (0x1FB00, 0x1FB92); (0x1FB94, 0x1FBCA); (0x1FBF0, 0x1FBF9);
   (0x20000, 0x2A6DF); (0x2A700, 0x2B738); (0x2B740, 0x2B81D);
   (0x2B820, 0x2CEA1); (0x2CEB0, 0x2EBE0); (0x2F800, 0x2FA1D);
   (0x30000, 0x3134A); (0xE0100, 0xE01EF)]%N.

Definition in_ranges (c : N) (table : list (N * N)) : bool :=
  existsb (fun r => (fst r <=? c) && (c <=? snd r))%N table.

(** The value of a decimal digit, of whatever script. *)
Definition decimal (c : N) : option Z :=
  match List.find (fun r => (fst r <=? c) && (c <=? snd r))%N
          decimal_digits with
  | Some r => Some (Z.of_N ((c - fst r) mod 10))
  | None => None
  end.

(** [c.isdecimal()] *)
Definition chr_isdecimal (c : N) : bool :=
  match decimal c with
  | Some _ => true
  | None => false
  end.

(** [c.isdigit()] *)
Definition chr_isdigit (c : N) : bool :=
  chr_isdecimal c || in_ranges c other_digits.

(** [c.isprintable()] *)
Definition chr_printable (c : N) : bool := in_ranges c printable.

(** [s.isdigit()]: false on the empty string. *)
Definition isdigit (s : string) : bool :=
  match code_points s with
  | [] => false
  | l => forallb chr_isdigit l
  end.

(** ** [repr] *)

Definition backslash : ascii := ascii_of_N 92.
Definition squote : ascii := ascii_of_N 39.
Definition dquote : ascii := ascii_of_N 34.

Definition hex_digit (n : N) : ascii :=
  ascii_of_N (if (n <? 10)%N then 48 + n else 87 + n).

(** The last [width] hexadecimal digits of [n]. *)
Fixpoint hex (width : nat) (n : N) : list N :=
  match width with
  | O => []
  | S width' => hex width' (n / 16) ++ [code (hex_digit (n mod 16))]
  end.

Definition repr_char (quote : N) (c : N) : list N :=
  let esc (l : list N) : list N := code backslash :: l in
  (if c =? code backslash then esc [code backslash]
   else if c =? quote then esc [quote]
   else if c =? 10 then esc [code "n"]
   else if c =? 13 then esc [code "r"]
   else if c =? 9 then esc [code "t"]
   else if chr_printable c then [c]
   else if c <? 256 then esc (code "x" :: hex 2 c)
   else if c <? 65536 then esc (code "u" :: hex 4 c)
   else esc (code "U" :: hex 8 c))%N.

(** The code points of [repr] of a text. *)
Definition repr_points (l : list N) : list N :=
  let quote : N :=
    if existsb (N.eqb (code squote)) l
       && negb (existsb (N.eqb (code dquote)) l)
    then code dquote else code squote in
  quote :: flat_map (repr_char quote) l ++ [quote].

(** [repr(s)] *)
Definition repr (s : string) : string := str_of (repr_points (code_points s)).

Definition has_char (c : ascii) (s : string) : bool :=
  existsb (Ascii.eqb c) (list_ascii_of_string s).

(** [str(n)] for an int. *)
Definition str_of_int (n : Z) : string := pretty n.

(** ** [int] *)

(** What [int()] takes a character for.  The white space it skips is the
    six ASCII blanks and, from code point 127 on, what Unicode counts as
    white space; a decimal digit of any script is read by its value. *)
Inductive token :=
  | Blank
  | Sign (negative : bool)
  | Underscore
  | Digit (value : Z)
  | Other.

Definition int_blank (c : N) : bool :=
  (if c <? 127 then ((9 <=? c) && (c <=? 13)) || (c =? 32)
   else in_ranges c white_space)%N.

Definition token_of (c : N) : token :=
  if int_blank c then Blank
  else
    match decimal c with
    | Some v => Digit v
    | None =>
        (if c =? code "-" then Sign true
         else if c =? code "+" then Sign false
         else if c =? code "_" then Underscore
         else Other)%N
    end.

Fixpoint skip_blanks (l : list token) : list token :=
  match l with
  | Blank :: r => skip_blanks r
  | _ => l
  end.

(** The run of digits, with single underscores between them, that opens
    [l]: its digits and what follows it.  [None] when an underscore does
    not stand between two digits, or when there is no digit;
    [after_digit] tells whether the previous character was a digit. *)
Fixpoint numeral (after_digit : bool) (l : list token)
  : option (list Z * list token) :=
  match l with
  | Digit v :: r =>
      match numeral true r with
      | Some (digits, rest) => Some (v :: digits, rest)
      | None => None
      end
  | Underscore :: r => if after_digit then numeral false r else None
  | _ => if after_digit then Some ([], l) else None
  end.

(** The greatest number of digits [int()] converts; more raise a
    [ValueError] ([sys.int_info.default_max_str_digits]). *)
Definition max_str_digits : nat := 4300.

(** The error of [int()] for a text that is no numeral; it carries at most
    200 characters of the [repr]. *)
Definition invalid_literal (s : string) : result Z :=
  raise ValueError
    ("invalid literal for int() with base 10: "
     +:+ str_of (firstn 200 (repr_points (code_points s)))).

(** [int(s)] in base 10. *)
Definition int (s : string) : result Z :=
  let body := skip_blanks (map token_of (code_points s)) in
  let '(negative, rest) :=
    match body with
    | Sign negative :: r => (negative, r)
    | _ => (false, body)
    end in
  match numeral false rest with
  | None => invalid_literal s
  | Some (digits, rest') =>
      if (max_str_digits <? length digits)%nat then
        raise ValueError
          ("Exceeds the limit (4300 digits) for integer string conversion: "
           +:+ "value has " +:+ str_of_int (Z.of_nat (length digits))
           +:+ " digits; use sys.set_int_max_str_digits() "
           +:+ "to increase the limit")
      else
        match skip_blanks rest' with
        | [] =>
            let n := fold_left (fun acc v => 10 * acc + v) digits 0 in
            ret (if negative then - n else n)
        | _ => invalid_literal s
        end
  end.

End Py.

Notation "'let*' x ':=' m 'in' k" := (Py.bind m (fun x => k))
  (at level 10, x pattern, m at level 100, k at level 200).

(* ===================================================================== *)
(** * Floating point *)
(* ===================================================================== *)

(** Python floats are IEEE 754 binary64 numbers.  A finite float is modelled
    by the rational it denotes, and every operation returns the exact result
    rounded to the nearest representable number, ties to the even
    significand (precision 53, least exponent -1074). *)
Module Float64.

Definition pow2 (e : Z) : Q := (2 ^ e)%Q.

(** For [0 < x], the exponent [k] with [2^(k-1) <= x < 2^k]. *)
Definition mag (x : Q) : Z :=
  let k := Z.log2 (Qnum x) - Z.log2 (Zpos (Qden x)) in
  if Qle_bool (pow2 k) x then k + 1 else k.

(** Exponent of the unit in the last place of the binade of [x]. *)
Definition cexp (x : Q) : Z := Z.max (mag x - 53) (-1074).

(** Nearest integer, ties to even. *)
Definition rne (x : Q) : Z :=
  let f := Qfloor x in
  match (x - inject_Z f ?= 1 # 2)%Q with
  | Lt => f
  | Gt => f + 1
  | Eq => if Z.even f then f else f + 1
  end.

Definition round_pos (x : Q) : Q :=
  (inject_Z (rne (x / pow2 (cexp x))) * pow2 (cexp x))%Q.

(** Rounding of an exact result to binary64, ignoring overflow. *)
Definition round (x : Q) : Q :=
  match (x ?= 0)%Q with
  | Eq => 0%Q
  | Gt => round_pos x
  | Lt => (- round_pos (- x))%Q
  end.

(** A rounded result that no finite binary64 number holds. *)
Definition overflows (x : Q) : bool := Qle_bool (pow2 1024) (Qabs x).

(** The value of a float expression: finite or an infinity. *)
Inductive float :=
  | Finite (x : Q)
  | Infinity (negative : bool).

(** [int / int]: true division of two ints, correctly rounded. *)
Definition truediv (a b : Z) : Py.result Q :=
  if b =? 0 then Py.raise Py.ZeroDivisionError "division by zero"
  else
    let q := round (inject_Z a / inject_Z b) in
    if overflows q
    then Py.raise Py.OverflowError "integer division result too large for a float"
    else Py.ret q.

(** [float(n)] for an int [n]. *)
Definition of_int (n : Z) : Py.result Q :=
  let q := round (inject_Z n) in
  if overflows q
  then Py.raise Py.OverflowError "int too large to convert to float"
  else Py.ret q.

(** [x * y] on finite floats. *)
Definition mul (x y : Q) : float :=
  let p := round (x * y) in
  if overflows p then Infinity (Qle_bool p 0) else Finite p.

(** Truncation towards zero. *)
Definition trunc (x : Q) : Z :=
  if Qle_bool 0 x then Qfloor x else - Qfloor (- x).

(** [int(x)] for a float. *)
Definition to_int (x : float) : Py.result Z :=
  match x with
  | Finite q => Py.ret (trunc q)
  | Infinity _ =>
      Py.raise Py.OverflowError "cannot convert float infinity to integer"
  end.

(** [f"{x:.1f}"]: one decimal, the exact value rounded half to even. *)
Definition format_1f (x : Q) : string :=
  let n := rne (Qabs x * 10) in
  (if Qle_bool 0 x then EmptyString else "-")
    +:+ Py.str_of_int (n / 10) +:+ "." +:+ Py.str_of_int (n mod 10).

End Float64.

(* ===================================================================== *)
(** * XML documents and HTTP exchanges *)
(* ===================================================================== *)

Module Xml.

(** An element as [xml.etree.ElementTree] presents it: tag, text ([None]
    when the element has none) and child elements. *)
Inductive element :=
  | Element (tag : string) (text : option string) (children : list element).

Definition tag (e : element) : string :=
  match e with Element t _ _ => t end.
Definition text (e : element) : option string :=
  match e with Element _ t _ => t end.
Definition children (e : element) : list element :=
  match e with Element _ _ c => c end.

(** [e.find(name)]: the first child with that tag. *)
Definition find (name : string) (e : element) : option element :=
  List.find (fun c => String.eqb (tag c) name) (children e).

(** All elements below [e], in document order. *)
Fixpoint descendants (e : element) : list element :=
  match e with
  | Element _ _ cs => flat_map (fun c => c :: descendants c) cs
  end.

(** [e.findall('.//name')] *)
Definition findall_below (name : string) (e : element) : list element :=
  List.filter (fun c => String.eqb (tag c) name) (descendants e).

(** [x.text if x is not None else default] *)
Definition text_or (x : option element) (default : option string)
  : option string :=
  match x with
  | Some e => text e
  | None => default
  end.

(** A response body, given by what [ET.fromstring] makes of it. *)
Inductive document :=
  | Malformed (err : string)
  | Document (root : element).

Definition fromstring (d : document) : Py.result element :=
  match d with
  | Malformed err => Py.raise Py.ParseError err
  | Document root => Py.ret root
  end.

End Xml.

Module Http.

(** A received response: the text of the [HTTPError] that
    [raise_for_status] raises, if the status is an error, and the body. *)
Record response := Response {
  http_error : option string;
  body : Xml.document
}.

(** What the environment answers to one request. *)
Inductive outcome :=
  | Failed (err : string)        (* the transport raises a RequestException *)
  | Responded (r : response).

(** [session.post(...)] and [session.get(...)] *)
Definition send (o : outcome) : Py.result response :=
  match o with
  | Failed err => Py.raise Py.RequestException err
  | Responded r => Py.ret r
  end.

Definition raise_for_status (r : response) : Py.result unit :=
  match http_error r with
  | Some err => Py.raise Py.RequestException err
  | None => Py.ret tt
  end.

End Http.

(* ===================================================================== *)
(** * webshare_api.py *)
(* ===================================================================== *)

(** The hash functions of [passlib] and [hashlib], which the code calls and
    does not define. *)
Class HashLib := {
  (** md5-crypt of a password with a given salt; [passlib] raises on a salt
      it does not accept *)
  md5_crypt : string -> string -> Py.result string;
  (** [hashlib.sha1(b).hexdigest()] *)
  sha1_hexdigest : list Byte.byte -> string;
  (** [hashlib.md5(b).hexdigest()] *)
  md5_hexdigest : list Byte.byte -> string
}.

Module WebshareAPI.
Import Py.

Definition byte_of_N (n : N) : Byte.byte :=
  match Byte.of_N n with
  | Some b => b
  | None => Byte.x00
  end.

Definition is_surrogate (c : N) : bool :=
  ((55296 <=? c) && (c <=? 57343))%N.

(** The number of surrogates that open a text. *)
Fixpoint surrogate_run (l : list N) : nat :=
  match l with
  | c :: r => if is_surrogate c then S (surrogate_run r) else O
  | [] => O
  end.

(** The first run of surrogates of a text read from position [i] on: its
    first character, and the positions of its first and of its last
    character. *)
Fixpoint first_surrogates (i : nat) (l : list N) : option (N * nat * nat) :=
  match l with
  | [] => None
  | c :: r =>
      if is_surrogate c then Some (c, i, (i + surrogate_run r)%nat)
      else first_surrogates (S i) r
  end.

(** [s.encode('utf-8')]: the bytes of the characters; a text with a
    surrogate has no UTF-8 form, and the codec raises. *)
Definition encode_utf8 (s : string) : result (list Byte.byte) :=
  let text := code_points s in
  match first_surrogates 0 text with
  | Some (c, first, last) =>
      let position (i : nat) : string := str_of_int (Z.of_nat i) in
      raise UnicodeEncodeError
        ("'utf-8' codec can't encode "
         +:+ (if (first =? last)%nat
              then "character " +:+ str_of (repr_points [c])
                   +:+ " in position " +:+ position first
              else "characters in position " +:+ position first
                   +:+ "-" +:+ position last)
         +:+ ": surrogates not allowed")
  | None => ret (map (fun b => byte_of_N (code b)) (flat_map chr_bytes text))
  end.

(** The state of a [WebshareAPI] object that the methods read and write. *)
Record t := Build {
  logged_in : bool;
  token : option string
}.

(** [__init__] *)
Definition init : t := {| logged_in := false; token := None |}.

Section Methods.
Context {H : HashLib}.

(** [md5_crypt.encrypt(password, salt=salt)].  When [salt] is [None] the
    library draws a fresh salt; [rnd] is the salt it draws. *)
Definition md5_crypt_encrypt (rnd password : string) (salt : option string)
  : result string :=
  match salt with
  | Some s => md5_crypt password s
  | None => md5_crypt password rnd
  end.

Definition hash_password (rnd username password : string)
    (salt : option string) : result (string * string) :=
  reraise "Failed to hash password: "
    (let* md5_hash := md5_crypt_encrypt rnd password salt in
     let* md5_bytes := encode_utf8 md5_hash in
     let password_hash := sha1_hexdigest md5_bytes in
     let digest_string := username +:+ ":Webshare:" +:+ password_hash in
     let* digest_bytes := encode_utf8 digest_string in
     let digest := md5_hexdigest digest_bytes in
     ret (password_hash, digest)).

Definition get_salt (username : string) (post : Http.outcome)
  : result (option string) :=
  reraise "Failed to get salt: "
    (let* response := Http.send post in
     let* _ := Http.raise_for_status response in
     let* root := Xml.fromstring (Http.body response) in
     match Xml.find "status" root with
     | Some status_elem =>
         if eq_str (Xml.text status_elem) "OK" then
           match Xml.find "salt" root with
           | Some salt_elem => ret (Xml.text salt_elem)
           | None => raise Exception "No salt found in response"
           end
         else
           let message := Xml.text_or (Xml.find "message" root) (Some "Unknown error") in
           raise Exception ("Failed to get salt: " +:+ fmt message)
     | None =>
         let message := Xml.text_or (Xml.find "message" root) (Some "Unknown error") in
         raise Exception ("Failed to get salt: " +:+ fmt message)
     end).

(** The handlers that end [login], [search] and [initiate_download]:
    [except RequestException] first, then [except Exception]. *)
Definition handlers {A} (prefix : string) (m : result A) : result A :=
  match m with
  | inr a => inr a
  | inl e =>
      match exc_class e with
      | RequestException =>
          raise Exception (prefix +:+ "Network error - " +:+ exc_str e)
      | _ => raise Exception (prefix +:+ exc_str e)
      end
  end.

(** [try: m  except ET.ParseError: raise Exception(msg)] *)
Definition except_parse_error {A} (msg : string) (m : result A) : result A :=
  match m with
  | inr a => inr a
  | inl e =>
      match exc_class e with
      | ParseError => raise Exception msg
      | _ => inl e
      end
  end.

(** The [try] block of [login]; on success, the object as the two
    assignments leave it. *)
Definition login_try (self : t) (rnd username password : string)
    (salt_post login_post : Http.outcome) : result t :=
  let* salt := get_salt username salt_post in
  let* _ := hash_password rnd username password salt in
  let* login_response := Http.send login_post in
  let* _ := Http.raise_for_status login_response in
  except_parse_error "Login failed: Invalid server response"
    (let* root := Xml.fromstring (Http.body login_response) in
     let status := Xml.text_or (Xml.find "status" root) (Some "UNKNOWN") in
     if eq_str status "OK" then
       match Xml.find "token" root with
       | Some token_elem =>
           ret {| logged_in := true; token := Xml.text token_elem |}
       | None => raise Exception "Login successful but no token received"
       end
     else
       let message := Xml.text_or (Xml.find "message" root) (Some "No message") in
       let code := Xml.text_or (Xml.find "code" root) (Some "No code") in
       raise Exception
         ("Login failed: " +:+ fmt message +:+ " (code: " +:+ fmt code +:+ ")")).

(** [login]: what it returns or raises, and the object afterwards. *)
Definition login (self : t) (rnd username password : string)
    (salt_post login_post : Http.outcome) : result unit * t :=
  match handlers "Login failed: "
          (login_try self rnd username password salt_post login_post) with
  | inr self' => (ret tt, self')
  | inl e => (inl e, self)
  end.

(** The guard that opens [search] and [initiate_download]. *)
Definition require_login (self : t) : result unit :=
  if negb (logged_in self) || negb (truthy (token self))
  then raise Exception "Not logged in. Please login first."
  else ret tt.

Definition size_names : list string := ["B"; "KB"; "MB"; "GB"; "TB"].

(** The [while] loop of [_format_file_size] once [size_bytes] is a float;
    it runs at most four times. *)
Fixpoint scale_size (fuel : nat) (size_bytes : Q) (i : nat) : Q * nat :=
  match fuel with
  | O => (size_bytes, i)
  | S fuel' =>
      if Qle_bool 1024 size_bytes && (i <? 4)%nat
      then scale_size fuel' (Float64.round (size_bytes / 1024)) (i + 1)
      else (size_bytes, i)
  end.

Definition _format_file_size (size_bytes : Z) : result string :=
  if size_bytes =? 0 then ret "0 B"
  else
    let* x := Float64.of_int size_bytes in
    let '(y, i) := scale_size 4 x 0 in
    ret (Float64.format_1f y +:+ " " +:+ nth i size_names EmptyString).

(** One entry of the list that [search] returns. *)
Record search_result := SearchResult {
  r_id : option string;
  r_name : option string;
  r_size : Z;
  r_sizeFormatted : string;
  r_type : option string;
  r_downloads : Z;
  r_rating : Z;
  r_date : option string
}.

Definition get_elem_text (file_elem : Xml.element) (elem_name : string)
    (default : string) : option string :=
  Xml.text_or (Xml.find elem_name file_elem) (Some default).

Definition get_elem_int (file_elem : Xml.element) (elem_name : string) : Z :=
  match get_elem_text file_elem elem_name (str_of_int 0) with
  | None => 0                      (* int(None): TypeError *)
  | Some s =>
      match Py.int s with
      | inr n => n
      | inl _ => 0                 (* ValueError *)
      end
  end.

Definition parse_file (file_elem : Xml.element) : result search_result :=
  let* size_formatted := _format_file_size (get_elem_int file_elem "size") in
  ret {| r_id := or_else (get_elem_text file_elem "ident" EmptyString)
                         (get_elem_text file_elem "id" EmptyString);
         r_name := or_else (get_elem_text file_elem "name" EmptyString)
                           (get_elem_text file_elem "filename" EmptyString);
         r_size := get_elem_int file_elem "size";
         r_sizeFormatted := size_formatted;
         r_type := get_elem_text file_elem "type" "unknown";
         r_downloads :=
           (if get_elem_int file_elem "download_count" =? 0
            then get_elem_int file_elem "downloads"
            else get_elem_int file_elem "download_count");
         r_rating := get_elem_int file_elem "rating";
         r_date := or_else (get_elem_text file_elem "date_added" EmptyString)
                           (get_elem_text file_elem "date" EmptyString) |}.

Fixpoint parse_files (files : list Xml.element)
  : result (list search_result) :=
  match files with
  | [] => ret []
  | file_elem :: rest =>
      let* r := parse_file file_elem in
      let* rs := parse_files rest in
      ret (r :: rs)
  end.

Definition _parse_search_results_xml (root : Xml.element)
  : result (list search_result) :=
  let files :=
    match Xml.findall_below "file" root with
    | [] => Xml.findall_below "item" root
    | l => l
    end in
  parse_files files.

Definition search (self : t) (query : string) (post : Http.outcome)
  : result (list search_result) :=
  handlers "Search failed: "
    (let* _ := require_login self in
     let* response := Http.send post in
     let* _ := Http.raise_for_status response in
     except_parse_error "Search failed: Invalid server response"
       (let* root := Xml.fromstring (Http.body response) in
        let status := Xml.text_or (Xml.find "status" root) (Some "UNKNOWN") in
        if eq_str status "OK" then _parse_search_results_xml root
        else
          let message := Xml.text_or (Xml.find "message" root) (Some "Unknown error") in
          raise Exception ("Search failed: " +:+ fmt message))).

(** The dict that [initiate_download] returns. *)
Record download_info := DownloadInfo {
  downloadUrl : option string;
  fileName : option string;
  fileSize : Z
}.

(** Lines 252-258: the size field, read only when it is all digits. *)
Definition parse_file_size (size_elem : option Xml.element) : result Z :=
  let size_text := Xml.text_or size_elem (Some "0") in
  match size_text with
  | Some s =>
      if truthy size_text && isdigit s then
        match Py.int s with
        | inr n => ret n
        | inl e =>
            match exc_class e with
            | ValueError | AttributeError => ret 0
            | _ => inl e
            end
        end
      else ret 0
  | None => ret 0
  end.

Definition initiate_download (self : t) (file_id : string)
    (post : Http.outcome) : result download_info :=
  handlers "Download failed: "
    (let* _ := require_login self in
     let* response := Http.send post in
     let* _ := Http.raise_for_status response in
     except_parse_error "Download failed: Invalid server response"
       (let* root := Xml.fromstring (Http.body response) in
        let status := Xml.text_or (Xml.find "status" root) (Some "UNKNOWN") in
        if eq_str status "OK" then
          let link_elem := Xml.find "link" root in
          let name_elem := Xml.find "name" root in
          let size_elem := Xml.find "size" root in
          let* file_size := parse_file_size size_elem in
          ret {| downloadUrl := Xml.text_or link_elem (Some EmptyString);
                 fileName := Xml.text_or name_elem (Some "download");
                 fileSize := file_size |}
        else
          let message := Xml.text_or (Xml.find "message" root) (Some "Unknown error") in
          raise Exception ("Download failed: " +:+ fmt message))).

End Methods.
End WebshareAPI.

(* ===================================================================== *)
(** * The hash functions, written out *)
(* ===================================================================== *)

(** MD5 (RFC 1321), SHA-1 (FIPS 180-4) and the md5-crypt scheme on top of
    MD5, on lists of byte values.  Words are 32-bit values held in [Z]. *)
Module Hashes.

Definition mask32 (x : Z) : Z := Z.land x 0xffffffff.
Definition add32 (a b : Z) : Z := mask32 (a + b).
Definition not32 (x : Z) : Z := Z.lxor x 0xffffffff.
Definition rotl32 (x n : Z) : Z :=
  mask32 (Z.lor (Z.shiftl x n) (Z.shiftr x (32 - n))).

(** Bytes of a word and back, least significant byte first. *)
Definition le_word (bs : list Z) : Z :=
  fold_right (fun b acc => b + 256 * acc) 0 bs.
Definition le_bytes (n : nat) (w : Z) : list Z :=
  map (fun i => Z.land (Z.shiftr w (8 * Z.of_nat i)) 255) (seq 0 n).

(** Most significant byte first. *)
Definition be_word (bs : list Z) : Z :=
  fold_left (fun acc b => 256 * acc + b) bs 0.
Definition be_bytes (n : nat) (w : Z) : list Z := rev (le_bytes n w).

(** A list cut into pieces of [k] elements. *)
Fixpoint groups (k fuel : nat) (l : list Z) : list (list Z) :=
  match fuel with
  | O => []
  | S fuel' =>
      match l with
      | [] => []
      | _ => firstn k l :: groups k fuel' (skipn k l)
      end
  end.

Definition padding (msg : list Z) (length_bytes : list Z) : list Z :=
  let n := Z.of_nat (length msg) in
  msg ++ [128] ++ repeat 0 (Z.to_nat ((55 - n) mod 64)) ++ length_bytes.

(** ** MD5 *)

Definition md5_shifts : list Z :=
  [7; 12; 17; 22; 7; 12; 17; 22; 7; 12; 17; 22; 7; 12; 17; 22;
   5; 9; 14; 20; 5; 9; 14; 20; 5; 9; 14; 20; 5; 9; 14; 20;
   4; 11; 16; 23; 4; 11; 16; 23; 4; 11; 16; 23; 4; 11; 16; 23;
   6; 10; 15; 21; 6; 10; 15; 21; 6; 10; 15; 21; 6; 10; 15; 21].

Definition md5_sines : list Z :=
  [0xd76aa478; 0xe8c7b756; 0x242070db; 0xc1bdceee; 0xf57c0faf; 0x4787c62a;
   0xa8304613; 0xfd469501; 0x698098d8; 0x8b44f7af; 0xffff5bb1; 0x895cd7be;
   0x6b901122; 0xfd987193; 0xa679438e; 0x49b40821; 0xf61e2562; 0xc040b340;
   0x265e5a51; 0xe9b6c7aa; 0xd62f105d; 0x02441453; 0xd8a1e681; 0xe7d3fbc8;
   0x21e1cde6; 0xc33707d6; 0xf4d50d87; 0x455a14ed; 0xa9e3e905; 0xfcefa3f8;
   0x676f02d9; 0x8d2a4c8a; 0xfffa3942; 0x8771f681; 0x6d9d6122; 0xfde5380c;
   0xa4beea44; 0x4bdecfa9; 0xf6bb4b60; 0xbebfbc70; 0x289b7ec6; 0xeaa127fa;
   0xd4ef3085; 0x04881d05; 0xd9d4d039; 0xe6db99e5; 0x1fa27cf8; 0xc4ac5665;
   0xf4292244; 0x432aff97; 0xab9423a7; 0xfc93a039; 0x655b59c3; 0x8f0ccc92;
   0xffeff47d; 0x85845dd1; 0x6fa87e4f; 0xfe2ce6e0; 0xa3014314; 0x4e0811a1;
   0xf7537e82; 0xbd3af235; 0x2ad7d2bb; 0xeb86d391].

Definition md5_step (M : list Z) (st : Z * Z * Z * Z) (i : nat)
  : Z * Z * Z * Z :=
  let '(A, B, C, D) := st in
  let iz := Z.of_nat i in
  let '(F, g) :=
    if (i <? 16)%nat then (Z.lor (Z.land B C) (Z.land (not32 B) D), iz)
    else if (i <? 32)%nat then
      (Z.lor (Z.land D B) (Z.land (not32 D) C), (5 * iz + 1) mod 16)
    else if (i <? 48)%nat then (Z.lxor (Z.lxor B C) D, (3 * iz + 5) mod 16)
    else (Z.lxor C (Z.lor B (not32 D)), (7 * iz) mod 16) in
  let F' := mask32 (F + A + nth i md5_sines 0 + nth (Z.to_nat g) M 0) in
  (D, add32 B (rotl32 F' (nth i md5_shifts 0)), B, C).

Definition md5_block (h : Z * Z * Z * Z) (block : list Z) : Z * Z * Z * Z :=
  let M := map le_word (groups 4 16 block) in
  let '(a0, b0, c0, d0) := h in
  let '(A, B, C, D) := fold_left (md5_step M) (seq 0 64) h in
  (add32 a0 A, add32 b0 B, add32 c0 C, add32 d0 D).

Definition md5 (msg : list Z) : list Z :=
  let padded := padding msg (le_bytes 8 (8 * Z.of_nat (length msg))) in
  let '(a, b, c, d) :=
    fold_left md5_block (groups 64 (length padded) padded)
      (0x67452301, 0xefcdab89, 0x98badcfe, 0x10325476) in
  le_bytes 4 a ++ le_bytes 4 b ++ le_bytes 4 c ++ le_bytes 4 d.

(** ** SHA-1 *)

Definition sha1_schedule (block : list Z) : list Z :=
  fold_left
    (fun w i =>
       w ++ [rotl32
               (Z.lxor (Z.lxor (nth (i - 3) w 0) (nth (i - 8) w 0))
                  (Z.lxor (nth (i - 14) w 0) (nth (i - 16) w 0))) 1])
    (seq 16 64) (map be_word (groups 4 16 block)).

Definition sha1_step (w : list Z) (st : Z * Z * Z * Z * Z) (i : nat)
  : Z * Z * Z * Z * Z :=
  let '(a, b, c, d, e) := st in
  let '(f, k) :=
    if (i <? 20)%nat then
      (Z.lor (Z.land b c) (Z.land (not32 b) d), 0x5a827999)
    else if (i <? 40)%nat then (Z.lxor (Z.lxor b c) d, 0x6ed9eba1)
    else if (i <? 60)%nat then
      (Z.lor (Z.lor (Z.land b c) (Z.land b d)) (Z.land c d), 0x8f1bbcdc)
    else (Z.lxor (Z.lxor b c) d, 0xca62c1d6) in
  let temp := mask32 (rotl32 a 5 + f + e + k + nth i w 0) in
  (temp, a, rotl32 b 30, c, d).

Definition sha1_block (h : Z * Z * Z * Z * Z) (block : list Z)
  : Z * Z * Z * Z * Z :=
  let w := sha1_schedule block in
  let '(h0, h1, h2, h3, h4) := h in
  let '(a, b, c, d, e) := fold_left (sha1_step w) (seq 0 80) h in
  (add32 h0 a, add32 h1 b, add32 h2 c, add32 h3 d, add32 h4 e).

Definition sha1 (msg : list Z) : list Z :=
  let padded := padding msg (be_bytes 8 (8 * Z.of_nat (length msg))) in
  let '(h0, h1, h2, h3, h4) :=
    fold_left sha1_block (groups 64 (length padded) padded)
      (0x67452301, 0xefcdab89, 0x98badcfe, 0x10325476, 0xc3d2e1f0) in
  be_bytes 4 h0 ++ be_bytes 4 h1 ++ be_bytes 4 h2 ++ be_bytes 4 h3
    ++ be_bytes 4 h4.

(** ** Hexadecimal digests *)

Definition hexdigest (bs : list Z) : string :=
  fold_right
    (fun b acc =>
       String (Py.hex_digit (Z.to_N (b / 16)))
         (String (Py.hex_digit (Z.to_N (b mod 16))) acc))
    EmptyString bs.

Definition values (bs : list Byte.byte) : list Z :=
  map (fun b => Z.of_N (Byte.to_N b)) bs.

(** ** md5-crypt *)

Definition crypt_alphabet : list ascii :=
  list_ascii_of_string
    "./0123456789ABCDEFGHIJKLMNOPQRSTUVWXYZabcdefghijklmnopqrstuvwxyz".

(** [n] characters for the low bits of [v], six bits each, lowest first. *)
Fixpoint to64 (n : nat) (v : Z) : list ascii :=
  match n with
  | O => []
  | S n' =>
      nth (Z.to_nat (Z.land v 63)) crypt_alphabet "."%char
        :: to64 n' (Z.shiftr v 6)
  end.

(** One character of [pw] or a zero byte for each bit of its length. *)
Fixpoint length_bits (fuel : nat) (i : Z) (pw : list Z) : list Z :=
  match fuel with
  | O => []
  | S fuel' =>
      if i =? 0 then []
      else (if Z.odd i then 0 else nth 0 pw 0)
           :: length_bits fuel' (Z.shiftr i 1) pw
  end.

(** As many bytes of the digest [alt], repeated, as [pw] has. *)
Fixpoint stretch (fuel : nat) (n : nat) (alt : list Z) : list Z :=
  match fuel with
  | O => []
  | S fuel' =>
      if (n =? 0)%nat then []
      else firstn (Nat.min 16 n) alt ++ stretch fuel' (n - 16) alt
  end.

Definition crypt_round (pw salt : list Z) (final : list Z) (i : nat)
  : list Z :=
  md5 ((if Nat.odd i then pw else final)
       ++ (if (i mod 3 =? 0)%nat then [] else salt)
       ++ (if (i mod 7 =? 0)%nat then [] else pw)
       ++ (if Nat.odd i then final else pw)).

(** The 22 characters that encode the final digest. *)
Definition crypt_encode (final : list Z) : list ascii :=
  let at_ (i : nat) : Z := nth i final 0 in
  let triple (a b c : nat) : list ascii :=
    to64 4 (at_ a * 65536 + at_ b * 256 + at_ c) in
  (triple 0 6 12 ++ triple 1 7 13 ++ triple 2 8 14 ++ triple 3 9 15
     ++ triple 4 10 5 ++ to64 2 (at_ 11%nat))%nat.

Definition md5_crypt_raw (pw salt : list Z) : list ascii :=
  let magic := [36; 49; 36] in                        (* "$1$" *)
  let alt := md5 (pw ++ salt ++ pw) in
  let n := length pw in
  let first :=
    md5 (pw ++ magic ++ salt ++ stretch (S n) n alt
         ++ length_bits (S n) (Z.of_nat n) pw) in
  crypt_encode (fold_left (crypt_round pw salt) (seq 0 1000) first).

(** ** The library *)

Definition crypt_salt_ok (salt : string) : bool :=
  forallb (fun c => existsb (Ascii.eqb c) crypt_alphabet)
    (list_ascii_of_string salt).

(** [passlib]'s md5-crypt and [hashlib]'s digests.  [passlib] checks the
    salt when it is given (characters of the alphabet, at most 8), then
    the length of the password (at most 4096 characters), encodes the
    password and refuses a zero byte; each refusal is a [ValueError] or one
    of its subclasses, with the text of passlib 1.7. *)
#[export] Instance library : HashLib := {|
  md5_crypt := fun password salt =>
    if negb (crypt_salt_ok salt)
    then Py.raise Py.ValueError "invalid characters in md5_crypt salt"
    else if (8 <? String.length salt)%nat
    then Py.raise Py.ValueError
           "salt too large (md5_crypt requires <= 8 chars)"
    else if (4096 <? length (Py.code_points password))%nat
    then Py.raise Py.ValueError "password exceeds maximum allowed size"
    else
      let* pwd := WebshareAPI.encode_utf8 password in
      if Py.has_char (ascii_of_N 0) password
      then Py.raise Py.ValueError
             "md5_crypt does not allow NULL bytes in password"
      else
        Py.ret
          ("$1$" +:+ salt +:+ "$" +:+
           string_of_list_ascii
             (md5_crypt_raw (values pwd)
                (map (fun c => Z.of_N (Py.code c))
                   (list_ascii_of_string salt))));
  sha1_hexdigest := fun bs => hexdigest (sha1 (values bs));
  md5_hexdigest := fun bs => hexdigest (md5 (values bs))
|}.

End Hashes.

(* ===================================================================== *)
(** * app.py: the download routes and the background worker *)
(* ===================================================================== *)

Module App.
Import Py.

(** The values of a job's ['status']. *)
Inductive status :=
  | Downloading     (* 'downloading' *)
  | Completed       (* 'completed' *)
  | Error.          (* 'error' *)

(** An entry of [active_downloads].  A key the dict does not hold is
    [None]. *)
Record job := Job {
  j_status : status;
  j_fileName : option string;
  j_progress : Z;
  j_message : string;
  j_startTime : option Z;
  j_totalSize : option Z;
  j_downloadedSize : option Z;
  j_filePath : option string;
  j_finalSize : option Z;
  j_error : option string
}.

(** The dict of lines 101-107. *)
Definition new_job (file_name : option string) (time : Z) : job :=
  {| j_status := Downloading; j_fileName := file_name; j_progress := 0;
     j_message := "Starting download..."; j_startTime := Some time;
     j_totalSize := None; j_downloadedSize := None; j_filePath := None;
     j_finalSize := None; j_error := None |}.

(** The dict of lines 179-185. *)
Definition error_job (file_name : option string) (err : string) : job :=
  {| j_status := Error; j_fileName := file_name; j_progress := 0;
     j_message := "Download failed: " +:+ err; j_startTime := None;
     j_totalSize := None; j_downloadedSize := None; j_filePath := None;
     j_finalSize := None; j_error := Some err |}.

(** One assignment [active_downloads[file_id][key] = value]. *)
Inductive item :=
  | Status (s : status)
  | Progress (p : Z)
  | Message (m : string)
  | TotalSize (n : Z)
  | DownloadedSize (n : Z)
  | FilePath (p : string)
  | FinalSize (n : Z).

Definition set_item (i : item) (j : job) : job :=
  match i with
  | Status s =>
      Job s (j_fileName j) (j_progress j) (j_message j) (j_startTime j)
        (j_totalSize j) (j_downloadedSize j) (j_filePath j) (j_finalSize j)
        (j_error j)
  | Progress p =>
      Job (j_status j) (j_fileName j) p (j_message j) (j_startTime j)
        (j_totalSize j) (j_downloadedSize j) (j_filePath j) (j_finalSize j)
        (j_error j)
  | Message m =>
      Job (j_status j) (j_fileName j) (j_progress j) m (j_startTime j)
        (j_totalSize j) (j_downloadedSize j) (j_filePath j) (j_finalSize j)
        (j_error j)
  | TotalSize n =>
      Job (j_status j) (j_fileName j) (j_progress j) (j_message j)
        (j_startTime j) (Some n) (j_downloadedSize j) (j_filePath j)
        (j_finalSize j) (j_error j)
  | DownloadedSize n =>
      Job (j_status j) (j_fileName j) (j_progress j) (j_message j)
        (j_startTime j) (j_totalSize j) (Some n) (j_filePath j)
        (j_finalSize j) (j_error j)
  | FilePath p =>
      Job (j_status j) (j_fileName j) (j_progress j) (j_message j)
        (j_startTime j) (j_totalSize j) (j_downloadedSize j) (Some p)
        (j_finalSize j) (j_error j)
  | FinalSize n =>
      Job (j_status j) (j_fileName j) (j_progress j) (j_message j)
        (j_startTime j) (j_totalSize j) (j_downloadedSize j) (j_filePath j)
        (Some n) (j_error j)
  end.

(** The statements of [download_file_background] that touch shared state,
    in the order a run of the worker executes them. *)
Inductive action :=
  | Register (file_name : option string)
      (* lines 101-107: active_downloads[file_id] = {...} *)
  | SetItem (i : item)
      (* active_downloads[file_id][key] = value *)
  | StartCleanup
      (* line 175: threading.Thread(target=cleanup, daemon=True).start() *)
  | Fail (file_name : option string) (err : string).
      (* lines 179-185, the handler: active_downloads[file_id] = {...} *)

(** Where a worker waits. *)
Inductive pc :=
  | AtStart
      (* started, line 99 not yet reached *)
  | AtResolve
      (* line 110: about to call initiate_download *)
  | AtConnect (download_url : option string) (expected_size : Z)
      (file_path : string)
      (* line 130: in session.get *)
  | AtStream (total_size downloaded_size : Z) (file_path : string)
      (* line 141: waiting for the next chunk *)
  | Finished.

(** The locals of a worker. *)
Record worker := Worker {
  file_id : string;
  file_name : option string;
  download_path : string;
  at_pc : pc
}.

(** The answer to [session.get(download_url, stream=True)]. *)
Record stream_response := StreamResponse {
  get_http_error : option string;
  content_length : option string      (* the Content-Length header *)
}.

Inductive get_outcome :=
  | GetFailed (err : string)
  | GetResponded (r : stream_response).

(** What the environment hands to a waiting thread. *)
Inductive event :=
  | Scheduled
      (* the thread gets to run *)
  | Resolved (post : Http.outcome) (makedirs_error : option string)
      (* the answer to the POST of initiate_download; whether os.makedirs
         raises *)
  | Connected (get : get_outcome) (open_error : option string)
      (* the answer to session.get; whether open(file_path, 'wb') raises *)
  | Chunk (chunk : list Byte.byte) (write_error : option string)
      (* iter_content yields a chunk; whether f.write raises *)
  | StreamError (err : string)
      (* iter_content raises *)
  | StreamEnd
      (* iter_content is exhausted *)
  | Woken.
      (* time.sleep returns *)

(** [os.path.join(a, b)] *)
Definition path_join (a b : string) : string :=
  match b with
  | String "/" _ => b
  | _ =>
      match rev (list_ascii_of_string a) with
      | [] => b
      | c :: _ => if Ascii.eqb c "/" then a +:+ b else a +:+ "/" +:+ b
      end
  end.

(** Line 148: [min(90, 10 + int((downloaded_size / total_size) * 80))] *)
Definition progress_percent (downloaded_size total_size : Z) : result Z :=
  let* ratio := Float64.truediv downloaded_size total_size in
  let* n := Float64.to_int (Float64.mul ratio 80) in
  ret (Z.min 90 (10 + n)).

(** The integer part of eighty times a ratio, as the float expression of
    line 148 computes it when nothing overflows. *)
Definition eightieths (ratio : Q) : Z :=
  Qfloor (Float64.round (Float64.round ratio * 80)).

(** Whether the float expression gives [k] at both ends of the interval of
    ratios [d / t] with [floor (80 * d / t) = k], for every [k] below 80
    and every total size up to [bound], and 80 at ratio 1. *)
Definition eightieths_table (bound : positive) : bool :=
  forallb
    (fun k =>
       (eightieths (k # 80) =? k)
       && (eightieths (((k + 1) * Z.pos bound - 1) # (80 * bound)) =? k))
    (map Z.of_nat (seq 0 80))
  && (eightieths 1 =? 80).

Section Worker.
Context {H : HashLib}.

(** Lines 110-125. *)
Definition resolve (client : WebshareAPI.t) (w : worker)
    (post : Http.outcome) (makedirs_error : option string)
  : list action * worker :=
  match WebshareAPI.initiate_download client (file_id w) post with
  | inl e => ([Fail (file_name w) (exc_str e)],
              Worker (file_id w) (file_name w) (download_path w) Finished)
  | inr download_info =>
      let download_url := WebshareAPI.downloadUrl download_info in
      let expected_size := WebshareAPI.fileSize download_info in
      let file_name' :=
        if truthy (file_name w) then file_name w
        else WebshareAPI.fileName download_info in
      let stop err :=
        ([Fail file_name' err],
         Worker (file_id w) file_name' (download_path w) Finished) in
      match makedirs_error with
      | Some err => stop err
      | None =>
          match file_name' with
          | None =>
              (* os.path.join raises TypeError; its text varies with the
                 version of Python *)
              stop "join() argument must be str, bytes, or os.PathLike object, not 'NoneType'"
          | Some name =>
              let file_path := path_join (download_path w) name in
              ([SetItem (Message "Connecting to server...");
                SetItem (Progress 5)],
               Worker (file_id w) file_name' (download_path w)
                 (AtConnect download_url expected_size file_path))
          end
      end
  end.

(** Lines 130-140. *)
Definition connect (w : worker) (expected_size : Z) (file_path : string)
    (get : get_outcome) (open_error : option string)
  : list action * worker :=
  let stop (done : list action) err :=
    (done ++ [Fail (file_name w) err],
     Worker (file_id w) (file_name w) (download_path w) Finished) in
  match get with
  | GetFailed err => stop [] err
  | GetResponded response =>
      match get_http_error response with
      | Some err => stop [] err
      | None =>
          let total :=
            match content_length response with
            | Some text => Py.int text
            | None => ret expected_size
            end in
          match total with
          | inl e => stop [] (exc_str e)
          | inr total_size =>
              let writes :=
                [SetItem (Message "Downloading... 0%");
                 SetItem (Progress 10);
                 SetItem (TotalSize total_size)] in
              match open_error with
              | Some err => stop writes err
              | None =>
                  (writes,
                   Worker (file_id w) (file_name w) (download_path w)
                     (AtStream total_size 0 file_path))
              end
          end
      end
  end.

(** Lines 142-151: the body of the loop for one chunk. *)
Definition on_chunk (w : worker) (total_size downloaded_size : Z)
    (file_path : string) (chunk : list Byte.byte)
    (write_error : option string) : list action * worker :=
  let stop err :=
    ([Fail (file_name w) err],
     Worker (file_id w) (file_name w) (download_path w) Finished) in
  match chunk with
  | [] => ([], w)
  | _ =>
      match write_error with
      | Some err => stop err
      | None =>
          let downloaded_size' := downloaded_size + Z.of_nat (length chunk) in
          let w' :=
            Worker (file_id w) (file_name w) (download_path w)
              (AtStream total_size downloaded_size' file_path) in
          if 0 <? total_size then
            match progress_percent downloaded_size' total_size with
            | inl e => stop (exc_str e)
            | inr progress =>
                ([SetItem (Progress progress);
                  SetItem (Message
                    ("Downloading... " +:+ str_of_int (progress - 10) +:+ "%"));
                  SetItem (DownloadedSize downloaded_size')],
                 w')
            end
          else ([], w')
      end
  end.

(** Lines 153-175.  A failure of [os.chmod] is caught and logged.  The log
    line 167 formats the size, which can raise. *)
Definition finish (w : worker) (downloaded_size : Z) (file_path : string)
  : list action * worker :=
  let writes :=
    [SetItem (Status Completed);
     SetItem (Progress 100);
     SetItem (Message "Download completed!");
     SetItem (FilePath file_path);
     SetItem (FinalSize downloaded_size)] in
  let w' := Worker (file_id w) (file_name w) (download_path w) Finished in
  match WebshareAPI._format_file_size downloaded_size with
  | inl e => (writes ++ [Fail (file_name w) (exc_str e)], w')
  | inr _ => (writes ++ [StartCleanup], w')
  end.

(** What a waiting worker does on an event, up to the point where it waits
    again: the statements on shared state, in order, and its new locals.
    [None] when the worker does not wait for that event. *)
Definition run_segment (client : WebshareAPI.t) (w : worker) (ev : event)
  : option (list action * worker) :=
  match at_pc w, ev with
  | AtStart, Scheduled =>
      Some ([Register (file_name w)],
            Worker (file_id w) (file_name w) (download_path w) AtResolve)
  | AtResolve, Resolved post makedirs_error =>
      Some (resolve client w post makedirs_error)
  | AtConnect _ expected_size file_path, Connected get open_error =>
      Some (connect w expected_size file_path get open_error)
  | AtStream total_size downloaded_size file_path, Chunk chunk write_error =>
      Some (on_chunk w total_size downloaded_size file_path chunk write_error)
  | AtStream _ _ _, StreamError err =>
      Some ([Fail (file_name w) err],
            Worker (file_id w) (file_name w) (download_path w) Finished)
  | AtStream _ downloaded_size file_path, StreamEnd =>
      Some (finish w downloaded_size file_path)
  | _, _ => None
  end.

(** The statements a worker executes along a sequence of events, when no
    statement raises [KeyError]; events it does not wait for are skipped. *)
Fixpoint run_worker (client : WebshareAPI.t) (w : worker) (evs : list event)
  : list action :=
  match evs with
  | [] => []
  | ev :: rest =>
      match run_segment client w ev with
      | Some (acts, w') => acts ++ run_worker client w' rest
      | None => run_worker client w rest
      end
  end.

End Worker.

(** The values a sequence of statements writes to ['progress']. *)
Definition progress_written (a : action) : list Z :=
  match a with
  | Register _ => [j_progress (new_job None 0)]
  | SetItem (Progress p) => [p]
  | Fail _ _ => [j_progress (error_job None EmptyString)]
  | _ => []
  end.

Definition progress_writes (acts : list action) : list Z :=
  flat_map progress_written acts.

Definition is_fail (a : action) : bool :=
  match a with
  | Fail _ _ => true
  | _ => false
  end.

Definition is_completed (a : action) : bool :=
  match a with
  | SetItem (Status Completed) => true
  | _ => false
  end.

(** The statements before the first that satisfies [stop]. *)
Fixpoint before (stop : action -> bool) (acts : list action) : list action :=
  match acts with
  | [] => []
  | a :: rest => if stop a then [] else a :: before stop rest
  end.

(** Statements that leave ['progress'] and ['status'] alone, up to a
    closing handler. *)
Fixpoint quiet (acts : list action) : Prop :=
  match acts with
  | [] => True
  | SetItem (Message _) :: rest
  | SetItem (FilePath _) :: rest
  | SetItem (FinalSize _) :: rest
  | StartCleanup :: rest => quiet rest
  | Fail _ _ :: rest => rest = []
  | _ => False
  end.

(** Statements whose writes to ['progress'] climb from [last] and stay at
    or below 90 until ['status'] becomes completed, where 100 follows at
    once; the handler, if it runs, runs last. *)
Fixpoint steady (last : Z) (acts : list action) : Prop :=
  match acts with
  | [] => True
  | Register _ :: rest => last <= 0 /\ steady 0 rest
  | SetItem (Progress p) :: rest => last <= p <= 90 /\ steady p rest
  | SetItem (Status Completed) :: rest =>
      exists rest', rest = SetItem (Progress 100) :: rest' /\ quiet rest'
  | SetItem (Status _) :: rest => False
  | SetItem _ :: rest => steady last rest
  | StartCleanup :: rest => steady last rest
  | Fail _ _ :: rest => rest = []
  end.

(** What is known of the last value written to ['progress'] where a worker
    waits. *)
Definition last_written (p : pc) (last : Z) : Prop :=
  match p with
  | AtStart => last = 0
  | AtResolve => last = 0
  | AtConnect _ _ _ => last = 5
  | AtStream total_size downloaded_size _ =>
      0 <= downloaded_size /\ 10 <= last <= 90
      /\ (0 < total_size ->
          forall d p', downloaded_size <= d ->
            progress_percent d total_size = inr p' -> last <= p')
  | Finished => True
  end.

(** The [cleanup] closure of lines 170-173. *)
Inductive cleanup_pc :=
  | CleanupStart               (* started, time.sleep(30) not yet called *)
  | Sleeping (wake : Z)        (* in time.sleep(30) until the clock shows wake *)
  | CleanupDone.

Inductive thread :=
  | WorkerThread (w : worker) (pending : list action)
      (* a worker and the statements it executes before it waits again *)
  | CleanupThread (file_id : string) (c : cleanup_pc).

(** The process: the module-level [webshare_client] and
    [active_downloads], the threads, the clock (in seconds), and a log of
    the file ids [initiate_download] was called with. *)
Record world := World {
  client : WebshareAPI.t;
  active_downloads : gmap string job;
  threads : list thread;
  now : Z;
  DOWNLOAD_PATH : string;
  resolve_calls : list string
}.

Definition initial (path : string) : world :=
  {| client := WebshareAPI.init; active_downloads := ∅; threads := [];
     now := 0; DOWNLOAD_PATH := path; resolve_calls := [] |}.

Definition with_client (c : WebshareAPI.t) (s : world) : world :=
  World c (active_downloads s) (threads s) (now s) (DOWNLOAD_PATH s)
    (resolve_calls s).
Definition with_jobs (m : gmap string job) (s : world) : world :=
  World (client s) m (threads s) (now s) (DOWNLOAD_PATH s) (resolve_calls s).
Definition with_threads (ts : list thread) (s : world) : world :=
  World (client s) (active_downloads s) ts (now s) (DOWNLOAD_PATH s)
    (resolve_calls s).
Definition with_now (t : Z) (s : world) : world :=
  World (client s) (active_downloads s) (threads s) t (DOWNLOAD_PATH s)
    (resolve_calls s).
Definition with_calls (l : list string) (s : world) : world :=
  World (client s) (active_downloads s) (threads s) (now s) (DOWNLOAD_PATH s)
    l.

(** The JSON answers of the two routes. *)
Inductive reply :=
  | BadRequest
      (* 400, 'File ID is required' *)
  | AlreadyInProgress (message : string) (s : status) (progress : Z)
      (* 200, lines 200-205 *)
  | Started (message : string) (file_id : string)
      (* 200, lines 215-219 *)
  | Found (j : job)
      (* 200, lines 230-233 *)
  | NotFound
      (* 404, 'Download not found or completed' *)
  | Silent.
      (* the step is not a request *)

(** The route [/api/download] (lines 188-219). *)
Definition download (s : world) (fid fname : option string)
  : world * reply :=
  match fid with
  | None => (s, BadRequest)
  | Some file_id =>
      if negb (truthy fid) then (s, BadRequest)
      else
        match active_downloads s !! file_id with
        | Some j =>
            (s, AlreadyInProgress
                  ("Download already in progress: " +:+ fmt fname)
                  (j_status j) (j_progress j))
        | None =>
            (with_threads
               (threads s ++
                  [WorkerThread
                     (Worker file_id fname (DOWNLOAD_PATH s) AtStart) []]) s,
             Started ("Download started: " +:+ fmt fname) file_id)
        end
  end.

(** The route [/api/download/progress/<file_id>] (lines 226-238). *)
Definition download_progress (s : world) (file_id : string) : reply :=
  match active_downloads s !! file_id with
  | Some j => Found j
  | None => NotFound
  end.

(** One statement of a worker on shared state.  [SetItem] raises
    [KeyError] when the entry is gone; the handler then runs next. *)
Definition execute (s : world) (tid : nat) (w : worker) (a : action)
    (rest : list action) : world :=
  match a with
  | Register file_name =>
      with_threads (<[tid := WorkerThread w rest]> (threads s))
        (with_jobs
           (<[file_id w := new_job file_name (now s)]> (active_downloads s)) s)
  | SetItem i =>
      match active_downloads s !! file_id w with
      | Some j =>
          with_threads (<[tid := WorkerThread w rest]> (threads s))
            (with_jobs (<[file_id w := set_item i j]> (active_downloads s)) s)
      | None =>
          with_threads
            (<[tid := WorkerThread
                        (Worker (file_id w) (file_name w) (download_path w)
                           Finished)
                        [Fail (file_name w) (repr (file_id w))]]>
               (threads s)) s
      end
  | StartCleanup =>
      with_threads
        (<[tid := WorkerThread w rest]> (threads s)
           ++ [CleanupThread (file_id w) CleanupStart]) s
  | Fail file_name err =>
      with_threads (<[tid := WorkerThread w []]> (threads s))
        (with_jobs
           (<[file_id w := error_job file_name err]> (active_downloads s)) s)
  end.

(** What can happen next. *)
Inductive label :=
  | Download (file_id file_name : option string)
      (* a request to /api/download *)
  | Poll (file_id : string)
      (* a request to /api/download/progress/<file_id> *)
  | Login (rnd username password : string)
      (salt_post login_post : Http.outcome)
      (* a call of webshare_client.login *)
  | Run (tid : nat) (ev : event)
      (* a waiting thread receives an event *)
  | Exec (tid : nat)
      (* a worker executes its next statement on shared state *)
  | Tick.
      (* a second passes *)

Section Step.
Context {H : HashLib}.

Definition step (s : world) (l : label) : option (world * reply) :=
  match l with
  | Download fid fname => Some (download s fid fname)
  | Poll fid => Some (s, download_progress s fid)
  | Login rnd username password salt_post login_post =>
      Some (with_client
              (snd (WebshareAPI.login (client s) rnd username password
                      salt_post login_post)) s,
            Silent)
  | Run tid ev =>
      match threads s !! tid with
      | Some (WorkerThread w []) =>
          match run_segment (client s) w ev with
          | Some (acts, w') =>
              let s' :=
                with_threads (<[tid := WorkerThread w' acts]> (threads s)) s in
              Some (match at_pc w with
                    | AtResolve =>
                        with_calls (file_id w :: resolve_calls s) s'
                    | _ => s'
                    end,
                    Silent)
          | None => None
          end
      | Some (CleanupThread fid CleanupStart) =>
          match ev with
          | Scheduled =>
              Some (with_threads
                      (<[tid := CleanupThread fid (Sleeping (now s + 30))]>
                         (threads s)) s,
                    Silent)
          | _ => None
          end
      | Some (CleanupThread fid (Sleeping wake)) =>
          match ev with
          | Woken =>
              if wake <=? now s then
                Some (with_threads
                        (<[tid := CleanupThread fid CleanupDone]> (threads s))
                        (with_jobs (delete fid (active_downloads s)) s),
                      Silent)
              else None
          | _ => None
          end
      | _ => None
      end
  | Exec tid =>
      match threads s !! tid with
      | Some (WorkerThread w (a :: rest)) => Some (execute s tid w a rest, Silent)
      | _ => None
      end
  | Tick => Some (with_now (now s + 1) s, Silent)
  end.

(** A run: the world after a sequence of steps and the replies, or [None]
    if some step cannot happen. *)
Fixpoint run (s : world) (ls : list label) : option (world * list reply) :=
  match ls with
  | [] => Some (s, [])
  | l :: rest =>
      match step s l with
      | Some (s', r) =>
          match run s' rest with
          | Some (s'', rs) => Some (s'', r :: rs)
          | None => None
          end
      | None => None
      end
  end.

End Step.
End App.

(* ===================================================================== *)
(** * Sequences of calls on one client *)
(* ===================================================================== *)

Module Session.
Import Py.

(** A call of one of the three methods that use the session, with what the
    environment answers to it. *)
Inductive call :=
  | Login (rnd username password : string)
      (salt_post login_post : Http.outcome)
  | Search (query : string) (post : Http.outcome)
  | InitiateDownload (file_id : string) (post : Http.outcome).

Section Calls.
Context {H : HashLib}.

(** The object after a call.  Only [login] assigns to it. *)
Definition after_call (self : WebshareAPI.t) (c : call) : WebshareAPI.t :=
  match c with
  | Login rnd username password salt_post login_post =>
      snd (WebshareAPI.login self rnd username password salt_post login_post)
  | Search _ _ => self
  | InitiateDownload _ _ => self
  end.

(** The object after a sequence of calls on a fresh client. *)
Definition after (calls : list call) : WebshareAPI.t :=
  fold_left after_call calls WebshareAPI.init.

(** Whether a call returns rather than raises. *)
Definition returns (self : WebshareAPI.t) (c : call) : bool :=
  match c with
  | Login rnd username password salt_post login_post =>
      match fst (WebshareAPI.login self rnd username password salt_post
                   login_post) with
      | inr _ => true
      | inl _ => false
      end
  | Search query post =>
      match WebshareAPI.search self query post with
      | inr _ => true
      | inl _ => false
      end
  | InitiateDownload file_id post =>
      match WebshareAPI.initiate_download self file_id post with
      | inr _ => true
      | inl _ => false
      end
  end.

Definition is_login (c : call) : bool :=
  match c with
  | Login _ _ _ _ _ => true
  | _ => false
  end.


End Calls.

(** What [search] and [initiate_download] raise when the guard fails. *)
Definition search_not_logged_in : exn :=
  Raise Exception "Search failed: Not logged in. Please login first.".
Definition download_not_logged_in : exn :=
  Raise Exception "Download failed: Not logged in. Please login first.".


End Session.

(* ===================================================================== *)
(** * The formulas of the specification *)
(* ===================================================================== *)

(** These definitions follow the words of the specification, not the code;
    the theorems compare the code with them. *)
Module Spec.

Definition is_digit (c : ascii) : bool :=
  (Ascii.leb "0" c && Ascii.leb c "9")%bool.

(** "composed entirely of digits" *)
Definition all_digits (s : string) : bool :=
  match list_ascii_of_string s with
  | [] => false
  | l => forallb is_digit l
  end.

(** "the integer value" of a string of digits *)
Definition integer_value (s : string) : Z :=
  fold_left (fun acc c => 10 * acc + (Z.of_nat (nat_of_ascii c) - 48))
    (list_ascii_of_string s) 0.

(** "fileSizeBytes parses only if the raw field is composed entirely of
    digits; otherwise defaults to 0" *)
Definition fileSizeBytes (size_field : option Xml.element) : Z :=
  match size_field with
  | Some e =>
      match Xml.text e with
      | Some s => if all_digits s then integer_value s else 0
      | None => 0
      end
  | None => 0
  end.

(** The same when "digits" are the decimal digits of any script, each read
    by its value, and the conversion is the one of Python, which takes at
    most 4300 digits. *)
Definition decimal_value (text : list N) : option Z :=
  match text with
  | [] => None
  | _ =>
      fold_left
        (fun acc c =>
           match acc, Py.decimal c with
           | Some n, Some v => Some (10 * n + v)
           | _, _ => None
           end)
        text (Some 0)
  end.

Definition size_read (size_field : option Xml.element) : Z :=
  match size_field with
  | Some e =>
      match Xml.text e with
      | Some s =>
          let text := Py.code_points s in
          match decimal_value text with
          | Some n => if (length text <=? 4300)%nat then n else 0
          | None => 0
          end
      | None => 0
      end
  | None => 0
  end.

(** UTF-8 (RFC 3629, section 3): the bytes of a character number, by the
    four rows of the table: [0xxxxxxx], [110xxxxx 10xxxxxx],
    [1110xxxx 10xxxxxx 10xxxxxx], [11110xxx 10xxxxxx 10xxxxxx 10xxxxxx]. *)
Definition utf8_char (c : N) : list N :=
  let low (n : N) : N := N.lor 0x80 (N.land n 0x3F) in
  (if c <=? 0x7F then [c]
   else if c <=? 0x7FF then [N.lor 0xC0 (N.shiftr c 6); low c]
   else if c <=? 0xFFFF then
     [N.lor 0xE0 (N.shiftr c 12); low (N.shiftr c 6); low c]
   else
     [N.lor 0xF0 (N.shiftr c 18); low (N.shiftr c 12); low (N.shiftr c 6);
      low c])%N.

Definition byte (n : N) : Byte.byte :=
  match Byte.of_N n with
  | Some b => b
  | None => Byte.x00
  end.

(** "the UTF-8 bytes of the string" *)
Definition utf8 (text : list N) : list Byte.byte :=
  map byte (flat_map utf8_char text).


(** "progressPercent = min(90, 10 + floor(80 * downloadedBytes /
    totalBytes))" *)
Definition progressPercent (downloadedBytes totalBytes : Z) : Z :=
  Z.min 90 (10 + (80 * downloadedBytes) / totalBytes).

End Spec.

(* ===================================================================== *)
(** * The rounding against the Standard Library's binary64 *)
(* ===================================================================== *)

(** [SpecFloat] of the Standard Library specifies IEEE 754 arithmetic on
    significands and exponents.  [agree a b] tells whether its division and
    multiplication give, for [a / b] and for the quotient times 80, the
    numbers that [Float64.round] gives. *)
Module Float64Check.

Definition value (f : SpecFloat.spec_float) : option Q :=
  match f with
  | SpecFloat.S754_zero _ => Some 0%Q
  | SpecFloat.S754_finite s m e =>
      Some ((if s then -1 else 1) * inject_Z (Z.pos m) * Float64.pow2 e)%Q
  | _ => None
  end.

Definition of_int (n : Z) : SpecFloat.spec_float :=
  match n with
  | Z0 => SpecFloat.S754_zero false
  | Zpos p => SpecFloat.S754_finite false p 0
  | Zneg p => SpecFloat.S754_finite true p 0
  end.

Definition agree (a b : Z) : bool :=
  let q := SpecFloat.SFdiv 53 1024 (of_int a) (of_int b) in
  let p := SpecFloat.SFmul 53 1024 q (of_int 80) in
  match value q, value p with
  | Some x, Some y =>
      Qeq_bool x (Float64.round (inject_Z a / inject_Z b))
      && Qeq_bool y
           (Float64.round (Float64.round (inject_Z a / inject_Z b) * 80))
  | _, _ => false
  end.

(** All quotients of ints below 25, and some with large and with tiny
    results. *)
Definition grid : list (Z * Z) :=
  flat_map
    (fun a => map (fun b => (Z.of_nat a, Z.of_nat (S b))) (seq 0 25))
    (seq 0 25)
  ++ [(2 ^ 55 - 1, 2 ^ 55); (2 ^ 54 - 1, 2 ^ 54);
      (12345678901234567890, 3); (1, 10 ^ 30); (1, 2 ^ 1070);
      (3, 2 ^ 1074); (1, 2 ^ 1075); (10 ^ 300, 7);
      (2 ^ 63 - 1, 2 ^ 64 - 1); (987654321987654321, 123456789123456789)].

End Float64Check.

(* ===================================================================== *)
(** * Sample inputs *)
(* ===================================================================== *)

(** Answers of the server, and processes, on which the model is run. *)
Module Sample.
Export Hashes.

(** Some documents the server can answer with. *)
Definition salt_ok : Http.outcome :=
  Http.Responded (Http.Response None (Xml.Document
    (Xml.Element "response" None
       [Xml.Element "status" (Some "OK") [];
        Xml.Element "salt" (Some "abcdefgh") []]))).

Definition login_ok (token : option string) : Http.outcome :=
  Http.Responded (Http.Response None (Xml.Document
    (Xml.Element "response" None
       [Xml.Element "status" (Some "OK") [];
        Xml.Element "token" token []]))).

Definition file_link_root (size : option string) : Xml.element :=
  Xml.Element "response" None
    [Xml.Element "status" (Some "OK") [];
     Xml.Element "link" (Some "https://dl.example/f") [];
     Xml.Element "size" size []].

Definition file_link_ok (size : option string) : Http.outcome :=
  Http.Responded (Http.Response None (Xml.Document (file_link_root size))).

(** A size of 4301 digits, one more than [int()] converts. *)
Definition long_size : string :=
  string_of_list_ascii (repeat "1"%char 4301).

(** A process whose client has logged in, with no download yet. *)
Definition logged_in_world : App.world :=
  App.with_client (WebshareAPI.Build true (Some "tok"))
    (App.initial "/downloads").

(** A worker [tid] from its start to the point where it waits for the
    first chunk of a file of unknown size. *)
Definition open_stream (tid : nat) : list App.label :=
  [App.Run tid App.Scheduled; App.Exec tid;
   App.Run tid (App.Resolved (file_link_ok (Some "0")) None);
   App.Exec tid; App.Exec tid;
   App.Run tid
     (App.Connected (App.GetResponded (App.StreamResponse None None)) None);
   App.Exec tid; App.Exec tid; App.Exec tid].

(** The stream of worker [tid] ends: the job becomes completed and the
    cleanup thread is started. *)
Definition end_stream (tid : nat) : list App.label :=
  [App.Run tid App.StreamEnd;
   App.Exec tid; App.Exec tid; App.Exec tid; App.Exec tid; App.Exec tid;
   App.Exec tid].

(** A download of an empty file by thread [tid], from its start to the
    start of the cleanup thread. *)
Definition whole_download (tid : nat) : list App.label :=
  open_stream tid ++ end_stream tid.

(** The entry of "f1" once [whole_download] has run at time 0. *)
Definition completed_job : App.job :=
  {| App.j_status := App.Completed; App.j_fileName := Some "a.iso";
     App.j_progress := 100; App.j_message := "Download completed!";
     App.j_startTime := Some 0; App.j_totalSize := Some 0;
     App.j_downloadedSize := None;
     App.j_filePath := Some "/downloads/a.iso";
     App.j_finalSize := Some 0; App.j_error := None |}.

(** The process after one download of "f1" that completed at time 0, the
    cleanup thread asleep since then. *)
Definition completed_world : App.world :=
  {| App.client := WebshareAPI.Build true (Some "tok");
     App.active_downloads := {[ "f1" := completed_job ]};
     App.threads :=
       [App.WorkerThread
          (App.Worker "f1" (Some "a.iso") "/downloads" App.Finished) [];
        App.CleanupThread "f1" (App.Sleeping 30)];
     App.now := 0; App.DOWNLOAD_PATH := "/downloads";
     App.resolve_calls := ["f1"] |}.

(** Two requests for "f1" at once, each of which starts a worker.  The
    stream of the first ends and its cleanup thread goes to sleep; the
    stream of the second breaks, which a query then reports; thirty
    seconds later the cleanup thread wakes, and a query follows. *)
Definition stale_cleanup : list App.label :=
  [App.Download (Some "f1") (Some "a.iso");
   App.Download (Some "f1") (Some "a.iso")]
  ++ open_stream 0 ++ open_stream 1
  ++ end_stream 0
  ++ [App.Run 2 App.Scheduled;
      App.Run 1 (App.StreamError "connection reset"); App.Exec 1;
      App.Poll "f1"]
  ++ repeat App.Tick 30
  ++ [App.Run 2 App.Woken; App.Poll "f1"].

(** A process in which one worker streams the file "f1". *)
Definition streaming_world (total_size downloaded_size : Z) : App.world :=
  {| App.client := WebshareAPI.Build true (Some "tok");
     App.active_downloads :=
       {[ "f1" := App.set_item (App.Progress 10)
                    (App.new_job (Some "a.iso") 0) ]};
     App.threads :=
       [App.WorkerThread
          (App.Worker "f1" (Some "a.iso") "/downloads"
             (App.AtStream total_size downloaded_size "/downloads/a.iso"))
          []];
     App.now := 1; App.DOWNLOAD_PATH := "/downloads";
     App.resolve_calls := ["f1"] |}.

End Sample.

(* ===================================================================== *)
(** * webshare_api.py: the blocking download *)
(* ===================================================================== *)

(** [WebshareAPI.download_file] (lines 281-331): the download that
    [download_file_background] repeats with progress reports. *)
Module SyncDownload.
Import Py.

(** What [response.iter_content] yields: the chunks, each with the text of
    the error [f.write] raises on it, if it does, and whether the iteration
    breaks off after them. *)
Record stream := Stream {
  chunks : list (list Byte.byte * option string);
  broken : option string
}.

(** A call of the operating system that raises or not. *)
Definition os_call (error : option string) : result unit :=
  match error with
  | Some err => raise OSError err
  | None => ret tt
  end.

(** Lines 309-312: the loop over the chunks that arrive. *)
Fixpoint write_chunks (l : list (list Byte.byte * option string))
    (downloaded_size : Z) : result Z :=
  match l with
  | [] => ret downloaded_size
  | ([], _) :: rest => write_chunks rest downloaded_size
  | (chunk, write_error) :: rest =>
      let* _ := os_call write_error in
      write_chunks rest (downloaded_size + Z.of_nat (length chunk))
  end.

Definition read_stream (body : stream) : result Z :=
  let* downloaded_size := write_chunks (chunks body) 0 in
  match broken body with
  | Some err => raise RequestException err
  | None => ret downloaded_size
  end.

(** The dict that [download_file] returns. *)
Record download_result := DownloadResult {
  d_fileName : string;
  d_filePath : string;
  d_size : Z
}.

(** [download_file].  A failure of [os.chmod] is caught and logged; the log
    line 321 formats the size, which can raise. *)
Definition download_file (self : WebshareAPI.t) (file_id download_path : string)
    (filename : option string) (post : Http.outcome)
    (makedirs_error : option string) (get : App.get_outcome)
    (open_error : option string) (body : stream) : result download_result :=
  reraise "Download failed: "
    (let* download_info := WebshareAPI.initiate_download self file_id post in
     let filename' :=
       if truthy filename then filename
       else WebshareAPI.fileName download_info in
     let* _ := os_call makedirs_error in
     let* name :=
       match filename' with
       | Some name => ret name
       | None =>
           raise TypeError
             "join() argument must be str, bytes, or os.PathLike object, not 'NoneType'"
       end in
     let file_path := App.path_join download_path name in
     let* response :=
       match get with
       | App.GetFailed err => raise RequestException err
       | App.GetResponded r => ret r
       end in
     let* _ :=
       match App.get_http_error response with
       | Some err => raise RequestException err
       | None => ret tt
       end in
     let* total_size :=
       match App.content_length response with
       | Some text => Py.int text
       | None => ret 0
       end in
     let* _ := os_call open_error in
     let* downloaded_size := read_stream body in
     let* _ := WebshareAPI._format_file_size downloaded_size in
     ret {| d_fileName := name; d_filePath := file_path;
            d_size := downloaded_size |}).

(** A chunk and the outcome of writing it, as a background worker meets
    them. *)
Definition chunk_event (c : list Byte.byte * option string) : App.event :=
  App.Chunk (fst c) (snd c).

(** The events a background worker receives when the environment answers
    as it does to one call of [download_file]. *)
Definition events (post : Http.outcome) (makedirs_error : option string)
    (get : App.get_outcome) (open_error : option string) (body : stream)
  : list App.event :=
  [App.Scheduled; App.Resolved post makedirs_error;
   App.Connected get open_error]
  ++ map chunk_event (chunks body)
  ++ [match broken body with
      | Some err => App.StreamError err
      | None => App.StreamEnd
      end].

(** The number of bytes in a list of chunks. *)
Definition total_length (l : list (list Byte.byte * option string)) : Z :=
  fold_right (fun c n => Z.of_nat (length (fst c)) + n) 0 l.

(** The statements with which a worker reports a completed download
    (lines 161-175). *)
Definition completion (file_path : string) (downloaded_size : Z)
  : list App.action :=
  [App.SetItem (App.Status App.Completed);
   App.SetItem (App.Progress 100);
   App.SetItem (App.Message "Download completed!");
   App.SetItem (App.FilePath file_path);
   App.SetItem (App.FinalSize downloaded_size);
   App.StartCleanup].

End SyncDownload.

(* ===================================================================== *)
(** * app.py: start-up and the other routes *)
(* ===================================================================== *)

Module Routes.
Import Py.

(** The module-level names of app.py that the routes below read: the
    client, the credentials from the environment, and what the login at
    start-up left behind. *)
Record app := MkApp {
  webshare_client : WebshareAPI.t;
  WEBSHARE_USERNAME : option string;
  WEBSHARE_PASSWORD : option string;
  login_status : string;
  login_message : string
}.

Definition with_client (c : WebshareAPI.t) (a : app) : app :=
  MkApp c (WEBSHARE_USERNAME a) (WEBSHARE_PASSWORD a) (login_status a)
    (login_message a).

(** [WEBSHARE_USERNAME and WEBSHARE_PASSWORD], and the two strings when it
    holds. *)
Definition credentials (username password : option string)
  : option (string * string) :=
  match username, password with
  | Some u, Some p =>
      if truthy username && truthy password then Some (u, p) else None
  | _, _ => None
  end.

(** One entry of the list that [/api/downloads] returns. *)
Record file_info := FileInfo {
  f_name : string;
  f_size : Z;
  f_sizeFormatted : string;
  f_modified : Q
}.

(** The JSON bodies of the answers. *)
Inductive payload :=
  | Success (message : string)
      (* {'success': True, 'message': message} *)
  | Failure (error : string)
      (* {'success': False, 'error': error} *)
  | Results (results : list WebshareAPI.search_result)
      (* {'success': True, 'results': results} *)
  | StatusReport (logged_in credentials_configured : bool)
      (login_status login_message : string) (username : option string)
      (* the dict of lines 72-78 *)
  | Files (files : list file_info).
      (* {'success': True, 'files': files} *)

(** An answer: the HTTP status code and the body. *)
Definition response : Type := Z * payload.

Section Client.
Context {H : HashLib}.

(** Lines 18-44: what the module body leaves when it has run. *)
Definition startup (username password : option string) (rnd : string)
    (salt_post login_post : Http.outcome) : app :=
  match credentials username password with
  | Some (u, p) =>
      match WebshareAPI.login WebshareAPI.init rnd u p salt_post login_post with
      | (inr _, c) =>
          MkApp c username password "success"
            ("Successfully logged in as " +:+ u)
      | (inl e, c) =>
          MkApp c username password "error" ("Login failed: " +:+ exc_str e)
      end
  | None =>
      MkApp WebshareAPI.init username password "not_configured"
        "Webshare.cz credentials not configured"
  end.

(** The route [/api/login] (lines 52-67). *)
Definition login (a : app) (rnd : string)
    (salt_post login_post : Http.outcome) : app * response :=
  if WebshareAPI.logged_in (webshare_client a)
  then (a, (200, Success "Already logged in"))
  else
    match credentials (WEBSHARE_USERNAME a) (WEBSHARE_PASSWORD a) with
    | Some (u, p) =>
        match WebshareAPI.login (webshare_client a) rnd u p salt_post
                login_post with
        | (inr _, c) => (with_client c a, (200, Success "Logged in successfully"))
        | (inl e, c) => (with_client c a, (400, Failure (exc_str e)))
        end
    | None => (a, (400, Failure "No credentials configured"))
    end.

(** A sequence of requests to [/api/login], each with the answers of the
    server to the two POSTs it may send. *)
Fixpoint logins (a : app)
    (reqs : list (string * Http.outcome * Http.outcome))
  : app * list response :=
  match reqs with
  | [] => (a, [])
  | (rnd, salt_post, login_post) :: rest =>
      let '(a', r) := login a rnd salt_post login_post in
      let '(a'', rs) := logins a' rest in
      (a'', r :: rs)
  end.

End Client.

(** The route [/api/status] (lines 70-78). *)
Definition status (a : app) : response :=
  (200,
   StatusReport (WebshareAPI.logged_in (webshare_client a))
     (truthy (WEBSHARE_USERNAME a) && truthy (WEBSHARE_PASSWORD a))
     (login_status a) (login_message a)
     (if truthy (WEBSHARE_USERNAME a) then WEBSHARE_USERNAME a else None)).

(** The route [/api/search] (lines 81-95), for a request whose body is a
    JSON object; [query] is what [data.get('query')] gives, a string or
    [None]. *)
Definition search (a : app) (query : option string) (post : Http.outcome)
  : response :=
  match query with
  | Some q =>
      if negb (truthy query)
      then (400, Failure "Query parameter is required")
      else
        match WebshareAPI.search (webshare_client a) q post with
        | inr results => (200, Results results)
        | inl e => (500, Failure (exc_str e))
        end
  | None => (400, Failure "Query parameter is required")
  end.

(** What [os.listdir] finds: a name, whether [os.path.isfile] holds of it,
    and what [os.stat] gives for it, the size and the modification time. *)
Record dir_entry := DirEntry {
  e_name : string;
  e_isfile : bool;
  e_stat : result (Z * Q)
}.

(** The download directory: missing, or what [os.listdir] gives. *)
Inductive directory :=
  | Missing
  | Present (listing : result (list dir_entry)).

(** Lines 251-261: the loop over the names. *)
Fixpoint collect (entries : list dir_entry) : result (list file_info) :=
  match entries with
  | [] => ret []
  | e :: rest =>
      if e_isfile e then
        let* stat := e_stat e in
        let* size_formatted := WebshareAPI._format_file_size (fst stat) in
        let* files := collect rest in
        ret ({| f_name := e_name e; f_size := fst stat;
                f_sizeFormatted := size_formatted;
                f_modified := snd stat |} :: files)
      else collect rest
  end.

(** [files.sort(key=lambda x: x['modified'], reverse=True)]: the sort is
    stable, also in reverse. *)
Fixpoint insert_newest (x : file_info) (l : list file_info)
  : list file_info :=
  match l with
  | [] => [x]
  | y :: rest =>
      if Qle_bool (f_modified y) (f_modified x) then x :: y :: rest
      else y :: insert_newest x rest
  end.

Definition sort_newest_first (files : list file_info) : list file_info :=
  fold_right insert_newest [] files.

(** The route [/api/downloads] (lines 245-270). *)
Definition list_downloads (d : directory) : response :=
  match d with
  | Missing => (200, Files [])
  | Present listing =>
      match (let* entries := listing in collect entries) with
      | inr files => (200, Files (sort_newest_first files))
      | inl e => (500, Failure (exc_str e))
      end
  end.

(** [a] is listed before [b]: it is not older. *)
Definition not_older (a b : file_info) : Prop :=
  (f_modified b <= f_modified a)%Q.

(** The files of a listing that were last modified at [time]. *)
Definition modified_at (time : Q) (files : list file_info)
  : list file_info :=
  List.filter (fun f => Qeq_bool (f_modified f) time) files.

End Routes.

(* ===================================================================== *)
(** * Runs of workers and of the process *)
(* ===================================================================== *)

Module Runs.
Import Py App.

(** The locals of a worker after a sequence of events; events it does not
    wait for are skipped, as in [run_worker]. *)
Fixpoint run_locals (client : WebshareAPI.t) (w : worker) (evs : list event)
  : worker :=
  match evs with
  | [] => w
  | ev :: rest =>
      match run_segment client w ev with
      | Some (_, w') => run_locals client w' rest
      | None => run_locals client w rest
      end
  end.

(** The statements of a worker that is still on its way: they leave
    ['status'] alone, are not the handler and do not start the cleanup. *)
Definition on_the_way (a : action) : bool :=
  match a with
  | Fail _ _ => false
  | StartCleanup => false
  | SetItem (Status _) => false
  | _ => true
  end.

(** A thread that will do nothing more about [fid]: a worker for it that
    has finished and executed all its statements, a cleanup for it that
    is done, or a thread for another file id. *)
Definition idle_for (fid : string) (t : thread) : Prop :=
  match t with
  | WorkerThread w pending =>
      file_id w = fid -> at_pc w = Finished /\ pending = []
  | CleanupThread fid' c => fid' = fid -> c = CleanupDone
  end.

(** A thread that leaves the entry of [fid] alone until the clock shows
    [wake]: one that is idle for it, or a cleanup for it that sleeps
    until [wake] or longer, or one that has not gone to sleep yet, when
    [wake] is at most thirty seconds after [since]. *)
Definition asleep_for (fid : string) (since wake : Z) (t : thread) : Prop :=
  match t with
  | WorkerThread w pending =>
      file_id w = fid -> at_pc w = Finished /\ pending = []
  | CleanupThread fid' c =>
      fid' = fid ->
      match c with
      | CleanupStart => wake <= since + 30
      | Sleeping wake' => wake <= wake'
      | CleanupDone => True
      end
  end.

(** ** Requests that register at once *)

(** A thread that has something left to do: a worker that has not
    finished or has statements to execute, a cleanup that is not done. *)
Definition live (t : thread) : bool :=
  match t with
  | WorkerThread w pending =>
      match at_pc w, pending with
      | Finished, [] => false
      | _, _ => true
      end
  | CleanupThread _ CleanupDone => false
  | CleanupThread _ _ => true
  end.

(** The file id a thread is about. *)
Definition thread_file_id (t : thread) : string :=
  match t with
  | WorkerThread w _ => file_id w
  | CleanupThread fid _ => fid
  end.

Definition weight (fid : string) (t : thread) : nat :=
  if live t && String.eqb (thread_file_id t) fid then 1 else 0.

(** A count over the threads. *)
Definition count_by (f : thread -> nat) (ts : list thread) : nat :=
  fold_right (fun t n => (f t + n)%nat) 0%nat ts.

(** The number of live threads for a file id. *)
Definition busy (fid : string) (ts : list thread) : nat :=
  count_by (weight fid) ts.

(** A request to [/api/download] whose worker, if it starts one, gets to
    run at once and registers its entry (lines 101-107) before anything
    else happens in the process. *)
Definition start_atomically {H : HashLib} (s : world)
    (fid fname : option string) : option (world * reply) :=
  let '(s1, r) := download s fid fname in
  match r with
  | Started _ _ =>
      let tid := length (threads s) in
      match run s1 [Run tid Scheduled; Exec tid] with
      | Some (s2, _) => Some (s2, r)
      | None => None
      end
  | _ => Some (s1, r)
  end.

(** What can happen next when requests register at once: such a request,
    or any step that is not a request to [/api/download]. *)
Inductive move :=
  | Start (file_id file_name : option string)
  | Other (l : label).

Definition move_step {H : HashLib} (s : world) (m : move)
  : option (world * reply) :=
  match m with
  | Start fid fname => start_atomically s fid fname
  | Other (Download _ _) => None
  | Other l => step s l
  end.

Fixpoint moves {H : HashLib} (s : world) (ms : list move) : option world :=
  match ms with
  | [] => Some s
  | m :: rest =>
      match move_step s m with
      | Some (s', _) => moves s' rest
      | None => None
      end
  end.

(** The statements that end a worker. *)
Definition closing (a : action) : bool :=
  match a with
  | Fail _ _ => true
  | StartCleanup => true
  | _ => false
  end.

Definition is_register (a : action) : bool :=
  match a with
  | Register _ => true
  | _ => false
  end.

(** The start of the cleanup, if it is among the statements, is the last
    of them. *)
Fixpoint cleanup_last (pending : list action) : bool :=
  match pending with
  | [] => true
  | StartCleanup :: rest =>
      match rest with
      | [] => true
      | _ => false
      end
  | _ :: rest => cleanup_last rest
  end.

(** The shape of a worker between two moves: it has left its start, has
    no registration to execute, and has a closing statement to execute
    only when it has finished. *)
Definition registered (t : thread) : Prop :=
  match t with
  | WorkerThread w pending =>
      at_pc w <> AtStart
      /\ forallb (fun a => negb (is_register a)) pending = true
      /\ (existsb closing pending = true -> at_pc w = Finished)
      /\ cleanup_last pending = true
  | CleanupThread _ _ => True
  end.

(** The order that holds between moves: every worker is registered, and
    a file id has at most one live thread, and an entry when it has
    one. *)
Definition orderly (s : world) : Prop :=
  Forall registered (threads s)
  /\ forall fid,
       (busy fid (threads s) <= 1)%nat
       /\ (busy fid (threads s) = 1%nat ->
           is_Some (active_downloads s !! fid)).

(** ** Calls and starts *)

(** A worker that has called [initiate_download]. *)
Definition past_resolve (p : pc) : bool :=
  match p with
  | AtStart => false
  | AtResolve => false
  | _ => true
  end.

(** The workers for a file id, and those of them that have called
    [initiate_download]. *)
Definition is_worker_for (fid : string) (t : thread) : nat :=
  match t with
  | WorkerThread w _ => if String.eqb fid (file_id w) then 1 else 0
  | CleanupThread _ _ => 0
  end.

Definition has_resolved (fid : string) (t : thread) : nat :=
  match t with
  | WorkerThread w _ =>
      if past_resolve (at_pc w) && String.eqb fid (file_id w) then 1 else 0
  | CleanupThread _ _ => 0
  end.

(** How often [initiate_download] was called with a file id. *)
Definition calls_for (fid : string) (calls : list string) : nat :=
  length (List.filter (String.eqb fid) calls).

(** How many requests for a file id were answered 'Download started'. *)
Definition is_started_for (fid : string) (r : reply) : bool :=
  match r with
  | Started _ f => String.eqb fid f
  | _ => false
  end.

Definition started_for (fid : string) (rs : list reply) : nat :=
  length (List.filter (is_started_for fid) rs).

(** What a worker that has not called [initiate_download] has to
    execute: nothing at its start, at most its registration after. *)
Definition waiting (t : thread) : Prop :=
  match t with
  | WorkerThread w pending =>
      match at_pc w with
      | AtStart => pending = []
      | AtResolve => pending = [] \/ exists fn, pending = [Register fn]
      | _ => True
      end
  | CleanupThread _ _ => True
  end.

End Runs.

(* ===================================================================== *)
(** * Closed forms *)
(* ===================================================================== *)

(** What the loops of the code compute, written without the loop; the
    theorems compare the code with them. *)
Module Closed.

(** The unit a positive size is printed in: how often 1024 goes into it,
    and 'TB' from [1024^4] on. *)
Definition unit_index (n : Z) : nat :=
  if n <? 1024 then 0
  else if n <? 1024 ^ 2 then 1
  else if n <? 1024 ^ 3 then 2
  else if n <? 1024 ^ 4 then 3
  else 4.

(** Line 199: the elements [_parse_search_results_xml] makes results of,
    the [file] elements below the root, or the [item] elements when there
    is no [file] element. *)
Definition result_elements (root : Xml.element) : list Xml.element :=
  match Xml.findall_below "file" root with
  | [] => Xml.findall_below "item" root
  | l => l
  end.

End Closed.

(* ===================================================================== *)
(** * Further sample inputs *)
(* ===================================================================== *)

Module Cases.

(** A [file] element of a search answer. *)
Definition file_elem (ident name size : string) : Xml.element :=
  Xml.Element "file" None
    [Xml.Element "ident" (Some ident) [];
     Xml.Element "name" (Some name) [];
     Xml.Element "size" (Some size) []].

(** An answer to a search with status 'OK'. *)
Definition search_root (files : list Xml.element) : Xml.element :=
  Xml.Element "response" None (Xml.Element "status" (Some "OK") [] :: files).

Definition search_ok (files : list Xml.element) : Http.response :=
  Http.Response None (Xml.Document (search_root files)).

(** An answer that refuses the request. *)
Definition refused_root : Xml.element :=
  Xml.Element "response" None
    [Xml.Element "status" (Some "FATAL") [];
     Xml.Element "message" (Some "Access denied") []].

Definition refused : Http.response :=
  Http.Response None (Xml.Document refused_root).

(** The decimal digits of [10^309], a number above [2^1024]. *)
Definition huge : string :=
  String "1" (string_of_list_ascii (repeat "0"%char 309)).

Definition client : WebshareAPI.t := WebshareAPI.Build true (Some "tok").

(** A stream of 32 bytes in two chunks, with an empty chunk between
    them, and one that breaks off after the first chunk. *)
Definition body32 : SyncDownload.stream :=
  SyncDownload.Stream
    [(repeat Byte.x00 16, None); ([], None); (repeat Byte.x00 16, None)]
    None.

Definition body_broken : SyncDownload.stream :=
  SyncDownload.Stream [(repeat Byte.x00 16, None)] (Some "connection reset").

(** An app whose client is logged in, and one whose start-up login
    failed. *)
Definition app_logged_in : Routes.app :=
  Routes.MkApp client (Some "alice") (Some "secret") "success"
    "Successfully logged in as alice".

Definition app_logged_out : Routes.app :=
  Routes.MkApp WebshareAPI.init (Some "alice") (Some "secret") "error"
    "Login failed: Login failed: Network error - unreachable".

(** A download directory with two files of the same age around a
    directory and a newer file. *)
Definition listing : list Routes.dir_entry :=
  [Routes.DirEntry "a.iso" true (inr (1536, 100%Q));
   Routes.DirEntry "tmp" false (inr (4096, 300%Q));
   Routes.DirEntry "b.iso" true (inr (10, 100%Q));
   Routes.DirEntry "c.iso" true (inr (0, 200%Q))].

(** The process after a download of "f1" that failed. *)
Definition failed_world : App.world :=
  {| App.client := client;
     App.active_downloads :=
       {[ "f1" := App.error_job (Some "a.iso") "connection reset" ]};
     App.threads :=
       [App.WorkerThread
          (App.Worker "f1" (Some "a.iso") "/downloads" App.Finished) []];
     App.now := 5; App.DOWNLOAD_PATH := "/downloads";
     App.resolve_calls := ["f1"] |}.

(** A worker about to report progress on an entry that is gone. *)
Definition orphan_world : App.world :=
  {| App.client := client;
     App.active_downloads := ∅;
     App.threads :=
       [App.WorkerThread
          (App.Worker "f1" (Some "a.iso") "/downloads"
             (App.AtStream 32 16 "/downloads/a.iso"))
          [App.SetItem (App.Progress 50);
           App.SetItem (App.Message "Downloading... 40%");
           App.SetItem (App.DownloadedSize 16)]];
     App.now := 31; App.DOWNLOAD_PATH := "/downloads";
     App.resolve_calls := ["f1"; "f1"] |}.

(** The answer to the GET of a file, with the Content-Length it states. *)
Definition get_ok (content_length : option string) : App.get_outcome :=
  App.GetResponded (App.StreamResponse None content_length).

End Cases.

(* ===================================================================== *)
(** * Facts about rounding *)
(* ===================================================================== *)

Section Rounding.
Import Float64.
Local Open Scope Q_scope.

Lemma pow2_pos e : 0 < pow2 e.
Proof. apply Qpower_0_lt. reflexivity. Qed.

Lemma pow2_le a b : (a <= b)%Z -> pow2 a <= pow2 b.
Proof.
  intros Hab. apply Qpower_le_compat_l; [exact Hab | unfold Qle; simpl; lia].
Qed.

Lemma pow2_lt a b : (a < b)%Z -> pow2 a < pow2 b.
Proof. intros Hab. apply Qpower_lt_compat_l; [exact Hab | reflexivity]. Qed.

Lemma pow2_add a b : pow2 (a + b) == pow2 a * pow2 b.
Proof. apply Qpower_plus. unfold Qeq; simpl; lia. Qed.

Lemma pow2_Z n : (0 <= n)%Z -> inject_Z (2 ^ n) == pow2 n.
Proof. intros Hn. apply (Zpower_Qpower 2 n Hn). Qed.

(** [mag] brackets its argument between two consecutive powers of two. *)
Lemma mag_spec x : 0 < x -> pow2 (mag x - 1) <= x /\ x < pow2 (mag x).
Proof.
  intros Hx. unfold mag.
  set (a := Z.log2 (Qnum x)). set (b := Z.log2 (Z.pos (Qden x))).
  assert (Hn : (0 < Qnum x)%Z)
    by (destruct x as [n d]; unfold Qlt in Hx; simpl in *; lia).
  destruct (Z.log2_spec (Qnum x) Hn) as [Ha1 Ha2]. fold a in Ha1, Ha2.
  destruct (Z.log2_spec (Z.pos (Qden x)) ltac:(lia)) as [Hb1 Hb2].
  fold b in Hb1, Hb2.
  assert (Ha0 : (0 <= a)%Z) by apply Z.log2_nonneg.
  assert (Hb0 : (0 <= b)%Z) by apply Z.log2_nonneg.
  assert (Hxd : x * inject_Z (Z.pos (Qden x)) == inject_Z (Qnum x)).
  { destruct x as [n d]. unfold Qeq, Qmult, inject_Z. simpl. lia. }
  assert (Hd : 0 < inject_Z (Z.pos (Qden x))) by (unfold Qlt; simpl; lia).
  assert (Qa1 : pow2 a <= inject_Z (Qnum x))
    by (rewrite <- pow2_Z by lia; rewrite <- Zle_Qle; lia).
  assert (Qa2 : inject_Z (Qnum x) < pow2 (a + 1))
    by (rewrite <- pow2_Z by lia; rewrite <- Zlt_Qlt; lia).
  assert (Qb1 : pow2 b <= inject_Z (Z.pos (Qden x)))
    by (rewrite <- pow2_Z by lia; rewrite <- Zle_Qle; lia).
  assert (Qb2 : inject_Z (Z.pos (Qden x)) < pow2 (b + 1))
    by (rewrite <- pow2_Z by lia; rewrite <- Zlt_Qlt; lia).
  assert (E1 : pow2 (a + 1) == pow2 (a - b + 1) * pow2 b)
    by (rewrite <- pow2_add; f_equiv; lia).
  assert (E2 : pow2 a == pow2 (a - b - 1) * pow2 (b + 1))
    by (rewrite <- pow2_add; f_equiv; lia).
  pose proof (pow2_pos b) as Pb. pose proof (pow2_pos (a - b + 1)) as P1.
  pose proof (pow2_pos (a - b - 1)) as P2.
  set (D := inject_Z (Z.pos (Qden x))) in *.
  set (N := inject_Z (Qnum x)) in *.
  assert (U : x < pow2 (a - b + 1)).
  { apply Qnot_le_lt. intros C.
    assert (pow2 (a - b + 1) * pow2 b <= x * D).
    { apply Qle_trans with (x * pow2 b).
      - apply Qmult_le_compat_r; lra.
      - rewrite !(Qmult_comm x). apply Qmult_le_compat_r; lra. }
    lra. }
  assert (L : pow2 (a - b - 1) < x).
  { apply Qnot_le_lt. intros C.
    assert (x * D <= pow2 (a - b - 1) * D) by (apply Qmult_le_compat_r; lra).
    assert (pow2 (a - b - 1) * D < pow2 (a - b - 1) * pow2 (b + 1)).
    { rewrite !(Qmult_comm (pow2 (a - b - 1))).
      apply Qmult_lt_compat_r; lra. }
    lra. }
  destruct (Qle_bool (pow2 (a - b)) x) eqn:E.
  - apply Qle_bool_iff in E. split.
    + replace (a - b + 1 - 1)%Z with (a - b)%Z by lia. exact E.
    + exact U.
  - split.
    + apply Qlt_le_weak. exact L.
    + apply Qnot_le_lt. intros C. apply Qle_bool_iff in C. congruence.
Qed.

Lemma mag_mono x y : 0 < x -> x <= y -> (mag x <= mag y)%Z.
Proof.
  intros Hx Hxy.
  destruct (mag_spec x Hx) as [L1 U1].
  destruct (mag_spec y ltac:(lra)) as [L2 U2].
  destruct (Z_le_gt_dec (mag x) (mag y)) as [|G]; [assumption|exfalso].
  pose proof (pow2_le (mag y) (mag x - 1) ltac:(lia)). lra.
Qed.

Lemma cexp_mono x y : 0 < x -> x <= y -> (cexp x <= cexp y)%Z.
Proof.
  intros Hx Hxy. unfold cexp. pose proof (mag_mono x y Hx Hxy). lia.
Qed.

Lemma rne_floor x : (Qfloor x <= rne x <= Qfloor x + 1)%Z.
Proof. unfold rne. destruct (_ ?= _); [destruct (Z.even _)| |]; lia. Qed.

Lemma rne_mono x y : x <= y -> (rne x <= rne y)%Z.
Proof.
  intros Hxy. pose proof (Qfloor_resp_le _ _ Hxy) as F.
  pose proof (rne_floor x). pose proof (rne_floor y).
  destruct (Z.eq_dec (Qfloor x) (Qfloor y)) as [E|NE]; [|lia].
  unfold rne in *. rewrite <- E in *. clear E F.
  destruct (Qcompare_spec (x - inject_Z (Qfloor x)) (1 # 2)) as [E1|E1|E1];
  destruct (Qcompare_spec (y - inject_Z (Qfloor x)) (1 # 2)) as [E2|E2|E2];
  try destruct (Z.even (Qfloor x)); try lia; lra.
Qed.

Lemma rne_Z k : rne (inject_Z k) = k.
Proof.
  unfold rne. rewrite Qfloor_Z.
  destruct (Qcompare_spec (inject_Z k - inject_Z k) (1 # 2)) as [E|E|E];
    try lra.
  reflexivity.
Qed.

Lemma rne_nonneg x : 0 <= x -> (0 <= rne x)%Z.
Proof. intros Hx. rewrite <- (rne_Z 0). apply rne_mono. exact Hx. Qed.

Lemma div_pow2_le x y c : x <= y -> x / pow2 c <= y / pow2 c.
Proof.
  intros Hxy. pose proof (pow2_pos c) as P. unfold Qdiv.
  apply Qmult_le_compat_r; [exact Hxy|].
  apply Qlt_le_weak, Qinv_lt_0_compat, P.
Qed.

Lemma div_pow2_lt_pow2 x a c : x < pow2 a -> x / pow2 c < pow2 (a - c).
Proof.
  intros Hx. pose proof (pow2_pos c) as P.
  apply Qlt_shift_div_r; [exact P|].
  rewrite <- pow2_add. replace (a - c + c)%Z with a by lia. exact Hx.
Qed.

Lemma div_pow2_ge_pow2 x a c : pow2 a <= x -> pow2 (a - c) <= x / pow2 c.
Proof.
  intros Hx. pose proof (pow2_pos c) as P.
  apply Qle_shift_div_l; [exact P|].
  rewrite <- pow2_add. replace (a - c + c)%Z with a by lia. exact Hx.
Qed.

(** A rounded number does not leave the binade of its argument upwards. *)
Lemma round_pos_upper x :
  0 < x -> round_pos x <= pow2 (Z.max (mag x) (cexp x)).
Proof.
  intros Hx. destruct (mag_spec x Hx) as [_ U]. unfold round_pos.
  set (c := cexp x). pose proof (pow2_pos c) as P.
  pose proof (div_pow2_lt_pow2 x (mag x) c U) as B.
  destruct (Z_le_gt_dec 0 (mag x - c)) as [J|J].
  - assert (R : (rne (x / pow2 c) <= 2 ^ (mag x - c))%Z).
    { rewrite <- (rne_Z (2 ^ (mag x - c))). apply rne_mono.
      rewrite pow2_Z by lia. lra. }
    apply Qle_trans with (inject_Z (2 ^ (mag x - c)) * pow2 c).
    + apply Qmult_le_compat_r; [|lra]. rewrite <- Zle_Qle. exact R.
    + rewrite pow2_Z by lia. rewrite <- pow2_add.
      apply pow2_le. lia.
  - assert (R : (rne (x / pow2 c) <= 1)%Z).
    { rewrite <- (rne_Z 1). apply rne_mono.
      pose proof (pow2_lt (mag x - c) 0 ltac:(lia)) as Q0.
      change (pow2 0) with 1 in Q0. change (inject_Z 1) with 1. lra. }
    apply Qle_trans with (inject_Z 1 * pow2 c).
    + apply Qmult_le_compat_r; [|lra]. rewrite <- Zle_Qle. exact R.
    + rewrite Qmult_1_l. apply pow2_le. lia.
Qed.

(** Nor downwards, when the argument is a normal number. *)
Lemma round_pos_lower x :
  0 < x -> (-1074 < mag x - 53)%Z -> pow2 (mag x - 1) <= round_pos x.
Proof.
  intros Hx Hn. destruct (mag_spec x Hx) as [L _]. unfold round_pos.
  assert (C : cexp x = (mag x - 53)%Z) by (unfold cexp; lia).
  rewrite C. set (c := (mag x - 53)%Z). pose proof (pow2_pos c) as P.
  pose proof (div_pow2_ge_pow2 x (mag x - 1) c L) as B.
  replace (mag x - 1 - c)%Z with 52%Z in B by (unfold c; lia).
  assert (R : (2 ^ 52 <= rne (x / pow2 c))%Z).
  { rewrite <- (rne_Z (2 ^ 52)). apply rne_mono.
    rewrite pow2_Z by lia. exact B. }
  apply Qle_trans with (inject_Z (2 ^ 52) * pow2 c).
  - rewrite pow2_Z by lia. rewrite <- pow2_add. apply pow2_le. unfold c. lia.
  - apply Qmult_le_compat_r; [|lra]. rewrite <- Zle_Qle. exact R.
Qed.

Lemma round_pos_nonneg x : 0 < x -> 0 <= round_pos x.
Proof.
  intros Hx. unfold round_pos. pose proof (pow2_pos (cexp x)) as P.
  apply Qmult_le_0_compat; [|lra].
  replace 0 with (inject_Z 0) by reflexivity. rewrite <- Zle_Qle.
  apply rne_nonneg.
  apply Qle_shift_div_l; [exact P|]. lra.
Qed.

Lemma round_pos_mono x y : 0 < x -> x <= y -> round_pos x <= round_pos y.
Proof.
  intros Hx Hxy. assert (Hy : 0 < y) by lra.
  pose proof (cexp_mono x y Hx Hxy) as Cm.
  pose proof (mag_mono x y Hx Hxy) as Mm.
  destruct (Z.eq_dec (cexp x) (cexp y)) as [E|NE].
  - unfold round_pos. rewrite E. pose proof (pow2_pos (cexp y)) as P.
    apply Qmult_le_compat_r; [|lra]. rewrite <- Zle_Qle. apply rne_mono.
    apply div_pow2_le. exact Hxy.
  - assert (Hc : (cexp x < cexp y)%Z) by lia.
    assert (Hm : (-1074 < mag y - 53)%Z) by (unfold cexp in *; lia).
    apply Qle_trans with (pow2 (Z.max (mag x) (cexp x)));
      [apply round_pos_upper; exact Hx|].
    apply Qle_trans with (pow2 (mag y - 1));
      [|apply round_pos_lower; assumption].
    apply pow2_le. unfold cexp in *. lia.
Qed.

(** Rounding to nearest is monotone. *)
Lemma round_mono x y : 0 <= x -> x <= y -> round x <= round y.
Proof.
  intros Hx Hxy. unfold round.
  destruct (Qcompare_spec x 0) as [Ex|Ex|Ex]; [|lra|];
  destruct (Qcompare_spec y 0) as [Ey|Ey|Ey]; try lra.
  - apply round_pos_nonneg. exact Ey.
  - apply round_pos_mono; assumption.
Qed.

Lemma round_nonneg x : 0 <= x -> 0 <= round x.
Proof.
  intros Hx. unfold round. destruct (Qcompare_spec x 0) as [E|E|E]; try lra.
  apply round_pos_nonneg. exact E.
Qed.

End Rounding.

(** On the grid, [Float64.round] gives the numbers that the Standard
    Library's specification of binary64 gives. *)
Lemma round_agrees_with_SpecFloat :
  forallb (fun '(a, b) => Float64Check.agree a b) Float64Check.grid = true.
Proof. vm_compute. reflexivity. Qed.
(* ===================================================================== *)
(** * Text and its bytes *)
(* ===================================================================== *)

Section Text.
Import Py WebshareAPI.
Local Open Scope N_scope.


Lemma code_byte n : n < 256 -> code (ascii_of_N n) = n.
Proof. intros Hn. unfold code. apply N_ascii_embedding. exact Hn. Qed.








Lemma split_two c : (c / 64) * 64 + c mod 64 = c.
Proof. pose proof (N.div_mod c 64). lia. Qed.

Lemma split_three c :
  (c / 4096) * 4096 + (c / 64 mod 64) * 64 + c mod 64 = c.
Proof.
  pose proof (N.div_mod c 64). pose proof (N.div_mod (c / 64) 64).
  rewrite N.Div0.div_div in *. change (64 * 64) with 4096 in *. lia.
Qed.

Lemma split_four c :
  (c / 262144) * 262144 + (c / 4096 mod 64) * 4096 + (c / 64 mod 64) * 64
  + c mod 64 = c.
Proof.
  pose proof (split_three c) as S3. pose proof (N.div_mod (c / 4096) 64) as S.
  rewrite N.Div0.div_div in S. change (4096 * 64) with 262144 in S. lia.
Qed.

Lemma low_again n : (128 + n mod 64) mod 64 = n mod 64.
Proof.
  pose proof (N.mod_lt n 64 ltac:(discriminate)).
  replace (128 + n mod 64) with (n mod 64 + 2 * 64) by lia.
  rewrite N.Div0.mod_add. apply N.mod_small. lia.
Qed.

Lemma low_byte n : 128 + n mod 64 < 256.
Proof. pose proof (N.mod_lt n 64). lia. Qed.

(** Every text is held by a string: the code points of [str_of l] are
    [l]. *)
Lemma points_chr_bytes c rest :
  c < 1114112 -> points (chr_bytes c ++ rest) = c :: points rest.
Proof.
  intros Hc. unfold chr_bytes.
  destruct (N.ltb_spec c 128) as [L1|L1].
  { cbn [app points]. rewrite code_byte by lia.
    rewrite (proj2 (N.ltb_lt c 128)) by lia. reflexivity. }
  destruct (N.ltb_spec c 2048) as [L2|L2].
  { assert (D : c / 64 < 32) by (apply N.Div0.div_lt_upper_bound; lia).
    set (q := c / 64) in *. cbn [app].
    unfold points; fold points.
    rewrite !code_byte by (first [apply low_byte | clear -D; lia]).
    rewrite (proj2 (N.ltb_ge (192 + q) 128)) by (clear; lia).
    rewrite (proj2 (N.ltb_ge (192 + q) 192)) by (clear; lia).
    rewrite (proj2 (N.ltb_lt (192 + q) 224)) by (clear -D; lia).
    rewrite low_again. f_equal.
    replace (192 + q - 192) with q by (clear; lia). apply split_two. }
  destruct (N.ltb_spec c 65536) as [L3|L3].
  { assert (D : c / 4096 < 16) by (apply N.Div0.div_lt_upper_bound; lia).
    set (q := c / 4096) in *. cbn [app].
    unfold points; fold points.
    rewrite !code_byte by (first [apply low_byte | clear -D; lia]).
    rewrite (proj2 (N.ltb_ge (224 + q) 128)) by (clear; lia).
    rewrite (proj2 (N.ltb_ge (224 + q) 192)) by (clear; lia).
    rewrite (proj2 (N.ltb_ge (224 + q) 224)) by (clear; lia).
    rewrite (proj2 (N.ltb_lt (224 + q) 240)) by (clear -D; lia).
    rewrite !low_again. f_equal.
    replace (224 + q - 224) with q by (clear; lia). apply split_three. }
  assert (D : c / 262144 < 16) by (apply N.Div0.div_lt_upper_bound; lia).
  set (q := c / 262144) in *. cbn [app].
  unfold points; fold points.
  rewrite !code_byte by (first [apply low_byte | clear -D; lia]).
  rewrite (proj2 (N.ltb_ge (240 + q) 128)) by (clear; lia).
  rewrite (proj2 (N.ltb_ge (240 + q) 192)) by (clear; lia).
  rewrite (proj2 (N.ltb_ge (240 + q) 224)) by (clear; lia).
  rewrite (proj2 (N.ltb_ge (240 + q) 240)) by (clear; lia).
  rewrite !low_again. f_equal.
  replace (240 + q - 240) with q by (clear; lia). apply split_four.
Qed.

Lemma code_points_str_of l :
  Forall (fun c => c < 1114112) l -> code_points (str_of l) = l.
Proof.
  unfold code_points, str_of. rewrite list_ascii_of_string_of_list_ascii.
  induction 1 as [|c r Hc Hr IH]; [reflexivity|].
  cbn [flat_map]. rewrite (points_chr_bytes c _ Hc), IH. reflexivity.
Qed.


End Text.
(* ===================================================================== *)
(** * The credential handshake *)
(* ===================================================================== *)

Section Credentials.
Import Py WebshareAPI.
Context {H : HashLib}.


End Credentials.

Section CredentialsSample.
Import Py WebshareAPI Sample.

(** UTF-8 on the examples of RFC 3629 and on characters of one to four
    bytes; the codec gives the same bytes, and refuses a surrogate. *)
Lemma utf8_test_vectors :
  Spec.utf8 [0x41; 0x2262; 0x391; 0x2E]%N
  = [Byte.x41; Byte.xe2; Byte.x89; Byte.xa2; Byte.xce; Byte.x91; Byte.x2e]
  /\ Spec.utf8 [0x233B4]%N = [Byte.xf0; Byte.xa3; Byte.x8e; Byte.xb4]
  /\ encode_utf8 (str_of [0x41; 0x2262; 0x391; 0x2E]%N)
     = ret [Byte.x41; Byte.xe2; Byte.x89; Byte.xa2; Byte.xce; Byte.x91;
            Byte.x2e]
  /\ encode_utf8 (str_of [0x10D; 0x233B4]%N)
     = ret [Byte.xc4; Byte.x8d; Byte.xf0; Byte.xa3; Byte.x8e; Byte.xb4]
  /\ encode_utf8 (str_of [0x61; 0xDCFF]%N)
     = raise UnicodeEncodeError
         ("'utf-8' codec can't encode character '" +:+ String backslash "udcff"
          +:+ "' in position 1: surrogates not allowed").
Proof. repeat split; vm_compute; reflexivity. Qed.

(** The functions of [Hashes] on published test vectors. *)
Lemma md5_test_vectors :
  md5_hexdigest (Spec.utf8 (code_points EmptyString))
    = "d41d8cd98f00b204e9800998ecf8427e"
  /\ md5_hexdigest (Spec.utf8 (code_points "abc"))
     = "900150983cd24fb0d6963f7d28e17f72"
  /\ md5_hexdigest (Spec.utf8 (code_points "message digest"))
     = "f96b697d7cb7938d525a2f31aaf161d0".
Proof. repeat split; vm_compute; reflexivity. Qed.

Lemma sha1_test_vectors :
  sha1_hexdigest (Spec.utf8 (code_points EmptyString))
    = "da39a3ee5e6b4b0d3255bfef95601890afd80709"
  /\ sha1_hexdigest (Spec.utf8 (code_points "abc"))
     = "a9993e364706816aba3e25717850c26c9cd0d89d"
  /\ sha1_hexdigest
       (Spec.utf8
          (code_points
             "abcdbcdecdefdefgefghfghighijhijkijkljklmklmnlmnomnopnopq"))
     = "84983e441c3bd26ebaae4aa1f95129e5e54670f1".
Proof. repeat split; vm_compute; reflexivity. Qed.

Lemma md5_crypt_test_vector :
  md5_crypt "password" "3azHgidD" = inr "$1$3azHgidD$SrJPt7B.9rekpmwJwtON31".
Proof. vm_compute. reflexivity. Qed.

(** The hashes of the credentials that the sample logins use. *)
Lemma md5_crypt_sample :
  md5_crypt "secret" "abcdefgh" = inr "$1$abcdefgh$cHJi5PXp/ki/ktXzqlk6I1".
Proof. vm_compute. reflexivity. Qed.

Lemma hash_password_sample rnd :
  hash_password rnd "alice" "secret" (Some "abcdefgh")
  = inr ("03e44e5a304b191a71190ee871e651c67a01ffaf",
         "343c2e3aa108b292b2e546482aecdebd").
Proof.
  unfold hash_password, md5_crypt_encrypt. rewrite md5_crypt_sample.
  vm_compute. reflexivity.
Qed.


(** Against C1 as stated: a salt of nine characters is refused, and
    [hash_password] raises; without a salt, which is what an empty [salt]
    element gives, the result changes with the salt that the library
    draws. *)
Lemma hash_password_counterexample :
  hash_password "zzzzzzzz" "alice" "password" (Some "123456789")
  = raise Exception
      "Failed to hash password: salt too large (md5_crypt requires <= 8 chars)"
  /\ hash_password "3azHgidD" "alice" "password" None
     = inr ("6157ea89ae1fa90c3e2f73ecf9e21fb7dbb42cab",
            "d333bcbd59c56ef468f9eb3ac3b0ba28")
  /\ hash_password "zzzzzzzz" "alice" "password" None
     = inr ("ff24d749b9357d4b5aef75aefc8bef437bc3b7ed",
            "29ffcc98306242f6d9d0084ce6b82f53").
Proof.
  split; [vm_compute; reflexivity|]. split.
  - unfold hash_password, md5_crypt_encrypt. rewrite md5_crypt_test_vector.
    vm_compute. reflexivity.
  - vm_compute. reflexivity.
Qed.

End CredentialsSample.
(* ===================================================================== *)
(** * Reading the size field *)
(* ===================================================================== *)

Section FileSize.
Import Py.

Lemma in_ranges_apart c (T1 T2 : list (N * N)) :
  forallb
    (fun r1 =>
       forallb (fun r2 => (snd r1 <? fst r2) || (snd r2 <? fst r1))%N T2)
    T1 = true ->
  in_ranges c T1 = true -> in_ranges c T2 = false.
Proof.
  intros A I. unfold in_ranges in *.
  apply existsb_exists in I. destruct I as (r1 & I1 & B1).
  rewrite forallb_forall in A. specialize (A r1 I1).
  rewrite forallb_forall in A.
  apply not_true_is_false. intros I2.
  apply existsb_exists in I2. destruct I2 as (r2 & I2 & B2).
  specialize (A r2 I2).
  apply andb_true_iff in B1 as [B1 B1'], B2 as [B2 B2'].
  apply N.leb_le in B1, B1', B2, B2'.
  apply orb_true_iff in A as [A|A]; apply N.ltb_lt in A; lia.
Qed.

Lemma in_ranges_from c n (T : list (N * N)) :
  forallb (fun r => n <=? fst r)%N T = true ->
  in_ranges c T = true -> (n <= c)%N.
Proof.
  intros A I. unfold in_ranges in I.
  apply existsb_exists in I. destruct I as (r & I & B).
  rewrite forallb_forall in A. specialize (A r I).
  apply andb_true_iff in B as [B _]. apply N.leb_le in A, B. lia.
Qed.

Lemma isdecimal_in_ranges c : chr_isdecimal c = in_ranges c decimal_digits.
Proof.
  unfold chr_isdecimal, decimal, in_ranges.
  induction decimal_digits as [|r T IH]; [reflexivity|].
  cbn [find existsb]. destruct ((fst r <=? c) && (c <=? snd r))%N;
    [reflexivity|exact IH].
Qed.

Lemma isdigit_in_ranges c :
  chr_isdigit c = in_ranges c (decimal_digits ++ other_digits).
Proof.
  unfold chr_isdigit. rewrite isdecimal_in_ranges.
  unfold in_ranges. rewrite existsb_app. reflexivity.
Qed.

Lemma blank_in_ranges c :
  int_blank c = true ->
  in_ranges c ((9, 13) :: (32, 32) :: white_space)%N = true.
Proof.
  unfold int_blank, in_ranges. cbn [existsb fst snd].
  destruct (c <? 127)%N.
  - intros E. apply orb_true_iff in E as [E|E].
    + rewrite E. reflexivity.
    + apply N.eqb_eq in E. subst c. reflexivity.
  - intros ->. rewrite !orb_true_r. reflexivity.
Qed.

(** A digit is no white space, no sign and no underscore. *)
Lemma isdigit_token c :
  chr_isdigit c = true ->
  token_of c = match decimal c with
               | Some v => Digit v
               | None => Other
               end.
Proof.
  intros D. unfold token_of.
  assert (B : int_blank c = false).
  { destruct (int_blank c) eqn:B; [|reflexivity].
    apply blank_in_ranges in B. rewrite isdigit_in_ranges in D.
    assert (A : forallb
                  (fun r1 =>
                     forallb
                       (fun r2 => (snd r1 <? fst r2) || (snd r2 <? fst r1))%N
                       ((9, 13) :: (32, 32) :: white_space)%N)
                  (decimal_digits ++ other_digits) = true)
      by (vm_compute; reflexivity).
    rewrite (in_ranges_apart c _ _ A D) in B. discriminate. }
  rewrite B. destruct (decimal c) as [v|] eqn:Ed; [reflexivity|].
  unfold chr_isdigit, chr_isdecimal in D. rewrite Ed in D. cbn [orb] in D.
  assert (A : forallb (fun r => 178 <=? fst r)%N other_digits = true)
    by (vm_compute; reflexivity).
  pose proof (in_ranges_from c 178 other_digits A D) as G.
  rewrite !(proj2 (N.eqb_neq c _)); [reflexivity| | |];
    intros ->; vm_compute in G; apply G; reflexivity.
Qed.

Lemma decimal_isdigit c v : decimal c = Some v -> chr_isdigit c = true.
Proof.
  intros E. unfold chr_isdigit, chr_isdecimal. rewrite E. reflexivity.
Qed.

(** A text of decimal digits and their values. *)
Lemma decimal_fold text : forall acc n,
  fold_left
    (fun acc c =>
       match acc, decimal c with
       | Some n, Some v => Some (10 * n + v)
       | _, _ => None
       end)
    text acc = Some n ->
  exists a digits,
    acc = Some a
    /\ Forall2 (fun c v => decimal c = Some v) text digits
    /\ n = fold_left (fun acc v => 10 * acc + v) digits a.
Proof.
  induction text as [|c r IH]; intros acc n E.
  - cbn in E. subst acc. exists n, []. repeat split. constructor.
  - cbn [fold_left] in E. apply IH in E. destruct E as (a' & ds & E & F & ->).
    destruct acc as [a|]; [|discriminate].
    destruct (decimal c) as [v|] eqn:Ec; [|discriminate].
    injection E as <-. exists a, (v :: ds). repeat split.
    constructor; assumption.
Qed.

Lemma fold_decimal text : forall digits a,
  Forall2 (fun c v => decimal c = Some v) text digits ->
  fold_left
    (fun acc c =>
       match acc, decimal c with
       | Some n, Some v => Some (10 * n + v)
       | _, _ => None
       end)
    text (Some a)
  = Some (fold_left (fun acc v => 10 * acc + v) digits a).
Proof.
  induction text as [|c r IH]; intros digits a F.
  - apply Forall2_nil_inv_l in F. subst. reflexivity.
  - apply Forall2_cons_inv_l in F. destruct F as (v & ds & Ec & F & ->).
    cbn [fold_left]. rewrite Ec. apply IH. exact F.
Qed.

Lemma decimal_value_fold text :
  text <> [] ->
  Spec.decimal_value text
  = fold_left
      (fun acc c =>
         match acc, decimal c with
         | Some n, Some v => Some (10 * n + v)
         | _, _ => None
         end)
      text (Some 0).
Proof. destruct text; [congruence|reflexivity]. Qed.

Lemma decimal_tokens text digits :
  Forall2 (fun c v => decimal c = Some v) text digits ->
  map token_of text = map Digit digits.
Proof.
  induction 1 as [|c v text digits Ec F IH]; [reflexivity|].
  cbn [map]. rewrite IH. f_equal.
  rewrite (isdigit_token c (decimal_isdigit c v Ec)), Ec. reflexivity.
Qed.

Lemma numeral_digits digits : forall after_digit,
  digits <> [] \/ after_digit = true ->
  numeral after_digit (map Digit digits) = Some (digits, []).
Proof.
  induction digits as [|v ds IH]; intros after_digit Hne.
  - destruct Hne as [Hne| ->]; [congruence|reflexivity].
  - cbn [map numeral]. rewrite IH by (right; reflexivity). reflexivity.
Qed.

(** On digits and characters that no numeral holds, a numeral that ends
    where the text ends is the whole text. *)
Lemma numeral_plain text : forall after_digit digits rest,
  forallb chr_isdigit text = true ->
  numeral after_digit (map token_of text) = Some (digits, rest) ->
  skip_blanks rest = [] ->
  Forall2 (fun c v => decimal c = Some v) text digits.
Proof.
  induction text as [|c r IH]; intros after_digit digits rest D E S.
  - cbn in E. destruct after_digit; [|discriminate].
    injection E as <- <-. constructor.
  - cbn [forallb] in D. apply andb_true_iff in D as [Dc Dr].
    cbn [map] in E. rewrite (isdigit_token c Dc) in E.
    destruct (decimal c) as [v|] eqn:Ec; cbn [numeral] in E.
    + destruct (numeral true (map token_of r)) as [[ds rest']|] eqn:En;
        [|discriminate].
      injection E as <- <-. constructor; [exact Ec|].
      exact (IH true ds rest' Dr En S).
    + destruct after_digit; [|discriminate].
      injection E as <- <-. discriminate S.
Qed.

Lemma isdigit_body text :
  text <> [] -> forallb chr_isdigit text = true ->
  skip_blanks (map token_of text) = map token_of text
  /\ match map token_of text with
     | Sign _ :: _ => False
     | _ => True
     end.
Proof.
  destruct text as [|c r]; [congruence|]. intros _ D.
  cbn [forallb] in D. apply andb_true_iff in D as [Dc _].
  cbn [map]. rewrite (isdigit_token c Dc).
  destruct (decimal c); split; reflexivity || exact I.
Qed.

Lemma int_error_class s e : Py.int s = inl e -> exc_class e = ValueError.
Proof.
  unfold Py.int.
  destruct (skip_blanks (map token_of (code_points s))) as [|[] ?];
    (destruct (numeral false _) as [[ds rest]|];
     [destruct (max_str_digits <? length ds)%nat;
      [|destruct (skip_blanks rest)]|]);
    intros E; first [discriminate E | injection E as <-; reflexivity].
Qed.

(** [int] on a text that [isdigit] accepts. *)
Lemma int_of_isdigit s n :
  isdigit s = true -> Py.int s = inr n ->
  Spec.decimal_value (code_points s) = Some n
  /\ (length (code_points s) <=? 4300)%nat = true.
Proof.
  unfold isdigit, Py.int. intros D.
  destruct (code_points s) as [|c r] eqn:Et; [discriminate|].
  rewrite <- Et in *.
  assert (Hne : code_points s <> []) by (rewrite Et; discriminate).
  destruct (isdigit_body _ Hne D) as [-> Hs].
  destruct (map token_of (code_points s)) as [|t l] eqn:Em.
  { rewrite Et in Em. discriminate. }
  assert (Eb : (match t :: l with
                | Sign negative :: r => (negative, r)
                | _ => (false, t :: l)
                end) = (false, t :: l))
    by (destruct t; [reflexivity|contradiction|reflexivity..]).
  rewrite Eb. rewrite <- Em.
  destruct (numeral false (map token_of (code_points s)))
    as [[ds rest]|] eqn:En; [|discriminate].
  destruct (max_str_digits <? length ds)%nat eqn:El; [discriminate|].
  destruct (skip_blanks rest) eqn:Es; [|discriminate].
  intros E. injection E as <-.
  pose proof (numeral_plain _ _ _ _ D En Es) as F.
  split.
  - rewrite (decimal_value_fold _ Hne). apply (fold_decimal _ _ 0 F).
  - rewrite (Forall2_length _ _ _ F).
    rewrite Nat.ltb_antisym in El. apply negb_false_iff in El. exact El.
Qed.

(** [int] on a text of at most 4300 decimal digits. *)
Lemma int_of_decimal s n :
  Spec.decimal_value (code_points s) = Some n ->
  isdigit s = true
  /\ s <> EmptyString
  /\ Py.int s
     = if (length (code_points s) <=? 4300)%nat then ret n
       else raise ValueError
              ("Exceeds the limit (4300 digits) for integer string "
               +:+ "conversion: value has "
               +:+ str_of_int (Z.of_nat (length (code_points s)))
               +:+ " digits; use sys.set_int_max_str_digits() "
               +:+ "to increase the limit").
Proof.
  intros E.
  assert (Hne : code_points s <> [])
    by (intros Et; rewrite Et in E; discriminate).
  rewrite (decimal_value_fold _ Hne) in E.
  destruct (code_points s) as [|c r] eqn:Et; [congruence|].
  rewrite <- Et in *.
  apply decimal_fold in E. destruct E as (a & ds & Ea & F & ->).
  injection Ea as <-.
  assert (D : forallb chr_isdigit (code_points s) = true).
  { clear -F. induction F as [|c v text digits Ec F IH]; [reflexivity|].
    cbn [forallb]. rewrite (decimal_isdigit c v Ec), IH. reflexivity. }
  split; [|split].
  - unfold isdigit. rewrite Et at 1. rewrite <- Et. exact D.
  - intros ->. apply Hne. reflexivity.
  - unfold Py.int. destruct (isdigit_body _ Hne D) as [-> Hs].
    destruct (map token_of (code_points s)) as [|t l] eqn:Em.
    { rewrite Et in Em. discriminate. }
    assert (Eb : (match t :: l with
                  | Sign negative :: r => (negative, r)
                  | _ => (false, t :: l)
                  end) = (false, t :: l))
      by (destruct t; [reflexivity|contradiction|reflexivity..]).
    rewrite Eb. rewrite <- Em. rewrite (decimal_tokens _ _ F).
    rewrite numeral_digits.
    + rewrite <- (Forall2_length _ _ _ F).
      rewrite Nat.ltb_antisym. change max_str_digits with 4300%nat.
      destruct (length (code_points s) <=? 4300)%nat; reflexivity.
    + left. intros ->. apply Forall2_nil_inv_r in F. contradiction.
Qed.

(** The code reads the size field: at most 4300 decimal digits give their
    value, anything else gives 0. *)
Lemma parse_file_size_spec size_elem :
  WebshareAPI.parse_file_size size_elem = ret (Spec.size_read size_elem).
Proof.
  unfold WebshareAPI.parse_file_size, Spec.size_read.
  destruct size_elem as [e|]; [|reflexivity]. cbn [Xml.text_or].
  destruct (Xml.text e) as [s|]; [|reflexivity].
  destruct (Spec.decimal_value (code_points s)) as [n|] eqn:Ev.
  - destruct (int_of_decimal s n Ev) as (Ed & Hne & Ei).
    assert (Et : truthy (Some s) = true).
    { cbn. apply negb_true_iff. apply String.eqb_neq. exact Hne. }
    rewrite Et, Ed, Ei. cbn [andb].
    destruct (length (code_points s) <=? 4300)%nat; reflexivity.
  - destruct (truthy (Some s) && isdigit s) eqn:G; [|reflexivity].
    apply andb_true_iff in G as [_ Ed].
    destruct (Py.int s) as [e'|n] eqn:Ei.
    + rewrite (int_error_class s e' Ei). reflexivity.
    + destruct (int_of_isdigit s n Ed Ei) as [Ev' _]. congruence.
Qed.




End FileSize.

(* ===================================================================== *)
(** * Resolving a download link *)
(* ===================================================================== *)

Section DownloadLink.
Import Py WebshareAPI.



(** Against C9 as stated: a size of 4301 digits, all of them digits, is
    read as 0, where the integer value is far from 0; and a size in the
    digits of another script, none of them among 0 to 9, is read as its
    value and not as 0. *)
Lemma initiate_download_size_counterexample :
  (Spec.all_digits Sample.long_size = true
   /\ String.length Sample.long_size = 4301%nat
   /\ 0 < Spec.fileSizeBytes
            (Xml.find "size" (Sample.file_link_root (Some Sample.long_size)))
   /\ initiate_download (WebshareAPI.Build true (Some "tok")) "f1"
        (Sample.file_link_ok (Some Sample.long_size))
      = ret {| downloadUrl := Some "https://dl.example/f";
               fileName := Some "download"; fileSize := 0 |})
  /\ (Spec.all_digits (str_of [0x663; 0x661]%N) = false
      /\ Spec.fileSizeBytes
           (Xml.find "size"
              (Sample.file_link_root (Some (str_of [0x663; 0x661]%N))))
         = 0
      /\ initiate_download (WebshareAPI.Build true (Some "tok")) "f1"
           (Sample.file_link_ok (Some (str_of [0x663; 0x661]%N)))
         = ret {| downloadUrl := Some "https://dl.example/f";
                  fileName := Some "download"; fileSize := 31 |}).
Proof.
  repeat match goal with |- _ /\ _ => split end; vm_compute; reflexivity.
Qed.

End DownloadLink.

(* ===================================================================== *)
(** * The session *)
(* ===================================================================== *)

Section SessionFacts.
Import Py WebshareAPI.
Context {H : HashLib}.

(** A [login] that raises leaves the object as it was; one that returns has
    set [logged_in] and stored the text of the token element. *)
Lemma login_cases self rnd username password salt_post login_post :
  match login self rnd username password salt_post login_post with
  | (inl _, self') => self' = self
  | (inr _, self') => logged_in self' = true
  end.
Proof.
  unfold login.
  destruct (handlers _ _) as [e|self'] eqn:E; [reflexivity|].
  unfold handlers in E.
  destruct (login_try _ _ _ _ _ _) as [e|s] eqn:E2;
    [destruct (exc_class e); discriminate|].
  injection E as <-.
  unfold login_try in E2.
  destruct (get_salt _ _) as [?|salt]; [discriminate|]. simpl in E2.
  destruct (hash_password _ _ _ _) as [?|?]; [discriminate|]. simpl in E2.
  destruct (Http.send _) as [?|r]; [discriminate|]. simpl in E2.
  destruct (Http.raise_for_status _) as [?|?]; [discriminate|]. simpl in E2.
  destruct (Xml.fromstring _) as [e|root]; simpl in E2;
    [destruct (exc_class e); discriminate|].
  destruct (eq_str _ _); simpl in E2; [|discriminate].
  destruct (Xml.find "token" root); simpl in E2; [|discriminate].
  injection E2 as <-. reflexivity.
Qed.

Lemma login_stores_token self rnd username password salt_post login_post
    u self' :
  login self rnd username password salt_post login_post = (inr u, self') ->
  exists response root token_elem,
    login_post = Http.Responded response
    /\ Http.body response = Xml.Document root
    /\ Xml.find "token" root = Some token_elem
    /\ self' = {| logged_in := true; token := Xml.text token_elem |}.
Proof.
  unfold login.
  destruct (handlers _ _) as [e|s] eqn:E; [discriminate|].
  intros E'. injection E' as _ <-.
  unfold handlers in E.
  destruct (login_try _ _ _ _ _ _) as [e|s'] eqn:E2;
    [destruct (exc_class e); discriminate|].
  injection E as <-.
  unfold login_try in E2.
  destruct (get_salt _ _) as [?|salt]; [discriminate|]. simpl in E2.
  destruct (hash_password _ _ _ _) as [?|?]; [discriminate|]. simpl in E2.
  destruct login_post as [err|response]; [discriminate|]. simpl in E2.
  destruct (Http.raise_for_status _) as [?|?]; [discriminate|]. simpl in E2.
  destruct (Http.body response) as [err|root] eqn:Eb; simpl in E2;
    [discriminate|].
  destruct (eq_str _ _); simpl in E2; [|discriminate].
  destruct (Xml.find "token" root) as [token_elem|] eqn:Et; simpl in E2;
    [|discriminate].
  injection E2 as <-. exists response, root, token_elem. auto.
Qed.

Lemma login_keeps_invariant self rnd username password salt_post login_post :
  (truthy (token self) = true -> logged_in self = true) ->
  let self' := snd (login self rnd username password salt_post login_post) in
  truthy (token self') = true -> logged_in self' = true.
Proof.
  intros Inv. pose proof (login_cases self rnd username password salt_post
                            login_post) as C.
  destruct (login _ _ _ _ _ _) as [[e|u] self']; simpl.
  - subst self'. exact Inv.
  - intros _. exact C.
Qed.

Lemma after_snoc calls c :
  Session.after (calls ++ [c]) = Session.after_call (Session.after calls) c.
Proof. unfold Session.after. rewrite fold_left_app. reflexivity. Qed.

(** C4.  After any sequence of calls on a fresh client, a token that is
    not empty goes with [logged_in]; a call that raises, and every [search]
    and [initiate_download], leaves the session as it was; a [login] that
    returns leaves [logged_in] set, and the token it leaves is the text of
    the first [token] child of the answer to the login request. *)
Theorem session_token_implies_logged_in
    (calls : list Session.call) (c : Session.call) :
  let self := Session.after calls in
  let self' := Session.after (calls ++ [c]) in
  (truthy (token self') = true -> logged_in self' = true)
  /\ (Session.returns self c = false -> self' = self)
  /\ (Session.is_login c = false -> self' = self)
  /\ (Session.is_login c = true -> Session.returns self c = true ->
      logged_in self' = true)
  /\ (forall rnd username password salt_post login_post,
        c = Session.Login rnd username password salt_post login_post ->
        Session.returns self c = true ->
        exists response root token_elem,
          login_post = Http.Responded response
          /\ Http.body response = Xml.Document root
          /\ Xml.find "token" root = Some token_elem
          /\ self' = {| logged_in := true; token := Xml.text token_elem |}).
Proof.
  cbv zeta. rewrite after_snoc. split; [|split; [|split; [|split]]].
  - rewrite <- after_snoc. generalize (calls ++ [c]). clear calls c.
    intros calls. induction calls as [|c calls IH] using rev_ind.
    + discriminate.
    + rewrite after_snoc. destruct c; simpl; try exact IH.
      apply login_keeps_invariant. exact IH.
  - destruct c; simpl; try reflexivity.
    pose proof (login_cases (Session.after calls) rnd username password
                  salt_post login_post) as C.
    destruct (login _ _ _ _ _ _) as [[e|u] self']; simpl;
      [intros _; exact C|discriminate].
  - destruct c; simpl; [discriminate|reflexivity|reflexivity].
  - destruct c; simpl; try discriminate. intros _.
    pose proof (login_cases (Session.after calls) rnd username password
                  salt_post login_post) as C.
    destruct (login _ _ _ _ _ _) as [[e|u] self']; simpl;
      [discriminate|intros _; exact C].
  - intros rnd username password salt_post login_post -> R.
    cbn [Session.after_call Session.returns] in *.
    destruct (login (Session.after calls) rnd username password salt_post
                login_post) as [[e|u] self'] eqn:E; [discriminate|].
    exact (login_stores_token _ _ _ _ _ _ _ _ E).
Qed.

End SessionFacts.

Section SessionSamples.
Import Py WebshareAPI Sample.

(** The sample logins, run. *)
Lemma login_sample self rnd answer :
  login self rnd "alice" "secret" salt_ok (login_ok answer)
  = (ret tt, {| logged_in := true; token := answer |}).
Proof.
  unfold login, login_try.
  change (get_salt "alice" salt_ok) with (@ret (option string) (Some "abcdefgh")).
  cbn [bind ret]. rewrite hash_password_sample. reflexivity.
Qed.

(** C4 on a login that returns with the token "tok". *)
Lemma session_token_implies_logged_in_witness :
  let c := Session.Login "zzzzzzzz" "alice" "secret" salt_ok
             (login_ok (Some "tok")) in
  truthy (token (Session.after ([] ++ [c]))) = true
  /\ Session.is_login c = true
  /\ Session.returns (Session.after []) c = true
  /\ logged_in (Session.after ([] ++ [c])) = true
  /\ Session.after ([] ++ [c])
     = {| logged_in := true; token := Some "tok" |}.
Proof.
  cbv zeta.
  assert (R : Session.returns (Session.after [])
                (Session.Login "zzzzzzzz" "alice" "secret" salt_ok
                   (login_ok (Some "tok"))) = true).
  { cbn [Session.returns]. rewrite login_sample. reflexivity. }
  destruct (session_token_implies_logged_in []
              (Session.Login "zzzzzzzz" "alice" "secret" salt_ok
                 (login_ok (Some "tok")))) as (T & _ & _ & L & S).
  destruct (S _ _ _ _ _ eq_refl R)
    as (response & root & token_elem & Er & Eb & Et & Es).
  injection Er as <-. injection Eb as <-. injection Et as <-.
  split; [rewrite Es; reflexivity|]. split; [reflexivity|].
  split; [exact R|]. split; [apply L; [reflexivity|exact R]|exact Es].
Defined.

(** Against C4 as stated: a [login] answered OK with an empty token element
    returns and leaves the session logged in with no token; and a [login]
    that raises after one that returned leaves the session logged in, the
    token in place. *)
Lemma session_token_iff_logged_in_counterexample :
  (let self := Session.after
       [Session.Login "zzzzzzzz" "alice" "secret" salt_ok (login_ok None)] in
   Session.returns WebshareAPI.init
     (Session.Login "zzzzzzzz" "alice" "secret" salt_ok (login_ok None))
   = true
   /\ logged_in self = true /\ token self = None)
  /\ (let first := Session.Login "zzzzzzzz" "alice" "secret" salt_ok
                     (login_ok (Some "tok")) in
      let second := Session.Login "zzzzzzzz" "alice" "secret"
                      (Http.Failed "connection reset") (login_ok None) in
      Session.returns (Session.after [first]) second = false
      /\ logged_in (Session.after [first; second]) = true
      /\ token (Session.after [first; second]) = Some "tok").
Proof.
  cbv zeta. unfold Session.after.
  cbn [fold_left Session.after_call Session.returns].
  rewrite !login_sample. repeat split.
Qed.

End SessionSamples.

(* ===================================================================== *)
(** * The guard of [search] and [initiate_download] *)
(* ===================================================================== *)

Section Guard.
Import Py WebshareAPI.


Lemma format_file_size_error n e :
  _format_file_size n = inl e ->
  e = Raise OverflowError "int too large to convert to float".
Proof.
  unfold _format_file_size. destruct (n =? 0); [discriminate|].
  unfold Float64.of_int. destruct (Float64.overflows _).
  - intros E. injection E as <-. reflexivity.
  - unfold bind, ret. destruct (scale_size _ _ _). discriminate.
Qed.

Lemma parse_files_error files : forall e,
  parse_files files = inl e ->
  e = Raise OverflowError "int too large to convert to float".
Proof.
  induction files as [|f rest IH]; intros e; [discriminate|].
  simpl. unfold parse_file.
  destruct (_format_file_size _) as [e0|sf] eqn:Ef; simpl.
  - intros E. injection E as <-. exact (format_file_size_error _ _ Ef).
  - destruct (parse_files rest) as [e1|rs]; simpl; [|discriminate].
    intros E. injection E as <-. apply IH. reflexivity.
Qed.


Lemma guard_rejects self query file_id post :
  logged_in self = false \/ truthy (token self) = false ->
  search self query post = inl Session.search_not_logged_in
  /\ initiate_download self file_id post = inl Session.download_not_logged_in.
Proof.
  intros Hg. unfold search, initiate_download, require_login.
  assert (E : negb (logged_in self) || negb (truthy (token self)) = true)
    by (destruct Hg as [-> | ->]; [reflexivity|apply orb_true_r]).
  rewrite E. split; reflexivity.
Qed.

Context {H : HashLib}.



End Guard.

Section GuardSamples.
Import Py WebshareAPI Sample.



End GuardSamples.

(* ===================================================================== *)
(** * The progress formula *)
(* ===================================================================== *)

Section ProgressFormula.
Import Py Float64 App.
Local Open Scope Q_scope.

Lemma ratio_nonneg d t : (0 <= d)%Z -> (0 < t)%Z -> 0 <= inject_Z d / inject_Z t.
Proof.
  intros Hd Ht. apply Qle_shift_div_l.
  - replace 0 with (inject_Z 0) by reflexivity. rewrite <- Zlt_Qlt. exact Ht.
  - rewrite Qmult_0_l. replace 0 with (inject_Z 0) by reflexivity.
    rewrite <- Zle_Qle. exact Hd.
Qed.

Lemma ratio_mono d d' t :
  (d <= d')%Z -> (0 < t)%Z -> inject_Z d / inject_Z t <= inject_Z d' / inject_Z t.
Proof.
  intros Hd Ht. unfold Qdiv. apply Qmult_le_compat_r.
  - rewrite <- Zle_Qle. exact Hd.
  - apply Qlt_le_weak, Qinv_lt_0_compat.
    replace 0 with (inject_Z 0) by reflexivity. rewrite <- Zlt_Qlt. exact Ht.
Qed.

(** A ratio of ints against a fraction, by cross multiplication. *)
Lemma ratio_le_frac d t n m :
  (0 < t)%Z -> (d * Z.pos m <= n * t)%Z -> inject_Z d / inject_Z t <= n # m.
Proof.
  intros Ht Hc. destruct t as [|p|p]; try lia.
  unfold Qle, Qdiv, Qmult, Qinv, inject_Z. simpl. lia.
Qed.

Lemma frac_le_ratio d t n m :
  (0 < t)%Z -> (n * t <= d * Z.pos m)%Z -> n # m <= inject_Z d / inject_Z t.
Proof.
  intros Ht Hc. destruct t as [|p|p]; try lia.
  unfold Qle, Qdiv, Qmult, Qinv, inject_Z. simpl. lia.
Qed.

Lemma eightieths_mono x y : 0 <= x -> x <= y -> (eightieths x <= eightieths y)%Z.
Proof.
  intros Hx Hxy. unfold eightieths. apply Qfloor_resp_le.
  pose proof (round_nonneg x Hx) as Rx.
  pose proof (round_mono x y Hx Hxy) as Rxy.
  apply round_mono; [|apply Qmult_le_compat_r]; lra.
Qed.

Lemma eightieths_nonneg x : 0 <= x -> (0 <= eightieths x)%Z.
Proof.
  intros Hx. unfold eightieths.
  rewrite <- (Qfloor_Z 0). apply Qfloor_resp_le.
  pose proof (round_nonneg x Hx) as Rx.
  apply round_nonneg. change (inject_Z 0) with 0. lra.
Qed.

Lemma not_overflows x b :
  0 <= x -> x <= pow2 b -> (b < 1024)%Z -> overflows x = false.
Proof.
  intros Hx Hb Hlt. unfold overflows.
  destruct (Qle_bool (pow2 1024) (Qabs x)) eqn:E; [|reflexivity].
  apply Qle_bool_iff in E. rewrite (Qabs_pos x Hx) in E.
  pose proof (pow2_lt b 1024 Hlt). lra.
Qed.

Lemma round_pow2_64 : round (pow2 64) <= pow2 64.
Proof. apply Qle_bool_iff. vm_compute. reflexivity. Qed.

Lemma round_pow2_71 : round (pow2 71) <= pow2 71.
Proof. apply Qle_bool_iff. vm_compute. reflexivity. Qed.

(** What line 148 computes when it does not raise. *)
Lemma progress_percent_value d t p :
  (0 <= d)%Z -> (0 < t)%Z ->
  progress_percent d t = inr p ->
  p = Z.min 90 (10 + eightieths (inject_Z d / inject_Z t)).
Proof.
  intros Hd Ht. unfold progress_percent, truediv.
  destruct (Z.eqb_spec t 0) as [->|_]; [lia|].
  destruct (overflows _); [discriminate|]. simpl.
  unfold mul. destruct (overflows _); [discriminate|]. simpl.
  unfold trunc, eightieths.
  pose proof (round_nonneg _ (ratio_nonneg d t Hd Ht)) as R1.
  assert (R2 : 0 <= round (round (inject_Z d / inject_Z t) * 80))
    by (apply round_nonneg; lra).
  apply Qle_bool_iff in R2. rewrite R2.
  intros E. injection E as <-. reflexivity.
Qed.

(** It does not raise on sizes below [2^64]. *)
Lemma progress_percent_defined d t :
  (0 <= d < 2 ^ 64)%Z -> (0 < t)%Z ->
  progress_percent d t
  = inr (Z.min 90 (10 + eightieths (inject_Z d / inject_Z t))).
Proof.
  intros Hd Ht.
  set (x := inject_Z d / inject_Z t).
  assert (Hx : 0 <= x) by (apply ratio_nonneg; lia).
  assert (Hx64 : x <= pow2 64).
  { rewrite <- pow2_Z by lia. change (inject_Z (2 ^ 64)) with ((2 ^ 64)%Z # 1).
    apply ratio_le_frac; [exact Ht|]. nia. }
  pose proof (round_nonneg x Hx) as R1.
  assert (R1b : round x <= pow2 64).
  { apply Qle_trans with (round (pow2 64)); [|apply round_pow2_64].
    apply round_mono; assumption. }
  assert (Hp : 0 <= round x * 80) by lra.
  assert (Hp71 : round x * 80 <= pow2 71).
  { replace 71%Z with (64 + 7)%Z by reflexivity. rewrite pow2_add.
    change (pow2 7) with 128. pose proof (pow2_pos 64). lra. }
  pose proof (round_nonneg _ Hp) as R2.
  assert (R2b : round (round x * 80) <= pow2 71).
  { apply Qle_trans with (round (pow2 71)); [|apply round_pow2_71].
    apply round_mono; assumption. }
  unfold progress_percent, truediv.
  destruct (Z.eqb_spec t 0) as [->|_]; [lia|]. fold x.
  rewrite (not_overflows (round x) 64 R1 R1b) by lia. simpl.
  unfold mul. rewrite (not_overflows _ 71 R2 R2b) by lia. simpl.
  unfold trunc. apply Qle_bool_iff in R2. rewrite R2. reflexivity.
Qed.

Lemma progress_percent_mono d d' t p p' :
  (0 <= d <= d')%Z -> (0 < t)%Z ->
  progress_percent d t = inr p -> progress_percent d' t = inr p' ->
  (p <= p')%Z.
Proof.
  intros Hd Ht E E'.
  apply progress_percent_value in E; [|lia|exact Ht].
  apply progress_percent_value in E'; [|lia|exact Ht].
  pose proof (eightieths_mono _ _ (ratio_nonneg d t ltac:(lia) Ht)
                (ratio_mono d d' t ltac:(lia) Ht)).
  lia.
Qed.

Lemma progress_percent_bounds d t p :
  (0 <= d)%Z -> (0 < t)%Z -> progress_percent d t = inr p -> (10 <= p <= 90)%Z.
Proof.
  intros Hd Ht E. apply progress_percent_value in E; [|exact Hd|exact Ht].
  pose proof (eightieths_nonneg _ (ratio_nonneg d t Hd Ht)). lia.
Qed.

End ProgressFormula.

Section ProgressExact.
Import Py Float64 App.
Local Open Scope Z_scope.

Lemma eightieths_table_holds : eightieths_table (2 ^ 46) = true.
Proof. vm_compute. reflexivity. Qed.

Lemma eightieths_table_at k :
  0 <= k < 80 ->
  eightieths (k # 80) = k
  /\ eightieths (((k + 1) * Z.pos (2 ^ 46) - 1) # (80 * 2 ^ 46)) = k.
Proof.
  intros Hk. pose proof eightieths_table_holds as T.
  unfold eightieths_table in T. apply andb_true_iff in T as [T _].
  rewrite forallb_forall in T.
  assert (Hin : In k (map Z.of_nat (seq 0 80))).
  { apply in_map_iff. exists (Z.to_nat k). split; [lia|].
    apply in_seq. lia. }
  specialize (T k Hin). apply andb_true_iff in T as [T1 T2].
  split; apply Z.eqb_eq; assumption.
Qed.

Lemma eightieths_one : eightieths 1 = 80.
Proof.
  pose proof eightieths_table_holds as T.
  unfold eightieths_table in T. apply andb_true_iff in T as [_ T].
  apply Z.eqb_eq. exact T.
Qed.

(** Below 64 TiB the float expression agrees with the exact formula. *)
Lemma eightieths_exact d t :
  0 <= d -> 0 < t <= 2 ^ 46 ->
  Z.min 90 (10 + eightieths (inject_Z d / inject_Z t))
  = Spec.progressPercent d t.
Proof.
  intros Hd Ht. unfold Spec.progressPercent.
  set (k := 80 * d / t).
  assert (Hk1 : t * k <= 80 * d) by (apply Z.mul_div_le; lia).
  assert (Hk2 : 80 * d < t * Z.succ k) by (apply Z.mul_succ_div_gt; lia).
  assert (Hk0 : 0 <= k) by (apply Z.div_pos; lia).
  pose proof (ratio_nonneg d t Hd ltac:(lia)) as Hx.
  destruct (Z_lt_ge_dec k 80) as [Hlt|Hge].
  - destruct (eightieths_table_at k ltac:(lia)) as [Lo Hi].
    assert (L : (k # 80 <= inject_Z d / inject_Z t)%Q)
      by (apply frac_le_ratio; lia).
    assert (U : (inject_Z d / inject_Z t
                 <= ((k + 1) * Z.pos (2 ^ 46) - 1) # (80 * 2 ^ 46))%Q).
    { apply ratio_le_frac; [lia|].
      change (Z.pos (80 * 2 ^ 46)) with (80 * 2 ^ 46).
      change (Z.pos (2 ^ 46)) with (2 ^ 46). nia. }
    assert (L0 : (0 <= k # 80)%Q) by (unfold Qle; simpl; lia).
    pose proof (eightieths_mono _ _ L0 L) as M1.
    pose proof (eightieths_mono _ _ Hx U) as M2.
    rewrite Lo in M1. rewrite Hi in M2. f_equal. lia.
  - assert (L : (1 <= inject_Z d / inject_Z t)%Q).
    { change 1%Q with (1 # 1). apply frac_le_ratio; [lia|]. nia. }
    pose proof (eightieths_mono 1 _ ltac:(lra) L) as M.
    rewrite eightieths_one in M. lia.
Qed.

End ProgressExact.

(* ===================================================================== *)
(** * Steps of the process *)
(* ===================================================================== *)

Section Steps.
Import Py App.
Context {H : HashLib}.

Lemma step_exec s tid w a rest :
  threads s !! tid = Some (WorkerThread w (a :: rest)) ->
  step s (Exec tid) = Some (execute s tid w a rest, Silent).
Proof. intros E. unfold step. rewrite E. reflexivity. Qed.

Lemma step_run_worker s tid w ev acts w' :
  threads s !! tid = Some (WorkerThread w []) ->
  run_segment (client s) w ev = Some (acts, w') ->
  at_pc w <> AtResolve ->
  step s (Run tid ev)
  = Some (with_threads (<[tid := WorkerThread w' acts]> (threads s)) s, Silent).
Proof.
  intros E R N. unfold step. rewrite E, R.
  destruct (at_pc w); try reflexivity. congruence.
Qed.


(** A [SetItem] on an entry that is there. *)
Lemma execute_set_item s tid w i rest j :
  threads s !! tid = Some (WorkerThread w (SetItem i :: rest)) ->
  active_downloads s !! file_id w = Some j ->
  let s' := execute s tid w (SetItem i) rest in
  threads s' !! tid = Some (WorkerThread w rest)
  /\ active_downloads s' !! file_id w = Some (set_item i j)
  /\ client s' = client s /\ now s' = now s.
Proof.
  intros Et Ej. simpl. rewrite Ej. simpl. repeat split.
  - apply list_lookup_insert_eq. eapply lookup_lt_Some. exact Et.
  - apply lookup_insert_eq.
Qed.

End Steps.

(* ===================================================================== *)
(** * Progress while streaming *)
(* ===================================================================== *)

Section Streaming.
Import Py App.
Context {H : HashLib}.

(** C5.  While a worker streams a file of at most [2^46] bytes, with
    sizes that fit 64 bits, a chunk that is not empty and is written to
    disk leaves the job's progress at
    [min(90, 10 + floor(80 * downloaded / total))], and its downloaded size
    at the bytes received so far. *)
Theorem chunk_progress
    (s : world) (tid : nat) (w : worker) (j : job)
    (chunk : list Byte.byte) (total_size downloaded_size : Z)
    (file_path : string) :
  threads s !! tid = Some (WorkerThread w []) ->
  at_pc w = AtStream total_size downloaded_size file_path ->
  active_downloads s !! file_id w = Some j ->
  chunk <> [] ->
  0 < total_size <= 2 ^ 46 ->
  0 <= downloaded_size ->
  downloaded_size + Z.of_nat (length chunk) < 2 ^ 64 ->
  exists s' replies j',
    run s [Run tid (Chunk chunk None); Exec tid; Exec tid; Exec tid]
      = Some (s', replies)
    /\ active_downloads s' !! file_id w = Some j'
    /\ j_progress j'
       = Spec.progressPercent (downloaded_size + Z.of_nat (length chunk))
           total_size
    /\ j_downloadedSize j'
       = Some (downloaded_size + Z.of_nat (length chunk)).
Proof.
  intros Et Epc Ej Hne Ht Hd Hd'.
  set (d' := downloaded_size + Z.of_nat (length chunk)) in *.
  set (w' := Worker (file_id w) (file_name w) (download_path w)
               (AtStream total_size d' file_path)).
  set (p := Spec.progressPercent d' total_size).
  assert (Eseg : run_segment (client s) w (Chunk chunk None)
                 = Some ([SetItem (Progress p);
                          SetItem (Message
                            ("Downloading... " +:+ str_of_int (p - 10) +:+ "%"));
                          SetItem (DownloadedSize d')], w')).
  { unfold run_segment. rewrite Epc. unfold on_chunk.
    destruct chunk as [|b r]; [congruence|].
    destruct (Z.ltb_spec 0 total_size) as [_|]; [|lia].
    fold d'. rewrite progress_percent_defined by lia.
    rewrite eightieths_exact by lia. reflexivity. }
  unfold run.
  rewrite (step_run_worker s tid w _ _ _ Et Eseg) by (rewrite Epc; discriminate).
  set (s1 := with_threads _ s).
  assert (Et1 : threads s1 !! tid = Some (WorkerThread w'
            [SetItem (Progress p);
             SetItem (Message
               ("Downloading... " +:+ str_of_int (p - 10) +:+ "%"));
             SetItem (DownloadedSize d')]))
    by (apply list_lookup_insert_eq; eapply lookup_lt_Some; exact Et).
  assert (Ej1 : active_downloads s1 !! file_id w' = Some j) by exact Ej.
  rewrite (step_exec s1 tid w' _ _ Et1).
  destruct (execute_set_item s1 tid w' _ _ j Et1 Ej1) as (Et2 & Ej2 & _).
  set (s2 := execute s1 tid w' _ _) in *.
  rewrite (step_exec s2 tid w' _ _ Et2).
  destruct (execute_set_item s2 tid w' _ _ _ Et2 Ej2) as (Et3 & Ej3 & _).
  set (s3 := execute s2 tid w' _ _) in *.
  rewrite (step_exec s3 tid w' _ _ Et3).
  destruct (execute_set_item s3 tid w' _ _ _ Et3 Ej3) as (Et4 & Ej4 & _).
  set (s4 := execute s3 tid w' _ _) in *.
  eexists s4, _, _. split; [reflexivity|].
  split; [exact Ej4|]. split; reflexivity.
Qed.

End Streaming.

Section StreamingSamples.
Import Py App Sample.

(** C5 on the first 16 bytes of a file of 1280 bytes. *)
Lemma chunk_progress_witness :
  exists s' replies j',
    run (streaming_world 1280 0)
      [Run 0 (Chunk (repeat Byte.x00 16) None); Exec 0; Exec 0; Exec 0]
      = Some (s', replies)
    /\ active_downloads s' !! "f1" = Some j'
    /\ j_progress j' = 11
    /\ j_downloadedSize j' = Some 16.
Proof.
  destruct (chunk_progress (streaming_world 1280 0) 0
              (Worker "f1" (Some "a.iso") "/downloads"
                 (AtStream 1280 0 "/downloads/a.iso"))
              (set_item (Progress 10) (new_job (Some "a.iso") 0))
              (repeat Byte.x00 16) 1280 0 "/downloads/a.iso"
              eq_refl eq_refl eq_refl)
    as (s' & replies & j' & R & J & P & D).
  - discriminate.
  - lia.
  - lia.
  - simpl. lia.
  - exists s', replies, j'.
    split; [exact R|]. split; [exact J|]. split; [|exact D].
    rewrite P. reflexivity.
Defined.

(** Against C5 as stated: with a total of [2^55] bytes, the chunk that
    brings the download to one byte short of the total sets the progress
    to 90, where the formula gives 89. *)
Lemma chunk_progress_counterexample :
  progress_percent (2 ^ 55 - 1) (2 ^ 55) = inr 90
  /\ Spec.progressPercent (2 ^ 55 - 1) (2 ^ 55) = 89
  /\ exists s' replies j',
       run (streaming_world (2 ^ 55) (2 ^ 55 - 2))
         [Run 0 (Chunk [Byte.x00] None); Exec 0; Exec 0; Exec 0]
         = Some (s', replies)
       /\ active_downloads s' !! "f1" = Some j'
       /\ j_progress j' = 90
       /\ j_downloadedSize j' = Some (2 ^ 55 - 1).
Proof.
  split; [vm_compute; reflexivity|]. split; [reflexivity|].
  eexists _, _, _. split; [vm_compute; reflexivity|].
  split; [vm_compute; reflexivity|]. split; reflexivity.
Qed.

End StreamingSamples.

(* ===================================================================== *)
(** * Progress over a whole run of a worker *)
(* ===================================================================== *)

Section WorkerRun.
Import Py App.

Lemma run_worker_finished client w evs :
  at_pc w = Finished -> run_worker client w evs = [].
Proof.
  intros E. induction evs as [|ev rest IH]; [reflexivity|].
  simpl. unfold run_segment. rewrite E. exact IH.
Qed.

Lemma run_worker_steady client evs : forall w last,
  last_written (at_pc w) last -> steady last (run_worker client w evs).
Proof.
  induction evs as [|ev rest IH]; intros w last Hinv; [exact I|].
  simpl. destruct (run_segment client w ev) as [[acts w']|] eqn:Eseg;
    [|apply IH; exact Hinv].
  unfold run_segment in Eseg.
  destruct (at_pc w) as [| |url expected fp|t d fp|] eqn:Epc; simpl in Hinv.
  - (* AtStart *)
    destruct ev; try discriminate. injection Eseg as <- <-. subst last.
    simpl. split; [lia|]. apply IH. reflexivity.
  - (* AtResolve *)
    destruct ev; try discriminate. injection Eseg as Eseg. subst last.
    unfold resolve in Eseg.
    destruct (WebshareAPI.initiate_download _ _ _) as [e|info].
    { injection Eseg as <- <-. rewrite run_worker_finished by reflexivity.
      reflexivity. }
    destruct makedirs_error as [err|].
    { injection Eseg as <- <-. rewrite run_worker_finished by reflexivity.
      reflexivity. }
    destruct (if truthy (file_name w) then file_name w
              else WebshareAPI.fileName info) as [name|].
    + injection Eseg as <- <-. simpl. split; [lia|]. apply IH. reflexivity.
    + injection Eseg as <- <-. rewrite run_worker_finished by reflexivity.
      reflexivity.
  - (* AtConnect *)
    destruct ev; try discriminate. injection Eseg as Eseg. subst last.
    unfold connect in Eseg.
    destruct get as [err|response].
    { injection Eseg as <- <-. rewrite run_worker_finished by reflexivity.
      reflexivity. }
    destruct (get_http_error response).
    { injection Eseg as <- <-. rewrite run_worker_finished by reflexivity.
      reflexivity. }
    destruct (match content_length response with
              | Some text => Py.int text
              | None => ret expected
              end) as [e|total].
    { injection Eseg as <- <-. rewrite run_worker_finished by reflexivity.
      reflexivity. }
    destruct open_error as [err|].
    { injection Eseg as <- <-. rewrite run_worker_finished by reflexivity.
      simpl. split; [lia|reflexivity]. }
    injection Eseg as <- <-. simpl. split; [lia|]. apply IH. simpl.
    split; [lia|]. split; [lia|].
    intros Ht d p' Hd Ep. apply progress_percent_bounds in Ep; lia.
  - (* AtStream *)
    destruct Hinv as (Hd & Hlast & Hnext).
    destruct ev; try discriminate.
    + (* a chunk *)
      injection Eseg as Eseg. unfold on_chunk in Eseg.
      destruct chunk as [|b r].
      { injection Eseg as <- <-. simpl. apply IH. rewrite Epc. simpl.
        auto. }
      destruct write_error as [err|].
      { injection Eseg as <- <-. rewrite run_worker_finished by reflexivity.
        reflexivity. }
      set (d' := d + Z.of_nat (length (b :: r))) in *.
      assert (Hd' : d <= d') by (unfold d'; lia).
      destruct (Z.ltb_spec 0 t) as [Ht|Ht].
      * destruct (progress_percent d' t) as [e|p] eqn:Ep.
        { injection Eseg as <- <-. rewrite run_worker_finished by reflexivity.
          reflexivity. }
        injection Eseg as <- <-.
        pose proof (progress_percent_bounds d' t p ltac:(lia) Ht Ep) as Hb.
        pose proof (Hnext Ht d' p Hd' Ep) as Hl.
        simpl. split; [lia|]. apply IH. simpl.
        split; [lia|]. split; [lia|].
        intros _ d2 p2 Hd2 Ep2.
        apply (progress_percent_mono d' d2 t p p2); auto. lia.
      * injection Eseg as <- <-. simpl. apply IH. simpl.
        split; [lia|]. split; [lia|]. intros Ht'. lia.
    + (* the stream raises *)
      injection Eseg as <- <-. rewrite run_worker_finished by reflexivity.
      reflexivity.
    + (* the stream ends *)
      injection Eseg as Eseg. unfold finish in Eseg.
      destruct (WebshareAPI._format_file_size d);
        injection Eseg as <- <-; rewrite run_worker_finished by reflexivity;
        simpl; eexists; split; reflexivity.
  - destruct ev; discriminate.
Qed.

Lemma quiet_no_progress acts :
  quiet acts -> progress_writes (before is_fail acts) = [].
Proof.
  induction acts as [|a rest IH]; [reflexivity|].
  destruct a as [fn|i| |fn err]; simpl; try contradiction; try reflexivity.
  - destruct i; simpl; try contradiction; exact IH.
  - exact IH.
Qed.

Lemma quiet_fail_last acts pre fn err post :
  quiet acts -> acts = pre ++ Fail fn err :: post -> post = [].
Proof.
  revert pre. induction acts as [|a rest IH]; intros pre Hq E.
  - destruct pre; discriminate.
  - destruct pre as [|a' pre'].
    + simpl in E. injection E as -> ->. exact Hq.
    + simpl in E. injection E as <- E.
      apply (IH pre'); [|exact E].
      destruct a as [fn'|i| |fn' err']; simpl in Hq; try contradiction.
      * destruct i; try contradiction; exact Hq.
      * exact Hq.
      * subst rest. destruct pre'; discriminate.
Qed.

Lemma quiet_not_completed acts pre post :
  quiet acts -> acts <> pre ++ SetItem (Status Completed) :: post.
Proof.
  revert pre. induction acts as [|a rest IH]; intros pre Hq E.
  - destruct pre; discriminate.
  - destruct pre as [|a' pre'].
    + simpl in E. injection E as -> _. exact Hq.
    + simpl in E. injection E as <- E.
      destruct a as [fn'|i| |fn' err']; simpl in Hq; try contradiction.
      * destruct i; try contradiction; exact (IH pre' Hq E).
      * exact (IH pre' Hq E).
      * subst rest. destruct pre'; discriminate.
Qed.

Lemma steady_sorted acts : forall last,
  last <= 90 -> steady last acts ->
  StronglySorted Z.le (last :: progress_writes (before is_fail acts)).
Proof.
  induction acts as [|a rest IH]; intros last Hl Hs.
  - repeat constructor.
  - destruct a as [fn|i| |fn err]; simpl in *.
    + destruct Hs as [H0 Hs]. specialize (IH 0 ltac:(lia) Hs).
      constructor; [exact IH|]. constructor; [exact H0|].
      apply StronglySorted_inv in IH as [_ F].
      eapply Forall_impl; [exact F|]. simpl. intros; lia.
    + destruct i; try (apply IH; assumption).
      * destruct s; try contradiction.
        destruct Hs as (rest' & -> & Hq). simpl.
        rewrite (quiet_no_progress rest' Hq).
        repeat constructor. lia.
      * destruct Hs as [Hp Hs]. specialize (IH p ltac:(lia) Hs).
        constructor; [exact IH|]. constructor; [lia|].
        apply StronglySorted_inv in IH as [_ F].
        eapply Forall_impl; [exact F|]. simpl. intros; lia.
    + apply IH; assumption.
    + repeat constructor.
Qed.

Lemma steady_bounded acts : forall last,
  steady last acts ->
  Forall (fun p => p <= 90)
    (progress_writes (before is_completed (before is_fail acts))).
Proof.
  induction acts as [|a rest IH]; intros last Hs; [constructor|].
  destruct a as [fn|i| |fn err]; simpl in *.
  - destruct Hs as [_ Hs]. constructor; [lia|]. exact (IH 0 Hs).
  - destruct i; try exact (IH last Hs).
    + destruct s; try contradiction. constructor.
    + destruct Hs as [Hp Hs]. constructor; [lia|]. exact (IH p Hs).
  - exact (IH last Hs).
  - constructor.
Qed.

Lemma steady_completed acts : forall last pre post,
  steady last acts -> acts = pre ++ SetItem (Status Completed) :: post ->
  exists post', post = SetItem (Progress 100) :: post'.
Proof.
  induction acts as [|a rest IH]; intros last pre post Hs E.
  - destruct pre; discriminate.
  - destruct pre as [|a' pre'].
    + simpl in E. injection E as -> ->. simpl in Hs.
      destruct Hs as (rest' & -> & _). eexists. reflexivity.
    + simpl in E. injection E as <- E.
      destruct a as [fn|i| |fn err]; simpl in Hs.
      * destruct Hs as [_ Hs]. exact (IH _ _ _ Hs E).
      * destruct i; try exact (IH _ _ _ Hs E).
        -- destruct s; try contradiction.
           destruct Hs as (rest' & -> & Hq).
           destruct pre' as [|b pre'']; [discriminate|].
           simpl in E. injection E as _ E.
           exfalso. exact (quiet_not_completed _ _ _ Hq E).
        -- destruct Hs as [_ Hs]. exact (IH _ _ _ Hs E).
      * exact (IH _ _ _ Hs E).
      * subst rest. destruct pre'; discriminate.
Qed.

Lemma steady_fail_last acts : forall last pre fn err post,
  steady last acts -> acts = pre ++ Fail fn err :: post -> post = [].
Proof.
  induction acts as [|a rest IH]; intros last pre fn err post Hs E.
  - destruct pre; discriminate.
  - destruct pre as [|a' pre'].
    + simpl in E. injection E as -> ->. exact Hs.
    + simpl in E. injection E as <- E.
      destruct a as [fn'|i| |fn' err']; simpl in Hs.
      * destruct Hs as [_ Hs]. exact (IH _ _ _ _ _ Hs E).
      * destruct i; try exact (IH _ _ _ _ _ Hs E).
        -- destruct s; try contradiction.
           destruct Hs as (rest' & -> & Hq).
           destruct pre' as [|b pre'']; [discriminate|].
           simpl in E. injection E as _ E.
           exact (quiet_fail_last _ _ _ _ _ Hq E).
        -- destruct Hs as [_ Hs]. exact (IH _ _ _ _ _ Hs E).
      * exact (IH _ _ _ _ _ Hs E).
      * subst rest. destruct pre'; discriminate.
Qed.

(** C6.  Along any run of a worker, the values it writes to the progress
    of its job before the handler runs never decrease; those written before
    the status becomes completed are at most 90, and the write that follows
    the status write is 100.  The handler, which makes the status error,
    runs last and writes 0. *)
Theorem worker_progress_monotone
    (client : WebshareAPI.t) (file_id : string) (file_name : option string)
    (download_path : string) (evs : list event) :
  let acts :=
    run_worker client (Worker file_id file_name download_path AtStart) evs in
  StronglySorted Z.le (progress_writes (before is_fail acts))
  /\ Forall (fun p => p <= 90)
       (progress_writes (before is_completed (before is_fail acts)))
  /\ (forall pre post,
        acts = pre ++ SetItem (Status Completed) :: post ->
        exists post', post = SetItem (Progress 100) :: post')
  /\ (forall pre fn err post,
        acts = pre ++ Fail fn err :: post ->
        post = [] /\ progress_written (Fail fn err) = [0]).
Proof.
  cbv zeta.
  pose proof (run_worker_steady client evs
                (Worker file_id file_name download_path AtStart) 0 eq_refl)
    as Hs.
  split; [|split; [|split]].
  - pose proof (steady_sorted _ 0 ltac:(lia) Hs) as S.
    apply StronglySorted_inv in S as [S _]. exact S.
  - exact (steady_bounded _ 0 Hs).
  - intros pre post E. exact (steady_completed _ 0 pre post Hs E).
  - intros pre fn err post E. split; [|reflexivity].
    exact (steady_fail_last _ 0 pre fn err post Hs E).
Qed.

End WorkerRun.

Section WorkerRunSamples.
Import Py App Sample.

(** C6 on a download of 32 bytes in two chunks. *)
Lemma worker_progress_monotone_witness :
  let acts :=
    run_worker (WebshareAPI.Build true (Some "tok"))
      (Worker "f1" (Some "a.iso") "/downloads" AtStart)
      [Scheduled; Resolved (file_link_ok (Some "32")) None;
       Connected (GetResponded (StreamResponse None (Some "32"))) None;
       Chunk (repeat Byte.x00 16) None; Chunk (repeat Byte.x00 16) None;
       StreamEnd] in
  let pre :=
    [Register (Some "a.iso"); SetItem (Message "Connecting to server...");
     SetItem (Progress 5); SetItem (Message "Downloading... 0%");
     SetItem (Progress 10); SetItem (TotalSize 32);
     SetItem (Progress 50); SetItem (Message "Downloading... 40%");
     SetItem (DownloadedSize 16); SetItem (Progress 90);
     SetItem (Message "Downloading... 80%"); SetItem (DownloadedSize 32)] in
  let post :=
    [SetItem (Progress 100); SetItem (Message "Download completed!");
     SetItem (FilePath "/downloads/a.iso"); SetItem (FinalSize 32);
     StartCleanup] in
  acts = pre ++ SetItem (Status Completed) :: post
  /\ progress_writes acts = [0; 5; 10; 50; 90; 100]
  /\ exists post', post = SetItem (Progress 100) :: post'.
Proof.
  intros acts pre post. split; [vm_compute; reflexivity|].
  split; [vm_compute; reflexivity|].
  destruct (worker_progress_monotone (WebshareAPI.Build true (Some "tok"))
              "f1" (Some "a.iso") "/downloads"
              [Scheduled; Resolved (file_link_ok (Some "32")) None;
               Connected (GetResponded (StreamResponse None (Some "32"))) None;
               Chunk (repeat Byte.x00 16) None;
               Chunk (repeat Byte.x00 16) None; StreamEnd])
    as (_ & _ & C & _).
  apply (C pre post). vm_compute. reflexivity.
Defined.

(** Against C6 as stated: a worker whose connection fails after it has set
    the progress to 5 writes 0, 5 and then, in the handler, 0. *)
Lemma worker_progress_counterexample :
  progress_writes
    (run_worker (WebshareAPI.Build true (Some "tok"))
       (Worker "f1" (Some "a.iso") "/downloads" AtStart)
       [Scheduled; Resolved (file_link_ok (Some "32")) None;
        Connected (GetFailed "connection timed out") None])
  = [0; 5; 0].
Proof. vm_compute. reflexivity. Qed.

End WorkerRunSamples.

(* ===================================================================== *)
(** * Starting a download *)
(* ===================================================================== *)

Section Start.
Import Py App.
Context {H : HashLib}.

(** A request for a file id that has an entry answers from the entry and
    changes nothing. *)
Lemma download_existing s file_id fname j :
  active_downloads s !! file_id = Some j ->
  file_id <> EmptyString ->
  download s (Some file_id) fname
  = (s, AlreadyInProgress ("Download already in progress: " +:+ fmt fname)
          (j_status j) (j_progress j)).
Proof.
  intros Ej Hne. unfold download.
  assert (Et : truthy (Some file_id) = true).
  { simpl. apply negb_true_iff. apply String.eqb_neq. exact Hne. }
  rewrite Et, Ej. reflexivity.
Qed.



End Start.

Section StartSamples.
Import Py App Sample.



(** C2.  Two requests for the same file id, the second made before the
    worker of the first has run, both start a worker, and
    [initiate_download] is called twice for that id: the code does not keep
    to one worker per file id. *)
Theorem concurrent_start_resolves_twice :
  exists s,
    run logged_in_world
      [Download (Some "f1") (Some "a.iso");
       Download (Some "f1") (Some "a.iso");
       Run 0 Scheduled; Exec 0; Run 1 Scheduled; Exec 1;
       Run 0 (Resolved (file_link_ok (Some "32")) None);
       Run 1 (Resolved (file_link_ok (Some "32")) None)]
    = Some (s, [Started "Download started: a.iso" "f1";
                Started "Download started: a.iso" "f1";
                Silent; Silent; Silent; Silent; Silent; Silent])
    /\ resolve_calls s = ["f1"; "f1"]
    /\ threads s
       = [WorkerThread
            (Worker "f1" (Some "a.iso") "/downloads"
               (AtConnect (Some "https://dl.example/f") 32 "/downloads/a.iso"))
            [SetItem (Message "Connecting to server...");
             SetItem (Progress 5)];
          WorkerThread
            (Worker "f1" (Some "a.iso") "/downloads"
               (AtConnect (Some "https://dl.example/f") 32 "/downloads/a.iso"))
            [SetItem (Message "Connecting to server...");
             SetItem (Progress 5)]].
Proof. eexists. split; [vm_compute; reflexivity|]. split; reflexivity. Qed.

(** C3.  The check of [active_downloads] and the creation of the entry are
    not one step: after a request has passed the check and started its
    worker there is still no entry, so a second request for the same id
    passes the check as well. *)
Theorem start_check_then_create :
  exists s,
    run logged_in_world
      [Download (Some "f1") (Some "a.iso"); Poll "f1";
       Download (Some "f1") (Some "a.iso"); Poll "f1"]
    = Some (s, [Started "Download started: a.iso" "f1"; NotFound;
                Started "Download started: a.iso" "f1"; NotFound])
    /\ active_downloads s = ∅
    /\ threads s
       = [WorkerThread (Worker "f1" (Some "a.iso") "/downloads" AtStart) [];
          WorkerThread (Worker "f1" (Some "a.iso") "/downloads" AtStart) []].
Proof. eexists. split; [vm_compute; reflexivity|]. split; reflexivity. Qed.

End StartSamples.

(* ===================================================================== *)
(** * Removal of finished jobs *)
(* ===================================================================== *)

Section Cleanup.
Import Py App.
Context {H : HashLib}.

(** An entry disappears only when a cleanup thread for its file id, whose
    sleep is over, wakes. *)
Lemma only_cleanup_removes s l s' r fid j :
  step s l = Some (s', r) ->
  active_downloads s !! fid = Some j ->
  active_downloads s' !! fid = None ->
  exists tid wake,
    l = Run tid Woken
    /\ threads s !! tid = Some (CleanupThread fid (Sleeping wake))
    /\ wake <= now s.
Proof.
  intros Es Ej En. destruct l as [f fn|f|rnd u p sp lp|tid ev|tid|]; simpl in Es.
  - exfalso. unfold download in Es.
    destruct f as [file_id|]; [|injection Es as <- _; congruence].
    destruct (negb (truthy (Some file_id)));
      [injection Es as <- _; congruence|].
    destruct (active_downloads s !! file_id);
      injection Es as <- _; simpl in En; congruence.
  - injection Es as <- _. congruence.
  - injection Es as <- _. simpl in En. congruence.
  - destruct (threads s !! tid) as [[w pending|fid' c]|] eqn:Et;
      [| |discriminate].
    + exfalso. destruct pending; [|discriminate].
      destruct (run_segment (client s) w ev) as [[acts w']|]; [|discriminate].
      injection Es as <- _. destruct (at_pc w); simpl in En; congruence.
    + destruct c as [|wake|]; [| |discriminate].
      * exfalso. destruct ev; try discriminate.
        injection Es as <- _. simpl in En. congruence.
      * destruct ev; try discriminate.
        destruct (Z.leb_spec wake (now s)) as [Hw|]; [|discriminate].
        injection Es as <- _. simpl in En.
        destruct (decide (fid' = fid)) as [->|Hne].
        -- exists tid, wake. auto.
        -- rewrite lookup_delete_ne in En by exact Hne. congruence.
  - exfalso.
    destruct (threads s !! tid) as [[w [|a rest]|fid' c]|]; try discriminate.
    injection Es as <- _.
    destruct a as [fn|i| |fn err]; simpl in En.
    + apply lookup_insert_None in En as [En _]. congruence.
    + destruct (active_downloads s !! file_id w) eqn:Ew; simpl in En;
        [|congruence].
      apply lookup_insert_None in En as [En _]. congruence.
    + congruence.
    + apply lookup_insert_None in En as [En _]. congruence.
  - injection Es as <- _. simpl in En. congruence.
Qed.

(** Only the segment that ends a download starts a cleanup thread, after
    the writes that make the job completed. *)
Lemma start_cleanup_at_completion client w ev acts w' :
  run_segment client w ev = Some (acts, w') ->
  In StartCleanup acts ->
  exists total downloaded file_path,
    at_pc w = AtStream total downloaded file_path
    /\ ev = StreamEnd
    /\ acts = [SetItem (Status Completed); SetItem (Progress 100);
               SetItem (Message "Download completed!");
               SetItem (FilePath file_path); SetItem (FinalSize downloaded);
               StartCleanup].
Proof.
  intros Eseg Hin. unfold run_segment in Eseg.
  assert (Hno : forall a b : action, In StartCleanup [a; b] ->
                a <> StartCleanup -> b <> StartCleanup -> False)
    by (intros a b [<-|[<-|[]]]; congruence).
  destruct (at_pc w) as [| |url expected fp|t d fp|] eqn:Epc;
    destruct ev; try discriminate.
  - injection Eseg as <- _. destruct Hin as [E|[]]. discriminate.
  - exfalso. injection Eseg as Eseg. unfold resolve in Eseg.
    destruct (WebshareAPI.initiate_download _ _ _).
    { injection Eseg as <- _. destruct Hin as [E|[]]. discriminate. }
    destruct makedirs_error.
    { injection Eseg as <- _. destruct Hin as [E|[]]. discriminate. }
    destruct (if truthy (file_name w) then _ else _);
      injection Eseg as <- _.
    + destruct Hin as [E|[E|[]]]; discriminate.
    + destruct Hin as [E|[]]. discriminate.
  - exfalso. injection Eseg as Eseg. unfold connect in Eseg.
    destruct get as [err|response].
    { injection Eseg as <- _. destruct Hin as [E|[]]. discriminate. }
    destruct (get_http_error response).
    { injection Eseg as <- _. destruct Hin as [E|[]]. discriminate. }
    destruct (match content_length response with
              | Some text => Py.int text
              | None => ret expected
              end).
    { injection Eseg as <- _. destruct Hin as [E|[]]. discriminate. }
    destruct open_error; injection Eseg as <- _; simpl in Hin;
      repeat (destruct Hin as [E|Hin]; [discriminate|]); exact Hin.
  - exfalso. injection Eseg as Eseg. unfold on_chunk in Eseg.
    destruct chunk as [|b r]; [injection Eseg as <- _; exact Hin|].
    destruct write_error.
    { injection Eseg as <- _. destruct Hin as [E|[]]. discriminate. }
    destruct (0 <? t); [|injection Eseg as <- _; exact Hin].
    destruct (progress_percent _ _); injection Eseg as <- _; simpl in Hin;
      repeat (destruct Hin as [E|Hin]; [discriminate|]); exact Hin.
  - exfalso. injection Eseg as <- _. destruct Hin as [E|[]]. discriminate.
  - injection Eseg as Eseg. unfold finish in Eseg. exists t, d, fp.
    destruct (WebshareAPI._format_file_size d); injection Eseg as <- _.
    + exfalso. simpl in Hin.
      repeat (destruct Hin as [E|Hin]; [discriminate|]); exact Hin.
    + repeat split.
Qed.

Lemma format_file_size_defined d :
  0 <= d < 2 ^ 64 -> exists text, WebshareAPI._format_file_size d = inr text.
Proof.
  intros Hd. unfold WebshareAPI._format_file_size.
  destruct (d =? 0); [eexists; reflexivity|].
  unfold Float64.of_int.
  assert (H0 : (0 <= inject_Z d)%Q)
    by (change 0%Q with (inject_Z 0); rewrite <- Zle_Qle; lia).
  assert (H1 : (inject_Z d <= Float64.pow2 64)%Q)
    by (rewrite <- pow2_Z by lia; rewrite <- Zle_Qle; lia).
  rewrite (not_overflows (Float64.round (inject_Z d)) 64).
  - unfold bind, ret. destruct (WebshareAPI.scale_size _ _ _).
    eexists. reflexivity.
  - apply round_nonneg. exact H0.
  - apply Qle_trans with (Float64.round (Float64.pow2 64));
      [apply round_mono; assumption|apply round_pow2_64].
  - lia.
Qed.

(** The end of the stream makes the job completed and starts the cleanup
    thread. *)
Lemma finish_starts_cleanup client w total downloaded file_path :
  at_pc w = AtStream total downloaded file_path ->
  0 <= downloaded < 2 ^ 64 ->
  run_segment client w StreamEnd
  = Some ([SetItem (Status Completed); SetItem (Progress 100);
           SetItem (Message "Download completed!");
           SetItem (FilePath file_path); SetItem (FinalSize downloaded);
           StartCleanup],
          Worker (file_id w) (file_name w) (download_path w) Finished).
Proof.
  intros Epc Hd. unfold run_segment. rewrite Epc. unfold finish.
  destruct (format_file_size_defined downloaded Hd) as [text ->].
  reflexivity.
Qed.

(** C7.  An entry is removed only by a cleanup thread for its file id.
    A worker whose stream ends makes its job completed and then starts
    such a thread, and no other statement of a worker does; the thread
    sleeps 30 seconds and cannot wake before; when it wakes it removes the
    entry, and a query for the id then finds nothing.  The handler that
    records an error starts no thread. *)
Theorem cleanup_after_completion
    (s s' : world) (l : label) (r : reply) (tid : nat) (fid : string)
    (j : job) (wake : Z) (w : worker) (rest : list action)
    (fn : option string) (err : string) :
  (step s l = Some (s', r) ->
   active_downloads s !! fid = Some j ->
   active_downloads s' !! fid = None ->
   exists tid' wake',
     l = Run tid' Woken
     /\ threads s !! tid' = Some (CleanupThread fid (Sleeping wake'))
     /\ wake' <= now s)
  /\ (threads s !! tid = Some (CleanupThread fid CleanupStart) ->
      step s (Run tid Woken) = None
      /\ step s (Run tid Scheduled)
         = Some (with_threads
                   (<[tid := CleanupThread fid (Sleeping (now s + 30))]>
                      (threads s)) s,
                Silent))
  /\ (threads s !! tid = Some (CleanupThread fid (Sleeping wake)) ->
      (now s < wake -> step s (Run tid Woken) = None)
      /\ (wake <= now s ->
          exists s'',
            step s (Run tid Woken) = Some (s'', Silent)
            /\ download_progress s'' fid = NotFound))
  /\ (threads s !! tid = Some (WorkerThread w (StartCleanup :: rest)) ->
      exists s'',
        step s (Exec tid) = Some (s'', Silent)
        /\ threads s''
           = <[tid := WorkerThread w rest]> (threads s)
             ++ [CleanupThread (file_id w) CleanupStart])
  /\ (forall client total downloaded file_path,
        at_pc w = AtStream total downloaded file_path ->
        0 <= downloaded < 2 ^ 64 ->
        run_segment client w StreamEnd
        = Some ([SetItem (Status Completed); SetItem (Progress 100);
                 SetItem (Message "Download completed!");
                 SetItem (FilePath file_path);
                 SetItem (FinalSize downloaded); StartCleanup],
                Worker (file_id w) (file_name w) (download_path w) Finished))
  /\ (forall client ev acts w',
        run_segment client w ev = Some (acts, w') ->
        In StartCleanup acts ->
        exists total downloaded file_path,
          at_pc w = AtStream total downloaded file_path
          /\ ev = StreamEnd
          /\ acts = [SetItem (Status Completed); SetItem (Progress 100);
                     SetItem (Message "Download completed!");
                     SetItem (FilePath file_path);
                     SetItem (FinalSize downloaded); StartCleanup])
  /\ (threads s !! tid = Some (WorkerThread w (Fail fn err :: rest)) ->
      exists s'',
        step s (Exec tid) = Some (s'', Silent)
        /\ length (threads s'') = length (threads s)
        /\ active_downloads s'' !! file_id w = Some (error_job fn err)).
Proof.
  split; [|split; [|split; [|split; [|split; [|split]]]]].
  - apply only_cleanup_removes.
  - intros Et. unfold step. rewrite Et. split; reflexivity.
  - intros Et. split.
    + intros Hlt. unfold step. rewrite Et.
      destruct (Z.leb_spec wake (now s)); [lia|reflexivity].
    + intros Hle. unfold step. rewrite Et.
      destruct (Z.leb_spec wake (now s)); [|lia].
      eexists. split; [reflexivity|].
      unfold download_progress. simpl. rewrite lookup_delete_eq. reflexivity.
  - intros Et. rewrite (step_exec s tid w _ _ Et).
    eexists. split; reflexivity.
  - intros client total downloaded file_path.
    apply finish_starts_cleanup.
  - intros client ev acts w'. apply start_cleanup_at_completion.
  - intros Et. rewrite (step_exec s tid w _ _ Et).
    eexists. split; [reflexivity|]. split.
    + simpl. apply length_insert.
    + simpl. apply lookup_insert_eq.
Qed.

End Cleanup.

Section CleanupSamples.
Import Py App Sample.

(** C7 on a download that completed at time 0: at time 29 the cleanup
    thread cannot wake; at time 30 it can, and the entry is gone. *)
Lemma cleanup_after_completion_witness :
  step (with_now 29 completed_world) (Run 1 Woken) = None
  /\ exists s'',
       step (with_now 30 completed_world) (Run 1 Woken) = Some (s'', Silent)
       /\ download_progress s'' "f1" = NotFound.
Proof.
  split.
  - destruct (cleanup_after_completion (with_now 29 completed_world)
                completed_world Tick Silent 1 "f1" completed_job 30
                (Worker "f1" None "/downloads" Finished) [] None EmptyString)
      as (_ & _ & [B _] & _); [reflexivity|].
    apply B. simpl. lia.
  - destruct (cleanup_after_completion (with_now 30 completed_world)
                completed_world Tick Silent 1 "f1" completed_job 30
                (Worker "f1" None "/downloads" Finished) [] None EmptyString)
      as (_ & _ & [_ A] & _); [reflexivity|].
    apply A. simpl. lia.
Defined.

(** Against C7 as stated.  A download completes at time 0 and its cleanup
    thread goes to sleep; 30 seconds later, the thread not yet woken, a
    query still finds the completed job.  And when two requests for one id
    have each started a worker, the cleanup thread of the worker that
    completed removes the error that the other worker recorded: the query
    before the thread wakes finds the error, the query after finds
    nothing. *)
Lemma cleanup_counterexample :
  (exists s0 rs0,
     run logged_in_world
       (Download (Some "f1") (Some "a.iso") :: whole_download 0
        ++ [Run 1 Scheduled])
     = Some (s0, rs0)
     /\ s0 = completed_world
     /\ exists s1,
          run s0 (repeat Tick 30 ++ [Poll "f1"])
          = Some (s1, repeat Silent 30 ++ [Found completed_job])
          /\ now s1 = 30)
  /\ (exists s rs,
        run logged_in_world stale_cleanup = Some (s, rs)
        /\ nth_error rs 30
           = Some (Found (error_job (Some "a.iso") "connection reset"))
        /\ last rs = Some NotFound).
Proof.
  split.
  - eexists _, _. split; [vm_compute; reflexivity|]. split.
    + apply f_equal2; [|reflexivity]. reflexivity.
    + eexists. split; [vm_compute; reflexivity|]. reflexivity.
  - eexists _, _. split; [vm_compute; reflexivity|].
    split; reflexivity.
Qed.

End CleanupSamples.

(* ===================================================================== *)
(** * The handshake: what is returned, what is raised *)
(* ===================================================================== *)

Section Handshake.
Import Py WebshareAPI.
Context {H : HashLib}.

Lemma eq_str_spec o s : eq_str o s = true <-> o = Some s.
Proof.
  destruct o as [t|]; simpl.
  - rewrite String.eqb_eq. split; congruence.
  - split; discriminate.
Qed.

Lemma status_ok_spec root :
  eq_str (Xml.text_or (Xml.find "status" root) (Some "UNKNOWN")) "OK" = true
  <-> exists status_elem,
        Xml.find "status" root = Some status_elem
        /\ Xml.text status_elem = Some "OK".
Proof.
  rewrite eq_str_spec. destruct (Xml.find "status" root) as [e|]; simpl.
  - split.
    + intros E. exists e. auto.
    + intros (e' & E & T). congruence.
  - split.
    + discriminate.
    + intros (e' & E & _). discriminate.
Qed.

Lemma reraise_prefixed {A} prefix (m : result A) e :
  reraise prefix m = inl e ->
  exists e0, m = inl e0 /\ e = Raise Exception (prefix +:+ exc_str e0).
Proof.
  destruct m as [e0|a]; simpl; [|discriminate].
  intros E. exists e0. split; [reflexivity|]. unfold raise in E. congruence.
Qed.

Lemma handlers_prefixed {A} prefix (m : result A) e :
  handlers prefix m = inl e ->
  exists e0, m = inl e0
    /\ e = Raise Exception
             (prefix +:+
                match exc_class e0 with
                | RequestException => "Network error - " +:+ exc_str e0
                | _ => exc_str e0
                end).
Proof.
  destruct m as [e0|a]; simpl; [|discriminate].
  intros E. exists e0. split; [reflexivity|].
  destruct e0 as [c s]; simpl in *.
  destruct c; simpl in E; unfold raise in E; congruence.
Qed.

(** X1.  [get_salt] returns exactly when the server answers the request
    without an HTTP error, the body is well-formed, the root has a [status]
    child whose text is 'OK' and a [salt] child; what it returns is the text
    of the first [salt] child, [None] when that element is empty. *)
Theorem get_salt_returns (username : string) (post : Http.outcome)
    (salt : option string) :
  get_salt username post = inr salt
  <-> exists response root status_elem salt_elem,
        post = Http.Responded response
        /\ Http.http_error response = None
        /\ Http.body response = Xml.Document root
        /\ Xml.find "status" root = Some status_elem
        /\ Xml.text status_elem = Some "OK"
        /\ Xml.find "salt" root = Some salt_elem
        /\ Xml.text salt_elem = salt.
Proof.
  unfold get_salt. split.
  - destruct post as [err|[http_error body]]; simpl; [discriminate|].
    destruct http_error as [err|]; simpl; [discriminate|].
    destruct body as [err|root]; simpl; [discriminate|].
    destruct (Xml.find "status" root) as [status_elem|] eqn:Es;
      [|destruct (Xml.find "message" root); discriminate].
    destruct (eq_str (Xml.text status_elem) "OK") eqn:Eok;
      [|destruct (Xml.find "message" root); discriminate].
    destruct (Xml.find "salt" root) as [salt_elem|] eqn:Esalt; [|discriminate].
    simpl. intros E. injection E as E.
    exists (Http.Response None (Xml.Document root)), root, status_elem, salt_elem.
    apply eq_str_spec in Eok. auto 10.
  - intros (response & root & status_elem & salt_elem
            & -> & Eh & Eb & Es & Et & Esalt & <-).
    destruct response as [http_error body]; simpl in *. subst.
    simpl. rewrite Es, Et, Esalt. reflexivity.
Qed.

(** X2.  [login] returns, and assigns to the object, exactly when
    [get_salt] returns, the password can be hashed, and the answer to the
    login request has no HTTP error, is well-formed, and its root has a
    [status] child with text 'OK' and a [token] child.  The object then has
    [logged_in] true and the text of the first [token] child as its token,
    whatever it held before. *)
Theorem login_returns (self self' : WebshareAPI.t)
    (rnd username password : string) (salt_post login_post : Http.outcome) :
  login self rnd username password salt_post login_post = (inr tt, self')
  <-> exists salt hashes response root status_elem token_elem,
        get_salt username salt_post = inr salt
        /\ hash_password rnd username password salt = inr hashes
        /\ login_post = Http.Responded response
        /\ Http.http_error response = None
        /\ Http.body response = Xml.Document root
        /\ Xml.find "status" root = Some status_elem
        /\ Xml.text status_elem = Some "OK"
        /\ Xml.find "token" root = Some token_elem
        /\ self' = {| logged_in := true; token := Xml.text token_elem |}.
Proof.
  unfold login, login_try. split.
  - destruct (get_salt username salt_post) as [e|salt] eqn:Esalt; simpl;
      [destruct (exc_class e); discriminate|].
    destruct (hash_password rnd username password salt) as [e|hashes] eqn:Eh;
      simpl; [destruct (exc_class e); discriminate|].
    destruct login_post as [err|[http_error body]]; simpl; [discriminate|].
    destruct http_error as [err|]; simpl; [discriminate|].
    destruct body as [err|root]; simpl; [discriminate|].
    destruct (eq_str _ "OK") eqn:Eok; [|discriminate].
    apply status_ok_spec in Eok. destruct Eok as (status_elem & Es & Et).
    destruct (Xml.find "token" root) as [token_elem|] eqn:Etok;
      [|discriminate].
    simpl. intros E. injection E as <-.
    exists salt, hashes, (Http.Response None (Xml.Document root)), root,
      status_elem, token_elem.
    auto 12.
  - intros (salt & hashes & response & root & status_elem & token_elem
            & Esalt & Eh & -> & Ee & Eb & Es & Et & Etok & ->).
    destruct response as [http_error body]; simpl in *. subst.
    rewrite Esalt. simpl. rewrite Eh. simpl.
    rewrite Es. simpl. rewrite Et. simpl. rewrite Etok. reflexivity.
Qed.

Lemma append_inj_l (p x y : string) : p +:+ x = p +:+ y -> x = y.
Proof.
  induction p as [|c p IH]; [trivial|]. intros E. injection E as E. auto.
Qed.

(** X3.  A failing [login] leaves the object as it was, raises an
    [Exception], and its text tells where the failure comes from.  When
    [get_salt] raises, or when the password cannot be hashed, the text is
    'Login failed: ' followed by the text of that exception, whatever the
    server would answer to the login request; a transport failure of the
    salt request is therefore reported as 'Login failed: Failed to get
    salt: ...' and not as a network error.  Otherwise the login request
    failed in transport or came back with an HTTP error, and the text is
    'Login failed: Network error - ' and the text of that failure; or the
    body is not well-formed XML ('Login failed: Login failed: Invalid
    server response'); or the status is not 'OK' ('Login failed: Login
    failed: ' with the message and the code of the answer); or the status
    is 'OK' and there is no [token] child ('Login failed: Login successful
    but no token received').  The text begins with 'Login failed: Network
    error - ' in the first of these four cases only. *)
Theorem login_failure_origin (self : WebshareAPI.t)
    (rnd username password err : string) (salt : option string)
    (salt_post login_post : Http.outcome) (e : exn) (body : Xml.document) :
  (get_salt username salt_post = inl e ->
   login self rnd username password salt_post login_post
   = (raise Exception ("Login failed: " +:+ exc_str e), self))
  /\ login self rnd username password (Http.Failed err) login_post
     = (raise Exception ("Login failed: Failed to get salt: " +:+ err), self)
  /\ (get_salt username salt_post = inr salt ->
      hash_password rnd username password salt = inl e ->
      login self rnd username password salt_post login_post
      = (raise Exception ("Login failed: " +:+ exc_str e), self))
  /\ (get_salt username salt_post = inr salt ->
      (exists hashes, hash_password rnd username password salt = inr hashes) ->
      login self rnd username password salt_post (Http.Failed err)
      = (raise Exception ("Login failed: Network error - " +:+ err), self)
      /\ login self rnd username password salt_post
           (Http.Responded (Http.Response (Some err) body))
         = (raise Exception ("Login failed: Network error - " +:+ err), self))
  /\ (forall (e' : exn) (self' : WebshareAPI.t),
        login self rnd username password salt_post login_post = (inl e', self') ->
        self' = self
        /\ exc_class e' = Exception
        /\ ((exists e0,
               get_salt username salt_post = inl e0
               /\ exc_str e' = "Login failed: " +:+ exc_str e0)
            \/ (exists salt' e0,
                  get_salt username salt_post = inr salt'
                  /\ hash_password rnd username password salt' = inl e0
                  /\ exc_str e' = "Login failed: " +:+ exc_str e0)
            \/ (exists salt' hashes,
                  get_salt username salt_post = inr salt'
                  /\ hash_password rnd username password salt' = inr hashes
                  /\ ((exists err',
                         (login_post = Http.Failed err'
                          \/ exists body',
                               login_post
                               = Http.Responded
                                   (Http.Response (Some err') body'))
                         /\ exc_str e'
                            = "Login failed: Network error - " +:+ err')
                      \/ (exists err',
                            login_post
                            = Http.Responded
                                (Http.Response None (Xml.Malformed err'))
                            /\ exc_str e'
                               = "Login failed: Login failed: Invalid server response")
                      \/ (exists root,
                            login_post
                            = Http.Responded
                                (Http.Response None (Xml.Document root))
                            /\ ((eq_str
                                   (Xml.text_or (Xml.find "status" root)
                                      (Some "UNKNOWN")) "OK" = false
                                 /\ exc_str e'
                                    = "Login failed: Login failed: "
                                      +:+ fmt (Xml.text_or
                                                 (Xml.find "message" root)
                                                 (Some "No message"))
                                      +:+ " (code: "
                                      +:+ fmt (Xml.text_or
                                                 (Xml.find "code" root)
                                                 (Some "No code"))
                                      +:+ ")")
                                \/ (eq_str
                                      (Xml.text_or (Xml.find "status" root)
                                         (Some "UNKNOWN")) "OK" = true
                                    /\ Xml.find "token" root = None
                                    /\ exc_str e'
                                       = "Login failed: Login successful but no token received"))))))
        /\ ((exists rest,
               exc_str e' = "Login failed: Network error - " +:+ rest)
            <-> exists salt' hashes err',
                  get_salt username salt_post = inr salt'
                  /\ hash_password rnd username password salt' = inr hashes
                  /\ (login_post = Http.Failed err'
                      \/ exists body',
                           login_post
                           = Http.Responded
                               (Http.Response (Some err') body')))).
Proof.
  split; [|split; [|split; [|split]]].
  - intros E. unfold login, login_try. rewrite E.
    destruct (reraise_prefixed _ _ _ E) as (e0 & _ & ->). reflexivity.
  - reflexivity.
  - intros Es Eh. unfold login, login_try. rewrite Es. simpl. rewrite Eh.
    destruct (reraise_prefixed _ _ _ Eh) as (e0 & _ & ->). reflexivity.
  - intros Es (hashes & Eh). unfold login, login_try.
    rewrite Es. simpl. rewrite Eh. simpl. split; reflexivity.
  - intros e' self'. unfold login, login_try.
    destruct (get_salt username salt_post) as [e0|salt'] eqn:Es.
    { destruct (reraise_prefixed _ _ _ Es) as (e1 & _ & ->).
      cbn [bind handlers exc_class exc_str raise]. intros E.
      injection E as <- <-. cbn [exc_class exc_str].
      split; [reflexivity|]. split; [reflexivity|]. split.
      - left. eexists. split; reflexivity.
      - split.
        + intros (rest & E). apply (append_inj_l "Login failed: " _
                                 ("Network error - " +:+ rest)) in E.
           discriminate E.
        + intros (? & ? & ? & ? & _). discriminate. }
    cbn [bind].
    destruct (hash_password rnd username password salt') as [e0|hashes] eqn:Eh.
    { destruct (reraise_prefixed _ _ _ Eh) as (e1 & _ & ->).
      cbn [bind handlers exc_class exc_str raise]. intros E.
      injection E as <- <-. cbn [exc_class exc_str].
      split; [reflexivity|]. split; [reflexivity|]. split.
      - right. left. exists salt'. eexists.
        split; [reflexivity|]. split; [exact Eh|reflexivity].
      - split.
        + intros (rest & E). apply (append_inj_l "Login failed: " _
                                 ("Network error - " +:+ rest)) in E.
           discriminate E.
        + intros (s & h & ? & Es' & Eh' & _). injection Es' as <-.
          congruence. }
    cbn [bind].
    destruct login_post as [err'|[[err'|] body']];
      cbn [bind handlers exc_class exc_str raise Http.send
           Http.raise_for_status Http.http_error Http.body ret].
    { intros E. injection E as <- <-. cbn [exc_class exc_str].
      split; [reflexivity|]. split; [reflexivity|]. split.
      - right. right. exists salt', hashes.
        split; [reflexivity|]. split; [exact Eh|].
        left. exists err'. split; [left; reflexivity|reflexivity].
      - split.
        + intros _. exists salt', hashes, err'. auto.
        + intros _. eexists. reflexivity. }
    { intros E. injection E as <- <-. cbn [exc_class exc_str].
      split; [reflexivity|]. split; [reflexivity|]. split.
      - right. right. exists salt', hashes.
        split; [reflexivity|]. split; [exact Eh|].
        left. exists err'. split; [right; eexists; reflexivity|reflexivity].
      - split.
        + intros _. exists salt', hashes, err'. eauto.
        + intros _. eexists. reflexivity. }
    assert (No : forall err'',
                   ~ (Http.Responded (Http.Response None body')
                      = Http.Failed err''
                      \/ exists body'',
                           Http.Responded (Http.Response None body')
                           = Http.Responded
                               (Http.Response (Some err'') body''))).
    { intros ? [E|(? & E)]; discriminate E. }
    destruct body' as [err'|root];
      cbn [Xml.fromstring bind ret except_parse_error handlers exc_class
           exc_str raise].
    { intros E. injection E as <- <-. cbn [exc_class exc_str].
      split; [reflexivity|]. split; [reflexivity|]. split.
      - right. right. exists salt', hashes.
        split; [reflexivity|]. split; [exact Eh|].
        right. left. exists err'. split; reflexivity.
      - split.
        + intros (rest & E). apply (append_inj_l "Login failed: " _
                                 ("Network error - " +:+ rest)) in E.
           discriminate E.
        + intros (? & ? & err'' & _ & _ & N). destruct (No _ N). }
    cbv zeta. destruct (eq_str _ "OK") eqn:Eok.
    + destruct (Xml.find "token" root) as [token_elem|] eqn:Et;
        cbn [except_parse_error handlers exc_class exc_str raise ret];
        [discriminate|].
      intros E. injection E as <- <-. cbn [exc_class exc_str].
      split; [reflexivity|]. split; [reflexivity|]. split.
      * right. right. exists salt', hashes.
        split; [reflexivity|]. split; [exact Eh|].
        right. right. exists root. split; [reflexivity|].
        right. split; [exact Eok|]. split; [exact Et|reflexivity].
      * split.
        -- intros (rest & E). apply (append_inj_l "Login failed: " _
                                 ("Network error - " +:+ rest)) in E.
           discriminate E.
        -- intros (? & ? & err'' & _ & _ & N). destruct (No _ N).
    + cbn [except_parse_error handlers exc_class exc_str raise].
      intros E. injection E as <- <-. cbn [exc_class exc_str].
      split; [reflexivity|]. split; [reflexivity|]. split.
      * right. right. exists salt', hashes.
        split; [reflexivity|]. split; [exact Eh|].
        right. right. exists root. split; [reflexivity|].
        left. split; [exact Eok|reflexivity].
      * split.
        -- intros (rest & E). apply (append_inj_l "Login failed: " _
                                 ("Network error - " +:+ rest)) in E.
           discriminate E.
        -- intros (? & ? & err'' & _ & _ & N). destruct (No _ N).
Qed.

End Handshake.

Section ErrorTexts.
Import Py WebshareAPI.
Context {H : HashLib}.

Lemma reraise_shape {A} prefix (m : result A) e :
  reraise prefix m = inl e ->
  exc_class e = Exception /\ exists text, exc_str e = prefix +:+ text.
Proof.
  intros E. apply reraise_prefixed in E. destruct E as (e0 & _ & ->).
  split; [reflexivity|]. eexists. reflexivity.
Qed.

Lemma handlers_shape {A} prefix (m : result A) e :
  handlers prefix m = inl e ->
  exc_class e = Exception /\ exists text, exc_str e = prefix +:+ text.
Proof.
  intros E. apply handlers_prefixed in E. destruct E as (e0 & _ & ->).
  split; [reflexivity|]. eexists. reflexivity.
Qed.

(** X4.  Whatever goes wrong inside them, [get_salt], [hash_password],
    [login], [search], [initiate_download] and [download_file] raise nothing
    but [Exception], and its text begins with the words of the method:
    no [RequestException], [ParseError], [ValueError], [OverflowError] or
    [OSError] leaves them. *)
Theorem api_errors_prefixed (self : WebshareAPI.t)
    (rnd username password query file_id download_path : string)
    (salt : option string) (filename : option string)
    (salt_post login_post post : Http.outcome)
    (makedirs_error open_error : option string) (get : App.get_outcome)
    (body : SyncDownload.stream) (e : exn) :
  (get_salt username post = inl e ->
   exc_class e = Exception
   /\ exists text, exc_str e = "Failed to get salt: " +:+ text)
  /\ (hash_password rnd username password salt = inl e ->
      exc_class e = Exception
      /\ exists text, exc_str e = "Failed to hash password: " +:+ text)
  /\ (fst (login self rnd username password salt_post login_post) = inl e ->
      exc_class e = Exception
      /\ exists text, exc_str e = "Login failed: " +:+ text)
  /\ (search self query post = inl e ->
      exc_class e = Exception
      /\ exists text, exc_str e = "Search failed: " +:+ text)
  /\ (initiate_download self file_id post = inl e ->
      exc_class e = Exception
      /\ exists text, exc_str e = "Download failed: " +:+ text)
  /\ (SyncDownload.download_file self file_id download_path filename post
        makedirs_error get open_error body = inl e ->
      exc_class e = Exception
      /\ exists text, exc_str e = "Download failed: " +:+ text).
Proof.
  split; [|split; [|split; [|split; [|split]]]].
  - apply reraise_shape.
  - apply reraise_shape.
  - unfold login.
    destruct (handlers _ _) as [e1|a] eqn:E; simpl; [|discriminate].
    intros E1. injection E1 as ->. revert E. apply handlers_shape.
  - apply handlers_shape.
  - apply handlers_shape.
  - apply reraise_shape.
Qed.

End ErrorTexts.

(* ===================================================================== *)
(** * The formatted size *)
(* ===================================================================== *)

Section ExactRounding.
Import Float64.
Local Open Scope Q_scope.

Lemma rne_eq x y : x == y -> rne x = rne y.
Proof.
  intros E. apply Z.le_antisymm; apply rne_mono; rewrite E; apply Qle_refl.
Qed.

Lemma pow2_lt_inv a b : pow2 a < pow2 b -> (a < b)%Z.
Proof.
  intros L. destruct (Z_lt_ge_dec a b) as [|G]; [assumption|exfalso].
  pose proof (pow2_le b a ltac:(lia)). lra.
Qed.

(** A number with a significand of at most 53 bits and an exponent in range
    is a float: rounding leaves it as it is. *)
Lemma round_pos_dyadic x m e :
  (0 < m < 2 ^ 53)%Z -> (-1074 <= e)%Z -> x == inject_Z m * pow2 e ->
  round_pos x == x.
Proof.
  intros Hm He Ex.
  pose proof (pow2_pos e) as Pe.
  assert (Hm0 : 0 < inject_Z m)
    by (change 0 with (inject_Z 0); rewrite <- Zlt_Qlt; lia).
  assert (Hx : 0 < x) by (rewrite Ex; apply Qmult_lt_0_compat; assumption).
  assert (Ux : x < pow2 (53 + e)).
  { rewrite Ex, pow2_add. apply Qmult_lt_compat_r; [exact Pe|].
    rewrite <- pow2_Z by lia. rewrite <- Zlt_Qlt. lia. }
  destruct (mag_spec x Hx) as [L _].
  assert (M : (mag x - 1 < 53 + e)%Z) by (apply pow2_lt_inv; lra).
  unfold round_pos. set (c := cexp x).
  assert (C : (c <= e)%Z) by (unfold c, cexp; lia).
  pose proof (pow2_pos c) as Pc.
  assert (Ee : pow2 e == inject_Z (2 ^ (e - c)) * pow2 c).
  { rewrite pow2_Z by lia. rewrite <- pow2_add. f_equiv. lia. }
  assert (Eq : x / pow2 c == inject_Z (m * 2 ^ (e - c))).
  { rewrite Ex, Ee, inject_Z_mult. field. lra. }
  rewrite (rne_eq _ _ Eq), rne_Z. rewrite Ex, Ee, inject_Z_mult. ring.
Qed.

Lemma round_dyadic x m e :
  (0 < m < 2 ^ 53)%Z -> (-1074 <= e)%Z -> x == inject_Z m * pow2 e ->
  round x == x.
Proof.
  intros Hm He Ex.
  assert (Hx : 0 < x).
  { rewrite Ex. apply Qmult_lt_0_compat; [|apply pow2_pos].
    change 0 with (inject_Z 0). rewrite <- Zlt_Qlt. lia. }
  unfold round. destruct (Qcompare_spec x 0) as [E|E|E]; try lra.
  apply (round_pos_dyadic x m e); assumption.
Qed.

Lemma round_int n : (0 < n < 2 ^ 53)%Z -> round (inject_Z n) == inject_Z n.
Proof.
  intros Hn. apply (round_dyadic _ n 0); [exact Hn|lia|].
  change (pow2 0) with 1. ring.
Qed.

Lemma round_neg_int n :
  (- 2 ^ 53 < n < 0)%Z -> round (inject_Z n) == inject_Z n.
Proof.
  intros Hn.
  assert (Hx : inject_Z n < 0)
    by (change 0 with (inject_Z 0); rewrite <- Zlt_Qlt; lia).
  unfold round. destruct (Qcompare_spec (inject_Z n) 0) as [E|E|E]; try lra.
  rewrite (round_pos_dyadic (- inject_Z n) (- n) 0); [ring|lia|lia|].
  rewrite inject_Z_opp. change (pow2 0) with 1. ring.
Qed.

Lemma Qle_bool_eq a b a' b' :
  a == a' -> b == b' -> Qle_bool a b = Qle_bool a' b'.
Proof.
  intros Ea Eb. destruct (Qle_bool a' b') eqn:E.
  - apply Qle_bool_iff. apply Qle_bool_iff in E. rewrite Ea, Eb. exact E.
  - destruct (Qle_bool a b) eqn:E'; [|reflexivity].
    apply Qle_bool_iff in E'. rewrite Ea, Eb in E'.
    apply Qle_bool_iff in E'. congruence.
Qed.

Lemma format_1f_eq x y : x == y -> format_1f x = format_1f y.
Proof.
  intros E. unfold format_1f.
  rewrite (Qle_bool_eq 0 x 0 y (Qeq_refl 0) E).
  rewrite (rne_eq (Qabs x * 10) (Qabs y * 10)) by (rewrite E; reflexivity).
  reflexivity.
Qed.

(** An integer is printed with one zero after the point. *)
Lemma format_1f_int x n :
  x == inject_Z n ->
  format_1f x
  = ((if (n <? 0)%Z then "-" else EmptyString)
       +:+ Py.str_of_int (Z.abs n) +:+ ".0")%string.
Proof.
  intros E. rewrite (format_1f_eq _ _ E). unfold format_1f.
  assert (R : rne (Qabs (inject_Z n) * 10) = (Z.abs n * 10)%Z).
  { rewrite <- (rne_Z (Z.abs n * 10)). apply rne_eq.
    rewrite inject_Z_mult. apply Qmult_comp; [|reflexivity].
    unfold Qabs, inject_Z. simpl. reflexivity. }
  rewrite R, Z.div_mul, Z.mod_mul by lia.
  replace (Qle_bool 0 (inject_Z n)) with (negb (n <? 0)%Z).
  - destruct (n <? 0)%Z; reflexivity.
  - destruct (Qle_bool 0 (inject_Z n)) eqn:Q.
    + apply Qle_bool_iff in Q. change 0 with (inject_Z 0) in Q.
      rewrite <- Zle_Qle in Q. apply negb_true_iff, Z.ltb_ge. exact Q.
    + apply negb_false_iff, Z.ltb_lt.
      destruct (Z_lt_ge_dec n 0) as [|G]; [assumption|exfalso].
      assert (Q' : Qle_bool 0 (inject_Z n) = true).
      { apply Qle_bool_iff. change 0 with (inject_Z 0).
        rewrite <- Zle_Qle. lia. }
      congruence.
Qed.

Lemma overflows_small x b :
  Qabs x <= pow2 b -> (b < 1024)%Z -> overflows x = false.
Proof.
  intros Hx Hb. unfold overflows.
  destruct (Qle_bool (pow2 1024) (Qabs x)) eqn:E; [|reflexivity].
  apply Qle_bool_iff in E. pose proof (pow2_lt b 1024 Hb). lra.
Qed.

Lemma of_int_exact n :
  (- 2 ^ 53 < n < 2 ^ 53)%Z ->
  exists x, of_int n = Py.ret x /\ x == inject_Z n.
Proof.
  intros Hn. unfold of_int.
  assert (E : round (inject_Z n) == inject_Z n).
  { destruct (Z.lt_trichotomy n 0) as [N|[->|P]].
    - apply round_neg_int. lia.
    - reflexivity.
    - apply round_int. lia. }
  rewrite (overflows_small _ 53); [eauto| |lia].
  rewrite E. rewrite <- pow2_Z by lia.
  rewrite Qabs_Qle_condition. rewrite <- inject_Z_opp, <- !Zle_Qle. lia.
Qed.

(** The float of an int from [2^1024] on does not exist. *)
Lemma of_int_overflow n :
  (2 ^ 1024 <= n)%Z ->
  of_int n = Py.raise Py.OverflowError "int too large to convert to float".
Proof.
  intros Hn. unfold of_int.
  assert (B : pow2 1024 <= round (inject_Z n)).
  { assert (R : round (pow2 1024) == pow2 1024).
    { apply (round_dyadic _ 1 1024); [lia|lia|].
      change (inject_Z 1) with 1. ring. }
    rewrite <- R. pose proof (pow2_pos 1024). apply round_mono; [lra|].
    rewrite <- pow2_Z by lia. rewrite <- Zle_Qle. exact Hn. }
  assert (O : overflows (round (inject_Z n)) = true).
  { unfold overflows. apply Qle_bool_iff.
    apply Qle_trans with (round (inject_Z n)); [exact B|apply Qle_Qabs]. }
  rewrite O. reflexivity.
Qed.

End ExactRounding.

Section FormattedSize.
Import Py Float64 WebshareAPI.
Local Open Scope Q_scope.

Lemma append_assoc (a b c : string) :
  ((a +:+ b) +:+ c = a +:+ (b +:+ c))%string.
Proof.
  induction a as [|ch a IH]; [reflexivity|].
  change (String ch ((a +:+ b) +:+ c) = String ch (a +:+ (b +:+ c)))%string.
  f_equal. exact IH.
Qed.

Lemma kibi_pos k : (0 <= k)%Z -> (0 < 1024 ^ k)%Z.
Proof. intros Hk. apply Z.pow_pos_nonneg; lia. Qed.

Lemma kibi_Q_pos k : (0 <= k)%Z -> 0 < inject_Z (1024 ^ k).
Proof.
  intros Hk. change 0 with (inject_Z 0). rewrite <- Zlt_Qlt.
  apply kibi_pos, Hk.
Qed.

Lemma scaled_dyadic n k :
  (0 <= k)%Z ->
  inject_Z n / inject_Z (1024 ^ k) == inject_Z n * pow2 (- (10 * k)).
Proof.
  intros Hk. change 1024%Z with (2 ^ 10)%Z.
  rewrite <- Z.pow_mul_r by lia. rewrite pow2_Z by lia.
  unfold pow2. rewrite Qpower_opp. reflexivity.
Qed.

Lemma scaled_succ n k :
  (0 <= k)%Z ->
  inject_Z n / inject_Z (1024 ^ k) / 1024
  == inject_Z n / inject_Z (1024 ^ (k + 1)).
Proof.
  intros Hk. rewrite Z.pow_add_r by lia. rewrite inject_Z_mult.
  pose proof (kibi_Q_pos k Hk) as P. change (inject_Z (1024 ^ 1)) with 1024.
  field. lra.
Qed.

Lemma scaled_ge n k x :
  x == inject_Z n / inject_Z (1024 ^ k) ->
  (1024 ^ (k + 1) <= n)%Z -> (0 <= k)%Z -> Qle_bool 1024 x = true.
Proof.
  intros E Hn Hk. apply Qle_bool_iff. rewrite E.
  apply Qle_shift_div_l; [apply kibi_Q_pos, Hk|].
  change 1024 with (inject_Z 1024). rewrite <- inject_Z_mult, <- Zle_Qle.
  rewrite Z.pow_add_r in Hn by lia. lia.
Qed.

Lemma scaled_lt n k x :
  x == inject_Z n / inject_Z (1024 ^ k) ->
  (n < 1024 ^ (k + 1))%Z -> (0 <= k)%Z -> Qle_bool 1024 x = false.
Proof.
  intros E Hn Hk. destruct (Qle_bool 1024 x) eqn:B; [exfalso|reflexivity].
  apply Qle_bool_iff in B. rewrite E in B.
  pose proof (kibi_Q_pos k Hk) as P.
  assert (C : 1024 * inject_Z (1024 ^ k) <= inject_Z n).
  { apply Qle_trans
      with (inject_Z n / inject_Z (1024 ^ k) * inject_Z (1024 ^ k)).
    - apply Qmult_le_compat_r; [exact B|lra].
    - apply Qle_lteq. right. field. lra. }
  change 1024 with (inject_Z 1024) in C.
  rewrite <- inject_Z_mult, <- Zle_Qle in C.
  rewrite Z.pow_add_r in Hn by lia. lia.
Qed.

Lemma scaled_round n k x :
  (0 < n < 2 ^ 53)%Z -> (0 <= k < 4)%Z ->
  x == inject_Z n / inject_Z (1024 ^ k) ->
  round (x / 1024) == inject_Z n / inject_Z (1024 ^ (k + 1)).
Proof.
  intros Hn Hk E.
  assert (E' : x / 1024 == inject_Z n / inject_Z (1024 ^ (k + 1)))
    by (rewrite E; apply scaled_succ; lia).
  rewrite <- E'. apply (round_dyadic _ n (- (10 * (k + 1)))); [exact Hn|lia|].
  rewrite E'. apply scaled_dyadic. lia.
Qed.

Lemma unit_index_spec n i :
  (i <= 4)%nat ->
  (i = 0%nat \/ 1024 ^ Z.of_nat i <= n)%Z ->
  (i = 4%nat \/ n < 1024 ^ (Z.of_nat i + 1))%Z ->
  Closed.unit_index n = i.
Proof.
  intros Hi L U. unfold Closed.unit_index.
  destruct i as [|[|[|[|[|i]]]]]; [| | | | |lia];
    cbn [Z.of_nat Pos.of_succ_nat Pos.succ Z.add Pos.add] in L, U;
    repeat match goal with
           | |- context [(?a <? ?b)%Z] => destruct (Z.ltb_spec a b)
           end;
    try reflexivity; exfalso;
    repeat match goal with
           | D : _ \/ _ |- _ => destruct D; try discriminate; try lia
           end.
Qed.

(** The loop of [_format_file_size] on a positive size below [2^53]: the
    divisions are exact. *)
Lemma scale_size_exact n :
  (0 < n < 2 ^ 53)%Z ->
  forall fuel i x,
    (i + fuel = 4)%nat ->
    x == inject_Z n / inject_Z (1024 ^ Z.of_nat i) ->
    (i = 0%nat \/ 1024 ^ Z.of_nat i <= n)%Z ->
    exists y,
      scale_size fuel x i = (y, Closed.unit_index n)
      /\ y == inject_Z n / inject_Z (1024 ^ Z.of_nat (Closed.unit_index n)).
Proof.
  intros Hn. induction fuel as [|fuel IH]; intros i x Hi E L.
  - assert (i = 4%nat) by lia. subst i.
    rewrite (unit_index_spec n 4); [|lia|exact L|left; reflexivity].
    exists x. split; [reflexivity|exact E].
  - cbn [scale_size].
    assert (I4 : (i <? 4)%nat = true) by (apply Nat.ltb_lt; lia).
    rewrite I4, andb_true_r.
    destruct (Z_lt_ge_dec n (1024 ^ (Z.of_nat i + 1))) as [U|U].
    + rewrite (scaled_lt n (Z.of_nat i) x E U) by lia.
      rewrite (unit_index_spec n i); [|lia|exact L|right; exact U].
      exists x. split; [reflexivity|exact E].
    + rewrite (scaled_ge n (Z.of_nat i) x E) by lia.
      apply IH; [lia| |right].
      * replace (Z.of_nat (i + 1)) with (Z.of_nat i + 1)%Z by lia.
        apply scaled_round; [exact Hn|lia|exact E].
      * replace (Z.of_nat (i + 1)) with (Z.of_nat i + 1)%Z by lia. lia.
Qed.

(** X5.  For a positive size below [2^53] the float arithmetic of
    [_format_file_size] is exact: the text is the size divided by
    [1024^i], printed with one decimal (half to even), a space and the
    [i]-th unit, where [i] counts how often 1024 goes into the size, and is
    4 ('TB') from [1024^4] on. *)
Theorem format_file_size_exact (n : Z) :
  (0 < n < 2 ^ 53)%Z ->
  _format_file_size n
  = ret (format_1f
           (inject_Z n / inject_Z (1024 ^ Z.of_nat (Closed.unit_index n)))
         +:+ " " +:+ nth (Closed.unit_index n) size_names EmptyString)%string.
Proof.
  intros Hn. unfold _format_file_size.
  destruct (Z.eqb_spec n 0) as [->|_]; [lia|].
  destruct (of_int_exact n ltac:(lia)) as (x & -> & Ex). cbn [bind ret].
  destruct (scale_size_exact n Hn 4 0%nat x eq_refl) as (y & -> & Ey).
  - rewrite Ex. change (inject_Z (1024 ^ Z.of_nat 0)) with 1. field.
  - left. reflexivity.
  - rewrite (format_1f_eq _ _ Ey). reflexivity.
Qed.

(** X6.  A size between [-2^53] and 1024 that is not 0 is printed in
    bytes, as the integer followed by '.0 B'.  A negative size never
    reaches another unit, however large it is: the loop divides only what
    is at least 1024. *)
Theorem format_file_size_bytes (n : Z) :
  (- 2 ^ 53 < n < 1024)%Z -> n <> 0%Z ->
  _format_file_size n
  = ret ((if (n <? 0)%Z then "-" else EmptyString)
         +:+ str_of_int (Z.abs n) +:+ ".0 B")%string.
Proof.
  intros Hn N0. unfold _format_file_size.
  destruct (Z.eqb_spec n 0) as [|_]; [contradiction|].
  destruct (of_int_exact n ltac:(lia)) as (x & -> & Ex). cbn [bind ret].
  assert (S : scale_size 4 x 0 = (x, 0%nat)).
  { cbn [scale_size].
    replace (Qle_bool 1024 x) with false; [reflexivity|].
    symmetry. destruct (Qle_bool 1024 x) eqn:B; [exfalso|reflexivity].
    apply Qle_bool_iff in B. rewrite Ex in B.
    change 1024 with (inject_Z 1024) in B. rewrite <- Zle_Qle in B. lia. }
  rewrite S. rewrite (format_1f_int x n Ex).
  destruct (n <? 0)%Z; cbn [nth size_names]; unfold ret; f_equal;
    rewrite !append_assoc; reflexivity.
Qed.

End FormattedSize.

Section FormattedSizeSamples.
Import Py WebshareAPI.

Lemma format_file_size_exact_witness :
  (0 < 1536 < 2 ^ 53)%Z /\ _format_file_size 1536 = ret "1.5 KB".
Proof.
  split; [lia|]. rewrite (format_file_size_exact 1536 ltac:(lia)).
  vm_compute. reflexivity.
Defined.

Lemma format_file_size_bytes_witness :
  (- 2 ^ 53 < -5 < 1024)%Z /\ (-5 <> 0)%Z
  /\ _format_file_size (-5) = ret "-5.0 B".
Proof.
  split; [lia|]. split; [lia|].
  rewrite (format_file_size_bytes (-5) ltac:(lia) ltac:(lia)).
  vm_compute. reflexivity.
Defined.

End FormattedSizeSamples.

(* ===================================================================== *)
(** * The search results *)
(* ===================================================================== *)

Section SearchResults.
Import Py WebshareAPI.

Lemma bind_inr {A B} (m : result A) (k : A -> result B) b :
  bind m k = inr b -> exists a, m = inr a /\ k a = inr b.
Proof. destruct m as [e|a]; [discriminate|]. intros E. exists a. auto. Qed.

Lemma handlers_inr {A} prefix (m : result A) a :
  handlers prefix m = inr a -> m = inr a.
Proof.
  destruct m as [e|a']; [|auto]. unfold handlers.
  destruct (exc_class e); discriminate.
Qed.

Lemma except_parse_error_inr {A} msg (m : result A) a :
  except_parse_error msg m = inr a -> m = inr a.
Proof.
  destruct m as [e|a']; [|auto]. unfold except_parse_error.
  destruct (exc_class e); discriminate.
Qed.

Lemma format_file_size_of_int n x :
  Float64.of_int n = ret x -> exists text, _format_file_size n = inr text.
Proof.
  intros E. unfold _format_file_size. destruct (n =? 0); [eexists; reflexivity|].
  rewrite E. cbn [bind ret]. destruct (scale_size 4 x 0) as [y i].
  eexists. reflexivity.
Qed.

Lemma format_file_size_in_range n :
  - 2 ^ 53 < n < 2 ^ 64 -> exists text, _format_file_size n = inr text.
Proof.
  intros Hn. destruct (Z_lt_ge_dec n 0) as [N|N].
  - destruct (of_int_exact n ltac:(lia)) as (x & E & _).
    exact (format_file_size_of_int n x E).
  - apply format_file_size_defined. lia.
Qed.

Lemma format_file_size_oversize n :
  2 ^ 1024 <= n ->
  _format_file_size n
  = raise OverflowError "int too large to convert to float".
Proof.
  intros Hn. unfold _format_file_size.
  destruct (Z.eqb_spec n 0) as [->|_]; [lia|].
  rewrite (of_int_overflow n Hn). reflexivity.
Qed.

Lemma parse_file_sizes file_elem r :
  parse_file file_elem = inr r ->
  r_size r = get_elem_int file_elem "size"
  /\ _format_file_size (r_size r) = inr (r_sizeFormatted r).
Proof.
  unfold parse_file.
  destruct (_format_file_size (get_elem_int file_elem "size")) as [e|text] eqn:E;
    [discriminate|].
  cbn [bind ret]. intros R. injection R as <-. simpl. auto.
Qed.

Lemma parse_files_each files : forall results,
  parse_files files = inr results ->
  Forall2 (fun file_elem r => parse_file file_elem = inr r) files results.
Proof.
  induction files as [|f files IH]; intros results; cbn [parse_files].
  - intros E. injection E as <-. constructor.
  - destruct (parse_file f) as [e|r] eqn:Ef; [discriminate|]. cbn [bind].
    destruct (parse_files files) as [e|rs]; [discriminate|]. cbn [bind ret].
    intros E. injection E as <-. constructor; [exact Ef|]. apply IH. reflexivity.
Qed.

Lemma parse_each_sizes files results :
  Forall2 (fun file_elem r => parse_file file_elem = inr r) files results ->
  map r_size results
  = map (fun file_elem => get_elem_int file_elem "size") files
  /\ Forall (fun r => _format_file_size (r_size r) = inr (r_sizeFormatted r))
       results.
Proof.
  induction 1 as [|f r fs rs Ef _ [IH1 IH2]]; [split; constructor|].
  destruct (parse_file_sizes f r Ef) as [S1 S2]. split.
  - cbn [map]. f_equal; assumption.
  - constructor; assumption.
Qed.

Lemma parse_files_defined files :
  Forall (fun f => exists r, parse_file f = inr r) files ->
  exists results, parse_files files = inr results.
Proof.
  induction 1 as [|f files (r & Ef) _ (rs & Ers)]; cbn [parse_files].
  - eexists. reflexivity.
  - rewrite Ef. cbn [bind]. rewrite Ers. eexists. reflexivity.
Qed.

Lemma parse_files_fails files f e :
  In f files -> parse_file f = inl e -> exists e', parse_files files = inl e'.
Proof.
  induction files as [|g files IH]; intros I Ef; [destruct I|].
  cbn [parse_files]. destruct I as [->|I].
  - rewrite Ef. eexists. reflexivity.
  - destruct (parse_file g); [eexists; reflexivity|]. cbn [bind].
    destruct (IH I Ef) as (e' & ->). eexists. reflexivity.
Qed.

Lemma search_of_document self query response root :
  logged_in self = true -> truthy (token self) = true ->
  Http.http_error response = None ->
  Http.body response = Xml.Document root ->
  search self query (Http.Responded response)
  = handlers "Search failed: "
      (if eq_str (Xml.text_or (Xml.find "status" root) (Some "UNKNOWN")) "OK"
       then parse_files (Closed.result_elements root)
       else raise Exception
              ("Search failed: "
               +:+ fmt (Xml.text_or (Xml.find "message" root)
                          (Some "Unknown error")))).
Proof.
  intros L T Eh Eb. unfold search, require_login. rewrite L, T.
  destruct response as [http_error body]. simpl in Eh, Eb. subst.
  cbn [negb orb bind ret Http.send Http.raise_for_status Http.http_error
       Http.body Xml.fromstring].
  f_equal. destruct (eq_str _ "OK"); [|reflexivity].
  unfold _parse_search_results_xml. fold (Closed.result_elements root).
  destruct (parse_files _) as [e|rs] eqn:E; [|reflexivity].
  rewrite (parse_files_error _ _ E). reflexivity.
Qed.

(** X7.  When [search] returns, the server answered with a well-formed
    document, and the list has one entry for each [file] element below the
    root, in document order, or for each [item] element when there is no
    [file] element; [item] elements beside a [file] element are left out.
    In every entry ['size'] is what the element's [size] child reads as an
    int (0 when it is missing or when [int()] refuses its text, as it does
    a text that is no numeral or has more than 4300 digits) and
    ['sizeFormatted'] is [_format_file_size] of that number. *)
Theorem search_one_result_per_element (self : WebshareAPI.t)
    (query : string) (post : Http.outcome) (results : list search_result) :
  search self query post = inr results ->
  exists response root,
    post = Http.Responded response
    /\ Http.body response = Xml.Document root
    /\ length results = length (Closed.result_elements root)
    /\ map r_size results
       = map (fun file_elem => get_elem_int file_elem "size")
           (Closed.result_elements root)
    /\ Forall (fun r => _format_file_size (r_size r) = inr (r_sizeFormatted r))
         results
    /\ (Xml.findall_below "file" root <> [] ->
        length results = length (Xml.findall_below "file" root)).
Proof.
  intros E.
  assert (P : exists response root,
            post = Http.Responded response
            /\ Http.body response = Xml.Document root
            /\ parse_files (Closed.result_elements root) = inr results).
  { unfold search in E. apply handlers_inr in E.
    apply bind_inr in E. destruct E as (u & _ & E).
    apply bind_inr in E. destruct E as (response & Es & E).
    apply bind_inr in E. destruct E as (u' & _ & E).
    apply except_parse_error_inr in E.
    apply bind_inr in E. destruct E as (root & Er & E).
    destruct post as [err|response']; [discriminate|]. injection Es as ->.
    exists response, root. split; [reflexivity|].
    destruct (Http.body response) as [err|root'] eqn:Eb; [discriminate|].
    injection Er as ->. split; [reflexivity|].
    destruct (eq_str _ "OK"); [exact E|discriminate]. }
  destruct P as (response & root & -> & Eb & Ep).
  exists response, root. split; [reflexivity|]. split; [exact Eb|].
  apply parse_files_each in Ep.
  assert (Len : length results = length (Closed.result_elements root)).
  { symmetry. eapply Forall2_length. exact Ep. }
  split; [exact Len|]. destruct (parse_each_sizes _ _ Ep) as [Sz Fm].
  split; [exact Sz|]. split; [exact Fm|].
  intros NE. rewrite Len. unfold Closed.result_elements.
    destruct (Xml.findall_below "file" root); [contradiction|reflexivity].
Qed.

(** X8.  One entry is enough to lose the whole list: if the [size] of one
    of the elements reads as [2^1024] or more, [search] raises, with the
    text of Python's [OverflowError], though the server answered 'OK'.
    When every [size] lies between [-2^53] and [2^64], [search] returns;
    a [size] of more than 4300 digits reads as 0, and lies there. *)
Theorem search_size_range (self : WebshareAPI.t) (query : string)
    (response : Http.response) (root status_elem : Xml.element) :
  logged_in self = true ->
  truthy (token self) = true ->
  Http.http_error response = None ->
  Http.body response = Xml.Document root ->
  Xml.find "status" root = Some status_elem ->
  Xml.text status_elem = Some "OK" ->
  ((exists file_elem,
      In file_elem (Closed.result_elements root)
      /\ 2 ^ 1024 <= get_elem_int file_elem "size") ->
   search self query (Http.Responded response)
   = raise Exception "Search failed: int too large to convert to float")
  /\ (Forall (fun file_elem =>
                - 2 ^ 53 < get_elem_int file_elem "size" < 2 ^ 64)
        (Closed.result_elements root) ->
      exists results, search self query (Http.Responded response) = inr results).
Proof.
  intros L T Eh Eb Es Et.
  rewrite (search_of_document self query response root L T Eh Eb).
  rewrite Es. cbn [Xml.text_or]. rewrite Et.
  change (eq_str (Some "OK") "OK") with true. cbv iota.
  split.
  - intros (f & I & Big).
    assert (Ef : parse_file f
                 = raise OverflowError "int too large to convert to float").
    { unfold parse_file. rewrite (format_file_size_oversize _ Big). reflexivity. }
    destruct (parse_files_fails _ f _ I Ef) as (e' & E').
    rewrite E'. rewrite (parse_files_error _ _ E'). reflexivity.
  - intros F.
    destruct (parse_files_defined (Closed.result_elements root)) as (rs & ->).
    + eapply Forall_impl; [exact F|]. intros f Hf. simpl in Hf.
      destruct (format_file_size_in_range _ Hf) as (text & E).
      unfold parse_file. rewrite E. eexists. reflexivity.
    + eexists. reflexivity.
Qed.

(** X9.  The two readers of a size agree where the stricter one reads
    anything: when [initiate_download]'s reader (lines 252-258) gives a
    number other than 0 for the [size] child of an element, [search]'s
    reader [get_elem_int] gives the same number for it. *)
Theorem size_readers_agree (elem : Xml.element) (n : Z) :
  parse_file_size (Xml.find "size" elem) = ret n ->
  n <> 0 ->
  get_elem_int elem "size" = n.
Proof.
  rewrite parse_file_size_spec. intros E N0. injection E as E.
  unfold Spec.size_read in E. unfold get_elem_int, get_elem_text.
  destruct (Xml.find "size" elem) as [size_elem|]; [|congruence].
  cbn [Xml.text_or]. destruct (Xml.text size_elem) as [s|]; [|congruence].
  destruct (Spec.decimal_value (code_points s)) as [m|] eqn:D; [|congruence].
  destruct (int_of_decimal s m D) as (_ & _ & I).
  destruct (length (code_points s) <=? 4300)%nat; [|congruence].
  rewrite I. exact E.
Qed.

End SearchResults.

Section SearchSamples.
Import Py WebshareAPI Cases.

(** X7 on an answer with a size that is no numeral, and on one with a size
    of 4301 digits, which [int()] refuses. *)
Lemma search_one_result_per_element_witness :
  (exists results,
     search client "ubuntu"
       (Http.Responded
          (search_ok [file_elem "a" "a.iso" "1536"; file_elem "b" "b.iso" "big"]))
     = inr results
     /\ length results = 2%nat
     /\ map r_size results = [1536; 0])
  /\ exists results,
       search client "ubuntu"
         (Http.Responded
            (search_ok [file_elem "a" "a.iso" Sample.long_size]))
       = inr results
       /\ map r_size results = [0]
       /\ map r_sizeFormatted results = ["0 B"].
Proof.
  split.
  - destruct (search client "ubuntu"
                (Http.Responded
                   (search_ok [file_elem "a" "a.iso" "1536";
                               file_elem "b" "b.iso" "big"])))
      as [e|results] eqn:E; [vm_compute in E; discriminate|].
    exists results. split; [reflexivity|].
    destruct (search_one_result_per_element _ _ _ _ E)
      as (response & root & Ep & Eb & Len & Sz & _).
    injection Ep as <-. injection Eb as <-.
    rewrite Len, Sz. split; vm_compute; reflexivity.
  - destruct (search client "ubuntu"
                (Http.Responded
                   (search_ok [file_elem "a" "a.iso" Sample.long_size])))
      as [e|results] eqn:E; [vm_compute in E; discriminate|].
    exists results. split; [reflexivity|].
    destruct (search_one_result_per_element _ _ _ _ E)
      as (response & root & Ep & Eb & Len & Sz & Fm & _).
    injection Ep as <-. injection Eb as <-.
    assert (Sz' : map r_size results = [0])
      by (rewrite Sz; vm_compute; reflexivity).
    split; [exact Sz'|].
    destruct results as [|r [|r' rest]]; try discriminate Sz'.
    injection Sz' as Er. apply Forall_cons in Fm as [Fr _].
    rewrite Er in Fr. cbn [map]. injection Fr as <-. reflexivity.
Defined.

(** X8 on a size of 310 digits, on a negative size, and on a size of 4301
    digits, which reads as 0. *)
Lemma search_size_range_witness :
  search client "ubuntu"
    (Http.Responded
       (search_ok [file_elem "a" "a.iso" "1536"; file_elem "b" "b.iso" huge]))
  = raise Exception "Search failed: int too large to convert to float"
  /\ (exists results,
        search client "ubuntu"
          (Http.Responded
             (search_ok [file_elem "a" "a.iso" "1536";
                         file_elem "b" "b.iso" "-7"]))
        = inr results)
  /\ get_elem_int (file_elem "b" "b.iso" Sample.long_size) "size" = 0
  /\ exists results,
       search client "ubuntu"
         (Http.Responded
            (search_ok [file_elem "a" "a.iso" "1536";
                        file_elem "b" "b.iso" Sample.long_size]))
       = inr results.
Proof.
  split; [|split; [|split; [vm_compute; reflexivity|]]].
  - apply (search_size_range client "ubuntu"
             (search_ok [file_elem "a" "a.iso" "1536"; file_elem "b" "b.iso" huge])
             (search_root [file_elem "a" "a.iso" "1536"; file_elem "b" "b.iso" huge])
             (Xml.Element "status" (Some "OK") []));
      try reflexivity.
    exists (file_elem "b" "b.iso" huge). split.
    + right. left. reflexivity.
    + vm_compute. discriminate.
  - apply (search_size_range client "ubuntu"
             (search_ok [file_elem "a" "a.iso" "1536"; file_elem "b" "b.iso" "-7"])
             (search_root [file_elem "a" "a.iso" "1536"; file_elem "b" "b.iso" "-7"])
             (Xml.Element "status" (Some "OK") []));
      try reflexivity.
    repeat constructor; vm_compute; reflexivity.
  - apply (search_size_range client "ubuntu"
             (search_ok [file_elem "a" "a.iso" "1536";
                         file_elem "b" "b.iso" Sample.long_size])
             (search_root [file_elem "a" "a.iso" "1536";
                           file_elem "b" "b.iso" Sample.long_size])
             (Xml.Element "status" (Some "OK") []));
      try reflexivity.
    repeat constructor; vm_compute; reflexivity.
Defined.

Lemma size_readers_agree_witness :
  parse_file_size (Xml.find "size" (file_elem "a" "a.iso" "1536")) = ret 1536
  /\ get_elem_int (file_elem "a" "a.iso" "1536") "size" = 1536.
Proof.
  split; [reflexivity|].
  apply (size_readers_agree (file_elem "a" "a.iso" "1536") 1536);
    [reflexivity|lia].
Defined.

End SearchSamples.

(* ===================================================================== *)
(** * Requests that the server refuses *)
(* ===================================================================== *)

Section Refusals.
Import Py WebshareAPI.

(** X10.  When the server answers without an HTTP error but the status in
    the document is not 'OK' (or there is none), [search],
    [initiate_download] and [get_salt] raise an [Exception] whose text
    carries the words of the method twice, followed by the text of the
    [message] child: 'Unknown error' when there is no such child, 'None'
    when it is empty.  A body that is not well-formed XML gives 'Invalid
    server response' after the doubled words in [search] and
    [initiate_download], and the parser's own text in [get_salt]. *)
Theorem refusal_texts (self : WebshareAPI.t)
    (username query file_id : string) (response : Http.response) :
  logged_in self = true ->
  truthy (token self) = true ->
  Http.http_error response = None ->
  (forall root,
     Http.body response = Xml.Document root ->
     eq_str (Xml.text_or (Xml.find "status" root) (Some "UNKNOWN")) "OK"
     = false ->
     let message :=
       fmt (Xml.text_or (Xml.find "message" root) (Some "Unknown error")) in
     search self query (Http.Responded response)
     = raise Exception ("Search failed: Search failed: " +:+ message)
     /\ initiate_download self file_id (Http.Responded response)
        = raise Exception ("Download failed: Download failed: " +:+ message)
     /\ get_salt username (Http.Responded response)
        = raise Exception
            ("Failed to get salt: Failed to get salt: " +:+ message))
  /\ (forall err,
        Http.body response = Xml.Malformed err ->
        search self query (Http.Responded response)
        = raise Exception
            "Search failed: Search failed: Invalid server response"
        /\ initiate_download self file_id (Http.Responded response)
           = raise Exception
               "Download failed: Download failed: Invalid server response"
        /\ get_salt username (Http.Responded response)
           = raise Exception ("Failed to get salt: " +:+ err)).
Proof.
  intros L T Eh. destruct response as [http_error body].
  simpl in Eh. subst http_error. split.
  - intros root Eb Es message. simpl in Eb. subst body.
    unfold search, initiate_download, get_salt, require_login.
    rewrite L, T.
    cbn [negb orb bind ret Http.send Http.raise_for_status Http.http_error
         Http.body Xml.fromstring reraise].
    rewrite Es. repeat split.
    destruct (Xml.find "status" root) as [status_elem|]; [|reflexivity].
    cbn [Xml.text_or] in Es. rewrite Es. reflexivity.
  - intros err Eb. simpl in Eb. subst body.
    unfold search, initiate_download, get_salt, require_login.
    rewrite L, T. repeat split.
Qed.

End Refusals.

Section RefusalSamples.
Import Py WebshareAPI Cases.

Lemma refusal_texts_witness :
  search client "ubuntu" (Http.Responded refused)
  = raise Exception "Search failed: Search failed: Access denied"
  /\ initiate_download client "f1" (Http.Responded refused)
     = raise Exception "Download failed: Download failed: Access denied"
  /\ get_salt "alice" (Http.Responded refused)
     = raise Exception "Failed to get salt: Failed to get salt: Access denied".
Proof.
  destruct (refusal_texts client "alice" "ubuntu" "f1" refused
              eq_refl eq_refl eq_refl) as [R _].
  exact (R refused_root eq_refl eq_refl).
Defined.

End RefusalSamples.

(* ===================================================================== *)
(** * The blocking download and the background worker *)
(* ===================================================================== *)

Section BlockingDownload.
Import Py WebshareAPI App SyncDownload.

Lemma total_length_nonneg l : 0 <= total_length l.
Proof.
  induction l as [|c l IH]; [reflexivity|]. cbn [total_length fold_right].
  fold (total_length l). lia.
Qed.

Lemma total_length_cons c l :
  total_length (c :: l) = Z.of_nat (length (fst c)) + total_length l.
Proof. reflexivity. Qed.

(** The loop counts every byte of every chunk, and ends early only when a
    write fails. *)
Lemma write_chunks_total l : forall d n,
  write_chunks l d = inr n ->
  n = d + total_length l
  /\ Forall (fun c => fst c = [] \/ snd c = None) l.
Proof.
  induction l as [|[chunk write_error] l IH]; intros d n E.
  - injection E as <-. cbn. split; [lia|constructor].
  - rewrite total_length_cons. cbn [fst]. destruct chunk as [|b chunk].
    + cbn [write_chunks] in E. destruct (IH _ _ E) as [-> F].
      split; [cbn [length]; lia|]. constructor; [left; reflexivity|exact F].
    + cbn [write_chunks] in E. destruct write_error as [err|]; [discriminate|].
      cbn [os_call bind ret] in E. destruct (IH _ _ E) as [-> F].
      split; [lia|]. constructor; [right; reflexivity|exact F].
Qed.

Lemma run_worker_cons client w ev rest acts w' :
  run_segment client w ev = Some (acts, w') ->
  run_worker client w (ev :: rest) = acts ++ run_worker client w' rest.
Proof. intros E. cbn [run_worker]. rewrite E. reflexivity. Qed.

(** The worker goes through the chunks as [write_chunks] does. *)
Lemma chunks_simulated client fid fn path total file_path l : forall d,
  0 <= d -> d + total_length l < 2 ^ 64 ->
  match write_chunks l d with
  | inr n =>
      exists pre, forall rest,
        run_worker client (Worker fid fn path (AtStream total d file_path))
          (map chunk_event l ++ rest)
        = pre ++ run_worker client
                   (Worker fid fn path (AtStream total n file_path)) rest
  | inl e =>
      exists pre, forall rest,
        run_worker client (Worker fid fn path (AtStream total d file_path))
          (map chunk_event l ++ rest)
        = pre ++ [Fail fn (exc_str e)]
  end.
Proof.
  induction l as [|[chunk write_error] l IH]; intros d Hd Hl.
  - exists []. intros rest. reflexivity.
  - rewrite total_length_cons in Hl. cbn [fst] in Hl.
    pose proof (total_length_nonneg l) as Tl.
    cbn [map app chunk_event fst snd].
    destruct chunk as [|b chunk].
    + cbn [write_chunks]. cbn [length] in Hl.
      specialize (IH d Hd ltac:(lia)).
      destruct (write_chunks l d) as [e|n]; destruct IH as (pre & IH);
        exists pre; intros rest;
        erewrite run_worker_cons by reflexivity; apply IH.
    + cbn [write_chunks]. destruct write_error as [err|].
      * cbn [os_call bind raise]. exists []. intros rest.
        erewrite run_worker_cons by reflexivity.
        rewrite run_worker_finished by reflexivity. reflexivity.
      * cbn [os_call bind ret].
        set (d' := d + Z.of_nat (length (b :: chunk))) in *.
        specialize (IH d' ltac:(lia) ltac:(lia)).
        assert (S : exists acts,
                  run_segment client
                    (Worker fid fn path (AtStream total d file_path))
                    (Chunk (b :: chunk) None)
                  = Some (acts, Worker fid fn path
                                  (AtStream total d' file_path))).
        { cbn [run_segment at_pc on_chunk file_id file_name download_path].
          fold d'. destruct (Z.ltb_spec 0 total) as [Ht|Ht].
          - rewrite (progress_percent_defined d' total) by lia.
            eexists. reflexivity.
          - eexists. reflexivity. }
        destruct S as (acts & S).
        destruct (write_chunks l d') as [e|n]; destruct IH as (pre & IH);
          exists (acts ++ pre); intros rest;
          rewrite (run_worker_cons _ _ _ _ _ _ S), IH, app_assoc; reflexivity.
Qed.

Lemma run_worker_pair client w ev rest p :
  run_segment client w ev = Some p ->
  run_worker client w (ev :: rest) = fst p ++ run_worker client (snd p) rest.
Proof. intros E. cbn [run_worker]. rewrite E. destruct p. reflexivity. Qed.

(** X11.  When [download_file] returns, the link was resolved, no call of
    the operating system failed and the stream ended without an error; the
    name is the one asked for, or the server's when none was asked for;
    the path is [os.path.join] of the directory and that name; and the
    size is the number of bytes of the chunks that arrived, whatever the
    Content-Length header said.  The header still has to read as an int
    when it is there: its value is computed and not used. *)
Theorem download_file_returns (self : WebshareAPI.t)
    (file_id download_path : string) (filename : option string)
    (post : Http.outcome) (makedirs_error : option string)
    (get : get_outcome) (open_error : option string) (body : stream)
    (res : download_result) :
  download_file self file_id download_path filename post makedirs_error
    get open_error body = inr res ->
  exists info response,
    initiate_download self file_id post = inr info
    /\ Some (d_fileName res)
       = (if truthy filename then filename else fileName info)
    /\ d_filePath res = path_join download_path (d_fileName res)
    /\ d_size res = total_length (chunks body)
    /\ makedirs_error = None /\ open_error = None /\ broken body = None
    /\ get = GetResponded response
    /\ get_http_error response = None
    /\ match content_length response with
       | Some text => exists n, Py.int text = inr n
       | None => True
       end.
Proof.
  unfold download_file. intros E.
  destruct (initiate_download self file_id post) as [e|info]; [discriminate|].
  cbn [bind] in E. exists info.
  destruct makedirs_error as [err|]; [discriminate|]. cbn [os_call bind ret] in E.
  destruct (if truthy filename then filename else fileName info)
    as [name|] eqn:En; [|discriminate].
  cbn [bind ret] in E.
  destruct get as [err|response]; [discriminate|]. cbn [bind ret] in E.
  exists response.
  destruct (get_http_error response) as [err|]; [discriminate|].
  cbn [bind ret] in E.
  assert (C : match content_length response with
              | Some text => exists n, Py.int text = inr n
              | None => True
              end
              /\ reraise "Download failed: "
                   (let* _ := os_call open_error in
                    let* downloaded_size := read_stream body in
                    let* _ := _format_file_size downloaded_size in
                    ret {| d_fileName := name;
                           d_filePath := path_join download_path name;
                           d_size := downloaded_size |}) = inr res).
  { destruct (content_length response) as [text|]; [|auto].
    destruct (Py.int text) as [e|n]; [discriminate|]. eauto. }
  clear E. destruct C as [C E].
  destruct open_error as [err|]; [discriminate|]. cbn [os_call bind ret] in E.
  unfold read_stream in E.
  destruct (write_chunks (chunks body) 0) as [e|n] eqn:Ew; [discriminate|].
  cbn [bind] in E. destruct (broken body) as [err|]; [discriminate|].
  cbn [bind ret] in E.
  destruct (_format_file_size n) as [e|text]; [discriminate|].
  cbn [bind ret reraise] in E. injection E as <-. cbn [d_fileName d_filePath d_size].
  destruct (write_chunks_total _ _ _ Ew) as [-> _].
  repeat split; auto.
Qed.

(** X12.  The background worker is [download_file] with reports.  Let the
    environment answer a worker as it answers a call of [download_file]
    for the same file id, name and directory, the chunks holding fewer
    than [2^64] bytes.  If [download_file] returns, the worker ends with
    the statements of a completed download, and the path and the final
    size it reports are those [download_file] returns.  If
    [download_file] raises, the worker ends in its handler, and the
    message of the error entry it writes is the text of the exception
    that [download_file] raises. *)
Theorem worker_follows_download_file (client : WebshareAPI.t)
    (fid path : string) (fname : option string) (post : Http.outcome)
    (makedirs_error : option string) (get : get_outcome)
    (open_error : option string) (body : stream) :
  total_length (chunks body) < 2 ^ 64 ->
  let acts :=
    run_worker client (Worker fid fname path AtStart)
      (events post makedirs_error get open_error body) in
  match download_file client fid path fname post makedirs_error get
          open_error body with
  | inr res =>
      exists pre, acts = pre ++ completion (d_filePath res) (d_size res)
  | inl e =>
      exists pre fn err,
        acts = pre ++ [Fail fn err]
        /\ exc_str e = j_message (error_job fn err)
  end.
Proof.
  intros Hl acts. subst acts. unfold events, download_file. cbn [app].
  erewrite run_worker_cons by reflexivity.
  erewrite run_worker_pair by reflexivity.
  unfold resolve. cbn [file_id file_name download_path].
  destruct (initiate_download client fid post) as [e|info].
  { cbn [bind reraise fst snd]. exists [Register fname], fname, (exc_str e).
    split; [|reflexivity]. rewrite run_worker_finished by reflexivity.
    reflexivity. }
  cbn [bind].
  set (fn := if truthy fname then fname else fileName info).
  destruct makedirs_error as [err|].
  { cbn [os_call bind raise reraise fst snd].
    exists [Register fname], fn, err.
    split; [|reflexivity]. rewrite run_worker_finished by reflexivity.
    reflexivity. }
  cbn [os_call bind ret]. destruct fn as [name|].
  2: { cbn [bind raise reraise fst snd]. eexists [Register fname], None, _.
       split; [|reflexivity]. rewrite run_worker_finished by reflexivity.
       reflexivity. }
  cbn [bind ret fst snd].
  erewrite run_worker_pair by reflexivity.
  unfold connect. cbn [file_id file_name download_path].
  set (ready := [Register fname; SetItem (Message "Connecting to server...");
                 SetItem (Progress 5)]).
  destruct get as [err|response].
  { cbn [bind raise reraise fst snd]. exists ready, (Some name), err.
    split; [|reflexivity]. rewrite run_worker_finished by reflexivity.
    reflexivity. }
  cbn [bind ret].
  destruct (get_http_error response) as [err|].
  { cbn [bind raise reraise fst snd]. exists ready, (Some name), err.
    split; [|reflexivity]. rewrite run_worker_finished by reflexivity.
    reflexivity. }
  cbn [bind ret].
  assert (T : (exists e,
                 match content_length response with
                 | Some text => Py.int text
                 | None => ret (fileSize info)
                 end = inl e
                 /\ match content_length response with
                    | Some text => Py.int text
                    | None => ret 0
                    end = inl e)
              \/ (exists total n,
                    match content_length response with
                    | Some text => Py.int text
                    | None => ret (fileSize info)
                    end = inr total
                    /\ match content_length response with
                       | Some text => Py.int text
                       | None => ret 0
                       end = inr n)).
  { destruct (content_length response) as [text|]; [|right; eauto].
    destruct (Py.int text) as [e|n]; [left|right]; eauto. }
  destruct T as [(e & -> & ->)|(total & n0 & -> & ->)].
  { cbn [bind reraise fst snd]. exists ready, (Some name), (exc_str e).
    split; [|reflexivity]. rewrite run_worker_finished by reflexivity.
    reflexivity. }
  cbn [bind].
  set (opened := ready ++ [SetItem (Message "Downloading... 0%");
                           SetItem (Progress 10);
                           SetItem (TotalSize total)]).
  destruct open_error as [err|].
  { cbn [os_call bind raise reraise fst snd]. exists opened, (Some name), err.
    split; [|reflexivity]. rewrite run_worker_finished by reflexivity.
    reflexivity. }
  cbn [os_call bind ret fst snd]. unfold read_stream.
  pose proof (chunks_simulated client fid (Some name) path total
                (path_join path name) (chunks body) 0 ltac:(lia) ltac:(lia))
    as Sim.
  destruct (write_chunks (chunks body) 0) as [e|n] eqn:Ew.
  { destruct Sim as (pre & Sim). cbn [bind reraise].
    exists (opened ++ pre), (Some name), (exc_str e).
    split; [|reflexivity]. rewrite Sim. unfold opened, ready.
    rewrite <- !app_assoc. reflexivity. }
  destruct Sim as (pre & Sim). rewrite Sim. cbn [bind].
  destruct (write_chunks_total _ _ _ Ew) as [En _].
  destruct (broken body) as [err|].
  { cbn [bind raise reraise]. exists (opened ++ pre), (Some name), err.
    split; [|reflexivity]. erewrite run_worker_cons by reflexivity.
    unfold opened, ready. cbn [run_worker]. rewrite <- !app_assoc.
    reflexivity. }
  cbn [bind ret].
  erewrite run_worker_pair by reflexivity.
  cbn [run_worker]. unfold finish. cbn [file_id file_name download_path].
  destruct (_format_file_size n) as [e|text].
  { cbn [bind reraise fst snd].
    exists (opened ++ pre
            ++ [SetItem (Status Completed); SetItem (Progress 100);
                SetItem (Message "Download completed!");
                SetItem (FilePath (path_join path name));
                SetItem (FinalSize n)]), (Some name), (exc_str e).
    split; [|reflexivity]. unfold opened, ready.
    rewrite <- !app_assoc. reflexivity. }
  cbn [bind ret reraise fst snd d_filePath d_size].
  exists (opened ++ pre). unfold opened, ready, completion.
  rewrite <- !app_assoc. reflexivity.
Qed.

End BlockingDownload.

Section BlockingDownloadSamples.
Import Py WebshareAPI App SyncDownload Sample Cases.

Lemma download_file_returns_witness :
  exists res,
    download_file client "f1" "/downloads" None (file_link_ok (Some "40"))
      None (get_ok (Some "40")) None body32 = inr res
    /\ d_size res = 32
    /\ d_filePath res = "/downloads/download".
Proof.
  destruct (download_file client "f1" "/downloads" None
              (file_link_ok (Some "40")) None (get_ok (Some "40")) None body32)
    as [e|res] eqn:E; [vm_compute in E; discriminate|].
  exists res. split; [reflexivity|].
  destruct (download_file_returns _ _ _ _ _ _ _ _ _ _ E)
    as (info & response & Ei & En & Ep & Es & _).
  vm_compute in Ei. injection Ei as <-.
  cbn [truthy fileName] in En. injection En as En.
  rewrite Es, Ep, En. split; reflexivity.
Defined.

Lemma worker_follows_download_file_witness :
  total_length (chunks body32) < 2 ^ 64
  /\ (exists pre,
        run_worker client (Worker "f1" (Some "a.iso") "/downloads" AtStart)
          (events (file_link_ok (Some "40")) None (get_ok (Some "40")) None
             body32)
        = pre ++ completion "/downloads/a.iso" 32)
  /\ (exists pre fn err,
        run_worker client (Worker "f1" (Some "a.iso") "/downloads" AtStart)
          (events (file_link_ok (Some "40")) None (get_ok (Some "40")) None
             body_broken)
        = pre ++ [Fail fn err]
        /\ "Download failed: connection reset" = j_message (error_job fn err)).
Proof.
  split; [vm_compute; reflexivity|]. split.
  - pose proof (worker_follows_download_file client "f1" "/downloads"
                  (Some "a.iso") (file_link_ok (Some "40")) None
                  (get_ok (Some "40")) None body32
                  ltac:(vm_compute; reflexivity)) as W.
    cbv zeta in W.
    replace (download_file client "f1" "/downloads" (Some "a.iso")
               (file_link_ok (Some "40")) None (get_ok (Some "40")) None
               body32)
      with (@inr exn _ (DownloadResult "a.iso" "/downloads/a.iso" 32)) in W
      by (vm_compute; reflexivity).
    exact W.
  - pose proof (worker_follows_download_file client "f1" "/downloads"
                  (Some "a.iso") (file_link_ok (Some "40")) None
                  (get_ok (Some "40")) None body_broken
                  ltac:(vm_compute; reflexivity)) as W.
    cbv zeta in W.
    replace (download_file client "f1" "/downloads" (Some "a.iso")
               (file_link_ok (Some "40")) None (get_ok (Some "40")) None
               body_broken)
      with (@inl exn download_result
              (Raise Exception "Download failed: connection reset")) in W
      by (vm_compute; reflexivity).
    exact W.
Defined.

End BlockingDownloadSamples.

(* ===================================================================== *)
(** * Start-up and the routes for login, status and search *)
(* ===================================================================== *)

Section RoutesFacts.
Import Py WebshareAPI.
Context {H : HashLib}.

Lemma login_raises self rnd username password salt_post login_post e self' :
  login self rnd username password salt_post login_post = (inl e, self') ->
  self' = self /\ exists text, exc_str e = "Login failed: " +:+ text.
Proof.
  unfold login. destruct (handlers _ _) as [e1|a] eqn:E; [|discriminate].
  intros E1. injection E1 as -> <-. split; [reflexivity|].
  apply handlers_shape in E. apply E.
Qed.

Lemma login_returns_logged_in self rnd username password salt_post login_post
    u self' :
  login self rnd username password salt_post login_post = (inr u, self') ->
  logged_in self' = true.
Proof.
  intros E.
  pose proof (login_cases self rnd username password salt_post login_post) as C.
  rewrite E in C. exact C.
Qed.

(** X13.  What the module body leaves behind.  [login_status] is
    'success' exactly when the client is logged in, and 'not_configured'
    exactly when a credential is missing or empty; it is one of
    'success', 'error' and 'not_configured'.  With a credential missing
    the client is the fresh one: no request was sent.  After a failed
    login the client is the fresh one too, and [login_message] begins
    with 'Login failed: Login failed: ', the words of the module
    followed by those of [WebshareAPI.login]. *)
Theorem startup_status (username password : option string) (rnd : string)
    (salt_post login_post : Http.outcome) :
  let a := Routes.startup username password rnd salt_post login_post in
  (Routes.login_status a = "success"
   <-> logged_in (Routes.webshare_client a) = true)
  /\ (Routes.login_status a = "not_configured"
      <-> Routes.credentials username password = None)
  /\ (Routes.login_status a = "success"
      \/ Routes.login_status a = "error"
      \/ Routes.login_status a = "not_configured")
  /\ (Routes.credentials username password = None ->
      Routes.webshare_client a = WebshareAPI.init)
  /\ (Routes.login_status a = "error" ->
      Routes.webshare_client a = WebshareAPI.init
      /\ exists text,
           Routes.login_message a = "Login failed: Login failed: " +:+ text).
Proof.
  unfold Routes.startup.
  destruct (Routes.credentials username password) as [[u p]|].
  - destruct (login WebshareAPI.init rnd u p salt_post login_post)
      as [[e|[]] c] eqn:E.
    + destruct (login_raises _ _ _ _ _ _ _ _ E) as (-> & text & Et).
      cbn. repeat split; try discriminate; auto.
      exists text. rewrite Et. reflexivity.
    + pose proof (login_returns_logged_in _ _ _ _ _ _ _ _ E) as L.
      cbn. repeat split; try discriminate; auto.
  - cbn. repeat split; try discriminate; auto.
Qed.

(** X14.  The route [/api/login] never logs in twice.  Once the client is
    logged in, every request to the route is answered 200 'Already logged
    in' and leaves the client, and with it the token, as it is, whatever
    the server would answer: no request is sent to it. *)
Theorem login_route_once (a : Routes.app)
    (reqs : list (string * Http.outcome * Http.outcome)) :
  logged_in (Routes.webshare_client a) = true ->
  Routes.logins a reqs
  = (a, map (fun _ => (200, Routes.Success "Already logged in")) reqs).
Proof.
  intros L. induction reqs as [|[[rnd salt_post] login_post] reqs IH];
    [reflexivity|].
  cbn [Routes.logins map]. unfold Routes.login. rewrite L, IH. reflexivity.
Qed.

(** X15.  The route [/api/login] on a client that is not logged in.
    Without credentials it answers 400 'No credentials configured' and
    changes nothing.  With credentials it calls [WebshareAPI.login]: if
    that returns, the answer is 200 and the client is logged in; if it
    raises, the answer is 400 with the text of the exception, which
    begins with 'Login failed: ', and the client is as before.  In no
    case does the route touch [login_status] and [login_message]:
    [/api/status] keeps reporting what the start-up left, also next to a
    [logged_in] that has become true. *)
Theorem login_route_answers (a : Routes.app) (rnd : string)
    (salt_post login_post : Http.outcome) :
  logged_in (Routes.webshare_client a) = false ->
  let a' := fst (Routes.login a rnd salt_post login_post) in
  let r := snd (Routes.login a rnd salt_post login_post) in
  match Routes.credentials (Routes.WEBSHARE_USERNAME a)
          (Routes.WEBSHARE_PASSWORD a) with
  | None => a' = a /\ r = (400, Routes.Failure "No credentials configured")
  | Some (u, p) =>
      match login (Routes.webshare_client a) rnd u p salt_post login_post with
      | (inr _, c) =>
          a' = Routes.with_client c a
          /\ r = (200, Routes.Success "Logged in successfully")
          /\ logged_in (Routes.webshare_client a') = true
      | (inl e, _) =>
          a' = a
          /\ r = (400, Routes.Failure (exc_str e))
          /\ exists text, exc_str e = "Login failed: " +:+ text
      end
  end
  /\ exists cfg user,
       Routes.status a'
       = (200, Routes.StatusReport (logged_in (Routes.webshare_client a')) cfg
                 (Routes.login_status a) (Routes.login_message a) user).
Proof.
  intros L a' r. subst a' r. unfold Routes.login. rewrite L.
  destruct (Routes.credentials _ _) as [[u p]|].
  - destruct (login (Routes.webshare_client a) rnd u p salt_post login_post)
      as [[e|u'] c] eqn:E.
    + destruct (login_raises _ _ _ _ _ _ _ _ E) as (-> & text & Et).
      cbn [fst snd]. split.
      * split; [destruct a; reflexivity|]. split; [reflexivity|eauto].
      * eexists _, _. reflexivity.
    + pose proof (login_returns_logged_in _ _ _ _ _ _ _ _ E) as L'.
      cbn [fst snd]. split.
      * split; [reflexivity|]. split; [reflexivity|exact L'].
      * eexists _, _. reflexivity.
  - cbn [fst snd]. split; [split; reflexivity|].
    eexists _, _. reflexivity.
Qed.

End RoutesFacts.

Section SearchRoute.
Import Py WebshareAPI.

(** X16.  The route [/api/search].  A query that is missing or empty is
    answered 400 without a look at the client.  Otherwise the answer is
    200 with the list when [WebshareAPI.search] returns, and 500 with the
    text of the exception when it raises; a client that is not logged
    in, or whose token is empty, is thus answered 500 'Search failed: Not
    logged in. Please login first.', whatever the server would say. *)
Theorem search_route_answers (a : Routes.app) (query : option string)
    (post : Http.outcome) :
  (truthy query = false ->
   Routes.search a query post
   = (400, Routes.Failure "Query parameter is required"))
  /\ (forall q, query = Some q -> truthy query = true ->
      Routes.search a query post
      = match search (Routes.webshare_client a) q post with
        | inr results => (200, Routes.Results results)
        | inl e => (500, Routes.Failure (exc_str e))
        end)
  /\ (truthy query = true ->
      logged_in (Routes.webshare_client a) = false
      \/ truthy (token (Routes.webshare_client a)) = false ->
      Routes.search a query post
      = (500, Routes.Failure
                "Search failed: Not logged in. Please login first.")).
Proof.
  unfold Routes.search. split; [|split].
  - intros T. destruct query as [q|]; [|reflexivity]. rewrite T. reflexivity.
  - intros q -> T. rewrite T. reflexivity.
  - intros T G. destruct query as [q|]; [|discriminate]. rewrite T.
    cbn [negb].
    destruct (guard_rejects (Routes.webshare_client a) q q post G) as [-> _].
    reflexivity.
Qed.

End SearchRoute.

Section RoutesSamples.
Import Py WebshareAPI Sample Cases.

Lemma login_route_once_witness :
  Routes.logins app_logged_in
    [("zzzzzzzz", salt_ok, login_ok (Some "new"));
     ("zzzzzzzz", Http.Failed "unreachable", Http.Failed "unreachable")]
  = (app_logged_in,
     [(200, Routes.Success "Already logged in");
      (200, Routes.Success "Already logged in")]).
Proof.
  exact (login_route_once app_logged_in
           [("zzzzzzzz", salt_ok, login_ok (Some "new"));
            ("zzzzzzzz", Http.Failed "unreachable", Http.Failed "unreachable")]
           eq_refl).
Defined.

Lemma login_route_answers_witness :
  logged_in (Routes.webshare_client app_logged_out) = false
  /\ fst (Routes.login app_logged_out "zzzzzzzz" (Http.Failed "unreachable")
            (login_ok (Some "tok")))
     = app_logged_out
  /\ snd (Routes.login app_logged_out "zzzzzzzz" (Http.Failed "unreachable")
            (login_ok (Some "tok")))
     = (400, Routes.Failure "Login failed: Failed to get salt: unreachable").
Proof.
  split; [reflexivity|].
  pose proof (login_route_answers app_logged_out "zzzzzzzz"
                (Http.Failed "unreachable") (login_ok (Some "tok")) eq_refl)
    as W.
  cbv zeta in W.
  change (Routes.credentials (Routes.WEBSHARE_USERNAME app_logged_out)
            (Routes.WEBSHARE_PASSWORD app_logged_out))
    with (Some ("alice", "secret")) in W.
  change (login (Routes.webshare_client app_logged_out) "zzzzzzzz" "alice"
            "secret" (Http.Failed "unreachable") (login_ok (Some "tok")))
    with (@inl exn unit
            (Raise Exception "Login failed: Failed to get salt: unreachable"),
          WebshareAPI.init) in W.
  destruct W as [(Ea & Er & _) _]. split; [exact Ea|exact Er].
Defined.

End RoutesSamples.

(* ===================================================================== *)
(** * The list of downloaded files *)
(* ===================================================================== *)

Section Listing.
Import Py WebshareAPI Routes.
Local Open Scope Q_scope.

Lemma insert_newest_perm x l : insert_newest x l ≡ₚ x :: l.
Proof.
  induction l as [|y l IH]; [reflexivity|]. cbn [insert_newest].
  destruct (Qle_bool _ _); [reflexivity|].
  rewrite IH. apply perm_swap.
Qed.

Lemma sort_newest_first_perm l : sort_newest_first l ≡ₚ l.
Proof.
  induction l as [|x l IH]; [reflexivity|]. cbn [sort_newest_first fold_right].
  fold (sort_newest_first l). rewrite insert_newest_perm, IH. reflexivity.
Qed.

Lemma insert_newest_sorted x l :
  StronglySorted not_older l -> StronglySorted not_older (insert_newest x l).
Proof.
  induction 1 as [|y l S IH F]; cbn [insert_newest].
  - repeat constructor.
  - destruct (Qle_bool (f_modified y) (f_modified x)) eqn:E.
    + apply Qle_bool_iff in E. constructor; [constructor; assumption|].
      constructor; [exact E|].
      eapply Forall_impl; [exact F|]. intros z Hz. unfold not_older in *.
      apply Qle_trans with (f_modified y); assumption.
    + assert (L : f_modified x < f_modified y).
      { apply Qnot_le_lt. intros C. apply Qle_bool_iff in C. congruence. }
      constructor; [exact IH|].
      rewrite insert_newest_perm. constructor; [|exact F].
      unfold not_older. apply Qlt_le_weak, L.
Qed.

Lemma sort_newest_first_sorted l :
  StronglySorted not_older (sort_newest_first l).
Proof.
  induction l as [|x l IH]; [constructor|].
  apply insert_newest_sorted, IH.
Qed.

(** Inserting a file does not reorder the files of any one age. *)
Lemma insert_newest_stable time x l :
  modified_at time (insert_newest x l) = modified_at time (x :: l).
Proof.
  induction l as [|y l IH]; [reflexivity|]. cbn [insert_newest].
  destruct (Qle_bool (f_modified y) (f_modified x)) eqn:E; [reflexivity|].
  assert (L : f_modified x < f_modified y).
  { apply Qnot_le_lt. intros C. apply Qle_bool_iff in C. congruence. }
  unfold modified_at in *. cbn [List.filter] in *. rewrite IH.
  destruct (Qeq_bool (f_modified x) time) eqn:Ex; [|reflexivity].
  destruct (Qeq_bool (f_modified y) time) eqn:Ey; [exfalso|reflexivity].
  apply Qeq_bool_iff in Ex, Ey. rewrite Ex, Ey in L.
  exact (Qlt_irrefl _ L).
Qed.

Lemma sort_newest_first_stable time l :
  modified_at time (sort_newest_first l) = modified_at time l.
Proof.
  induction l as [|x l IH]; [reflexivity|].
  cbn [sort_newest_first fold_right]. fold (sort_newest_first l).
  rewrite insert_newest_stable. unfold modified_at in *. cbn [List.filter].
  rewrite IH. reflexivity.
Qed.

Lemma collect_names entries : forall files,
  collect entries = inr files ->
  map f_name files = map e_name (List.filter e_isfile entries)
  /\ Forall (fun f => _format_file_size (f_size f) = inr (f_sizeFormatted f))
       files.
Proof.
  induction entries as [|e entries IH]; intros files; cbn [collect].
  - intros E. injection E as <-. split; constructor.
  - cbn [List.filter]. destruct (e_isfile e); [|apply IH].
    destruct (e_stat e) as [err|stat]; [discriminate|]. cbn [bind].
    destruct (_format_file_size (fst stat)) as [err|text] eqn:Ef;
      [discriminate|].
    cbn [bind]. destruct (collect entries) as [err|fs]; [discriminate|].
    cbn [bind ret]. intros E. injection E as <-.
    destruct (IH fs eq_refl) as [N F]. split.
    + cbn [map f_name]. f_equal. exact N.
    + constructor; [exact Ef|exact F].
Qed.

(** X17.  When [/api/downloads] answers with a list, the list holds the
    regular files of the directory and nothing else, each with the
    formatting of its size; it is ordered from the newest to the oldest;
    and files modified at the same time stand in the order in which
    [os.listdir] gave them. *)
Theorem list_downloads_newest_first (entries : list dir_entry)
    (files : list file_info) :
  list_downloads (Present (inr entries)) = (200%Z, Files files) ->
  exists collected,
    collect entries = inr collected
    /\ map f_name collected = map e_name (List.filter e_isfile entries)
    /\ files ≡ₚ collected
    /\ Forall (fun f => _format_file_size (f_size f) = inr (f_sizeFormatted f))
         files
    /\ StronglySorted not_older files
    /\ forall time, modified_at time files = modified_at time collected.
Proof.
  unfold list_downloads. cbn [bind].
  destruct (collect entries) as [err|collected] eqn:E; [discriminate|].
  intros R. injection R as <-. exists collected.
  destruct (collect_names _ _ E) as [N F].
  split; [reflexivity|]. split; [exact N|].
  split; [apply sort_newest_first_perm|]. split; [|split].
  - rewrite sort_newest_first_perm. exact F.
  - apply sort_newest_first_sorted.
  - intros time. apply sort_newest_first_stable.
Qed.

Lemma collect_fails entries e :
  In e entries -> e_isfile e = true ->
  (exists err, e_stat e = inl err)
  \/ (exists size mtime, e_stat e = inr (size, mtime) /\ (2 ^ 1024 <= size)%Z) ->
  exists err, collect entries = inl err.
Proof.
  intros I F B. induction entries as [|e' entries IH]; [destruct I|].
  cbn [collect]. destruct I as [->|I].
  - rewrite F. destruct B as [(err & ->)|(size & mtime & -> & Big)].
    + eexists. reflexivity.
    + cbn [bind fst]. rewrite (format_file_size_oversize size Big).
      eexists. reflexivity.
  - destruct (IH I) as (err & ->).
    destruct (e_isfile e'); [|eexists; reflexivity].
    destruct (e_stat e'); [eexists; reflexivity|]. cbn [bind].
    destruct (_format_file_size _); eexists; reflexivity.
Qed.

Lemma collect_defined entries :
  Forall (fun e =>
            e_isfile e = true ->
            exists size mtime,
              e_stat e = inr (size, mtime) /\ (- 2 ^ 53 < size < 2 ^ 64)%Z)
    entries ->
  exists files, collect entries = inr files.
Proof.
  induction 1 as [|e entries He _ (fs & IH)]; cbn [collect].
  - eexists. reflexivity.
  - destruct (e_isfile e); [|eexists; exact IH].
    destruct (He eq_refl) as (size & mtime & -> & R). cbn [bind fst].
    destruct (format_file_size_in_range size R) as (text & ->).
    cbn [bind]. rewrite IH. eexists. reflexivity.
Qed.

(** X18.  When [/api/downloads] fails.  A directory that does not exist
    is answered 200 with an empty list.  If [os.listdir] raises the
    answer is 500 with the text of the exception.  One regular file is
    enough to lose the whole list: if [os.stat] raises for it, as it does
    for a file removed since [os.listdir], or its size does not fit a
    float, the answer is 500.  Entries that are not regular files are
    never looked at.  When every regular file has a size between
    [-2^53] and [2^64], the answer is 200. *)
Theorem list_downloads_failure (entries : list dir_entry) :
  list_downloads Missing = (200%Z, Files [])
  /\ (forall err,
        list_downloads (Present (inl err)) = (500%Z, Failure (exc_str err)))
  /\ (forall e,
        In e entries -> e_isfile e = true ->
        (exists err, e_stat e = inl err)
        \/ (exists size mtime,
              e_stat e = inr (size, mtime) /\ (2 ^ 1024 <= size)%Z) ->
        fst (list_downloads (Present (inr entries))) = 500%Z)
  /\ (Forall (fun e =>
                e_isfile e = true ->
                exists size mtime,
                  e_stat e = inr (size, mtime)
                  /\ (- 2 ^ 53 < size < 2 ^ 64)%Z)
        entries ->
      fst (list_downloads (Present (inr entries))) = 200%Z).
Proof.
  split; [reflexivity|]. split; [reflexivity|]. split.
  - intros e I F B. destruct (collect_fails entries e I F B) as (err & E).
    unfold list_downloads. cbn [bind]. rewrite E. reflexivity.
  - intros F. destruct (collect_defined entries F) as (fs & E).
    unfold list_downloads. cbn [bind]. rewrite E. reflexivity.
Qed.

End Listing.

Section ListingSamples.
Import Py WebshareAPI Routes Cases.

Lemma list_downloads_newest_first_witness :
  exists files,
    list_downloads (Present (inr listing)) = (200, Files files)
    /\ map f_name files = ["c.iso"; "a.iso"; "b.iso"]
    /\ StronglySorted not_older files.
Proof.
  destruct (list_downloads (Present (inr listing))) as [code p] eqn:E.
  assert (C : code = 200 /\ exists files, p = Files files).
  { vm_compute in E. injection E as <- <-. split; [reflexivity|].
    eexists. reflexivity. }
  destruct C as (-> & files & ->). exists files. split; [reflexivity|].
  destruct (list_downloads_newest_first listing files E)
    as (collected & _ & _ & _ & _ & S & _).
  split; [|exact S].
  vm_compute in E. injection E as <-. reflexivity.
Defined.

End ListingSamples.

(* ===================================================================== *)
(** * What a worker reports *)
(* ===================================================================== *)

Section WorkerReports.
Import Py WebshareAPI App SyncDownload Runs.

Lemma run_locals_finished client w evs :
  at_pc w = Finished -> run_locals client w evs = w.
Proof.
  intros F. induction evs as [|ev evs IH]; [reflexivity|].
  cbn [run_locals]. unfold run_segment. rewrite F. exact IH.
Qed.

(** What a segment of a worker leaves: either the worker goes on, and its
    statements were those of a worker on its way, or it has finished, and
    its last statement was the handler or the start of the cleanup after
    the statements of a completed download. *)
Lemma segment_end client w ev p :
  run_segment client w ev = Some p ->
  (at_pc (snd p) <> Finished /\ forallb on_the_way (fst p) = true)
  \/ (at_pc (snd p) = Finished
      /\ ((exists pre fn err,
             fst p = pre ++ [Fail fn err] /\ forallb on_the_way pre = true)
          \/ (exists file_path n, fst p = completion file_path n)
          \/ exists file_path n fn e,
               fst p = removelast (completion file_path n)
                       ++ [Fail fn (exc_str e)]
               /\ _format_file_size n = inl e)).
Proof.
  unfold run_segment.
  destruct (at_pc w) as [| |url size file_path|total d file_path|] eqn:P;
    destruct ev as [|post mk|get op|chunk we|err| |]; try discriminate;
    intros E; injection E as <-.
  - left. split; [discriminate|reflexivity].
  - unfold resolve.
    destruct (initiate_download client (file_id w) post) as [e|info].
    { right. split; [reflexivity|]. left. exists [], (file_name w), (exc_str e).
      split; reflexivity. }
    destruct mk as [err|].
    { right. split; [reflexivity|]. left. eexists [], _, _.
      split; reflexivity. }
    destruct (if truthy (file_name w) then file_name w else fileName info)
      as [name|].
    + left. split; [discriminate|reflexivity].
    + right. split; [reflexivity|]. left. eexists [], _, _.
      split; reflexivity.
  - unfold connect. destruct get as [err|response].
    { right. split; [reflexivity|]. left. eexists [], _, _.
      split; reflexivity. }
    destruct (get_http_error response) as [err|].
    { right. split; [reflexivity|]. left. eexists [], _, _.
      split; reflexivity. }
    destruct (match content_length response with
              | Some text => Py.int text
              | None => ret size
              end) as [e|total].
    { right. split; [reflexivity|]. left. eexists [], _, _.
      split; reflexivity. }
    destruct op as [err|].
    + right. split; [reflexivity|]. left. eexists _, _, _.
      split; reflexivity.
    + left. split; [discriminate|reflexivity].
  - unfold on_chunk. destruct chunk as [|b chunk].
    { left. split; [cbn [snd]; rewrite P; discriminate|reflexivity]. }
    destruct we as [err|].
    { right. split; [reflexivity|]. left. eexists [], _, _.
      split; reflexivity. }
    destruct (0 <? total).
    + destruct (progress_percent _ total) as [e|p].
      * right. split; [reflexivity|]. left. eexists [], _, _.
        split; reflexivity.
      * left. split; [discriminate|reflexivity].
    + left. split; [discriminate|reflexivity].
  - right. split; [reflexivity|]. left. eexists [], _, _. split; reflexivity.
  - unfold finish. destruct (_format_file_size d) as [e|text] eqn:Ef.
    + right. split; [reflexivity|]. right. right.
      exists file_path, d, (file_name w), e. split; [reflexivity|exact Ef].
    + right. split; [reflexivity|]. right. left. eexists _, _. reflexivity.
Qed.

(** X19.  A worker ends by reporting.  Along any sequence of events, as
    long as the worker has not finished, none of its statements touches
    ['status'], is the handler, or starts the cleanup: the entry it
    registered stays 'downloading'.  When it has finished, what it did
    ends in one of three ways, with no statement of that kind before:
    the handler; the five statements of a completed download and the
    start of the cleanup; or those five statements and then the handler,
    which happens only when the size cannot be formatted for the log, and
    turns the completed entry into an error. *)
Theorem worker_ends_reported (client : WebshareAPI.t) (w : worker)
    (evs : list event) :
  at_pc w <> Finished ->
  let acts := run_worker client w evs in
  (at_pc (run_locals client w evs) <> Finished ->
   forallb on_the_way acts = true)
  /\ (at_pc (run_locals client w evs) = Finished ->
      exists pre,
        forallb on_the_way pre = true
        /\ ((exists fn err, acts = pre ++ [Fail fn err])
            \/ (exists file_path n, acts = pre ++ completion file_path n)
            \/ exists file_path n fn e,
                 acts = pre ++ removelast (completion file_path n)
                        ++ [Fail fn (exc_str e)]
                 /\ _format_file_size n = inl e)).
Proof.
  revert w. induction evs as [|ev evs IH]; intros w NF; cbn zeta.
  - cbn [run_worker run_locals]. split; [reflexivity|contradiction].
  - cbn [run_worker run_locals].
    destruct (run_segment client w ev) as [[acts w']|] eqn:E;
      [|exact (IH w NF)].
    destruct (segment_end _ _ _ _ E)
      as [[NF' Q]|[F [(pre & fn & err & Ea & Q)
                     |[(file_path & n & Ea)
                      |(file_path & n & fn & e & Ea & Ef)]]]];
      cbn [fst snd] in *; try subst acts.
    + destruct (IH w' NF') as [I1 I2]. split.
      * intros R. rewrite forallb_app, Q, (I1 R). reflexivity.
      * intros R.
        destruct (I2 R) as (pre & Qp & [(fn & err & ->)
                                       |[(fp & n & ->)
                                        |(fp & n & fn & e & -> & Ef)]]);
          exists (acts ++ pre);
          (split; [rewrite forallb_app, Q, Qp; reflexivity|]).
        -- left. exists fn, err. rewrite app_assoc. reflexivity.
        -- right. left. exists fp, n. rewrite app_assoc. reflexivity.
        -- right. right. exists fp, n, fn, e. rewrite app_assoc.
           split; [reflexivity|exact Ef].
    + rewrite run_locals_finished, run_worker_finished by exact F.
      split; [contradiction|]. intros _. exists pre. split; [exact Q|].
      left. exists fn, err. rewrite app_nil_r. reflexivity.
    + rewrite run_locals_finished, run_worker_finished by exact F.
      split; [contradiction|]. intros _. exists []. split; [reflexivity|].
      right. left. exists file_path, n. rewrite app_nil_r. reflexivity.
    + rewrite run_locals_finished, run_worker_finished by exact F.
      split; [contradiction|]. intros _. exists []. split; [reflexivity|].
      right. right. exists file_path, n, fn, e. rewrite app_nil_r.
      split; [reflexivity|exact Ef].
Qed.

Lemma chunks_silent client fid fn path total file_path l : forall d,
  total <= 0 ->
  Forall (fun c => fst c = [] \/ snd c = None) l ->
  forall rest,
    run_worker client (Worker fid fn path (AtStream total d file_path))
      (map chunk_event l ++ rest)
    = run_worker client
        (Worker fid fn path (AtStream total (d + total_length l) file_path))
        rest.
Proof.
  induction l as [|[chunk we] l IH]; intros d Ht F rest.
  - cbn. rewrite Z.add_0_r. reflexivity.
  - inversion F as [|c l' Hc F']. subst. cbn [fst snd] in Hc.
    rewrite total_length_cons. cbn [fst map app chunk_event snd].
    destruct chunk as [|b chunk].
    + erewrite run_worker_cons by reflexivity. cbn [app].
      replace (d + (Z.of_nat (length (@nil Byte.byte)) + total_length l))
        with (d + total_length l) by (cbn [length]; lia).
      apply (IH d Ht F').
    + destruct Hc as [Hc| ->]; [discriminate|].
      assert (S : run_segment client
                    (Worker fid fn path (AtStream total d file_path))
                    (Chunk (b :: chunk) None)
                  = Some ([], Worker fid fn path
                                (AtStream total
                                   (d + Z.of_nat (length (b :: chunk)))
                                   file_path))).
      { cbn [run_segment at_pc on_chunk file_id file_name download_path].
        destruct (Z.ltb_spec 0 total); [lia|reflexivity]. }
      rewrite (run_worker_cons _ _ _ _ _ _ S). cbn [app].
      replace (d + (Z.of_nat (length (b :: chunk)) + total_length l))
        with (d + Z.of_nat (length (b :: chunk)) + total_length l) by lia.
      apply (IH _ Ht F').
Qed.

(** X20.  A download of unknown size reports no progress.  When the GET
    is answered without a Content-Length header and the link gave no
    size (0), or the header states 0 or less, the worker writes nothing
    while the chunks arrive, however many bytes they hold: ['progress']
    stays at 10 and the message at 'Downloading... 0%' until the stream
    ends, and ['downloadedSize'] is never written.  At the end of the
    stream the final size is the number of bytes that arrived. *)
Theorem unknown_size_no_progress (client : WebshareAPI.t) (w : worker)
    (url : option string) (expected_size : Z) (file_path : string)
    (header : option string) (total : Z)
    (l : list (list Byte.byte * option string)) :
  at_pc w = AtConnect url expected_size file_path ->
  match header with
  | Some text => Py.int text
  | None => ret expected_size
  end = inr total ->
  total <= 0 ->
  Forall (fun c => fst c = [] \/ snd c = None) l ->
  total_length l < 2 ^ 64 ->
  run_worker client w
    (Connected (GetResponded (StreamResponse None header)) None
     :: map chunk_event l)
  = [SetItem (Message "Downloading... 0%"); SetItem (Progress 10);
     SetItem (TotalSize total)]
  /\ run_worker client w
       (Connected (GetResponded (StreamResponse None header)) None
        :: map chunk_event l ++ [StreamEnd])
     = [SetItem (Message "Downloading... 0%"); SetItem (Progress 10);
        SetItem (TotalSize total)]
       ++ completion file_path (total_length l).
Proof.
  intros P T Ht F Hl.
  assert (S : run_segment client w
                (Connected (GetResponded (StreamResponse None header)) None)
              = Some ([SetItem (Message "Downloading... 0%");
                       SetItem (Progress 10); SetItem (TotalSize total)],
                      Worker (file_id w) (file_name w) (download_path w)
                        (AtStream total 0 file_path))).
  { unfold run_segment. rewrite P. unfold connect.
    cbn [get_http_error content_length]. rewrite T. reflexivity. }
  pose proof (total_length_nonneg l) as Tl.
  split.
  - rewrite (run_worker_cons _ _ _ _ _ _ S).
    rewrite <- (app_nil_r (map chunk_event l)).
    rewrite (chunks_silent _ _ _ _ _ _ _ _ Ht F). reflexivity.
  - rewrite (run_worker_cons _ _ _ _ _ _ S).
    rewrite (chunks_silent _ _ _ _ _ _ _ _ Ht F). f_equal.
    erewrite run_worker_cons.
    2: { cbn [run_segment at_pc]. unfold finish.
         destruct (format_file_size_defined (0 + total_length l) ltac:(lia))
           as (text & ->). reflexivity. }
    cbn [run_worker file_id file_name download_path]. rewrite app_nil_r.
    reflexivity.
Qed.

Lemma prefix_append a b : String.prefix a (a +:+ b) = true.
Proof.
  induction a as [|c a IH]; [destruct b; reflexivity|].
  change (String.prefix (String c a) (String c (a +:+ b)) = true).
  cbn [String.prefix]. destruct (ascii_dec c c); [exact IH|contradiction].
Qed.

Lemma path_join_relative a b :
  (forall rest, b <> String "/" rest) ->
  path_join a b
  = match rev (list_ascii_of_string a) with
    | [] => b
    | c :: _ => if Ascii.eqb c "/" then a +:+ b else a +:+ "/" +:+ b
    end.
Proof.
  intros N. destruct b as [|c b]; [reflexivity|].
  destruct c as [[] [] [] [] [] [] [] []]; try reflexivity.
  exfalso. apply (N b). reflexivity.
Qed.

Lemma path_join_below a b :
  (forall rest, b <> String "/" rest) ->
  String.prefix a (path_join a b) = true.
Proof.
  intros N. rewrite (path_join_relative a b N).
  destruct (rev (list_ascii_of_string a)) as [|c r] eqn:E.
  - destruct a as [|c a]; [destruct b; reflexivity|].
    cbn [list_ascii_of_string rev] in E.
    destruct (rev (list_ascii_of_string a)); discriminate.
  - destruct (Ascii.eqb c "/"); apply prefix_append.
Qed.

(** X21.  Where a worker writes.  When the link is resolved and the
    directory can be made, the worker goes on to fetch the URL of the
    [link] element, with the size of the [size] element as the expected
    size, and the file path is [os.path.join] of the download directory
    and a name: the name given in the request if there is one, the
    server's otherwise.  The name is not checked.  A name that begins
    with '/' is the file path itself, and the download directory plays
    no part; for any other name the path begins with the download
    directory. *)
Theorem worker_file_path (client : WebshareAPI.t) (w w' : worker)
    (post : Http.outcome) (acts : list action) (url : option string)
    (expected_size : Z) (file_path : string) :
  at_pc w = AtResolve ->
  run_segment client w (Resolved post None) = Some (acts, w') ->
  at_pc w' = AtConnect url expected_size file_path ->
  exists info name,
    initiate_download client (file_id w) post = inr info
    /\ url = downloadUrl info
    /\ expected_size = fileSize info
    /\ Some name
       = (if truthy (file_name w) then file_name w else fileName info)
    /\ file_path = path_join (download_path w) name
    /\ (forall rest, name = String "/" rest -> file_path = name)
    /\ ((forall rest, name <> String "/" rest) ->
        String.prefix (download_path w) file_path = true).
Proof.
  intros P E P'. unfold run_segment in E. rewrite P in E.
  injection E as E. unfold resolve in E.
  destruct (initiate_download client (file_id w) post) as [e|info];
    [injection E as _ <-; discriminate|].
  exists info.
  destruct (if truthy (file_name w) then file_name w else fileName info)
    as [name|]; [|injection E as _ <-; discriminate].
  exists name. injection E as _ <-. cbn [at_pc] in P'.
  injection P' as <- <- <-. repeat split.
  - intros rest ->. reflexivity.
  - apply path_join_below.
Qed.

End WorkerReports.

Section WorkerReportsSamples.
Import Py WebshareAPI App SyncDownload Runs Sample Cases.

Lemma worker_ends_reported_witness :
  at_pc (Worker "f1" (Some "a.iso") "/downloads" AtStart) <> Finished
  /\ at_pc (run_locals client (Worker "f1" (Some "a.iso") "/downloads" AtStart)
              (events (file_link_ok (Some "40")) None (get_ok (Some "40"))
                 None body32))
     = Finished
  /\ exists pre file_path n,
       forallb on_the_way pre = true
       /\ run_worker client (Worker "f1" (Some "a.iso") "/downloads" AtStart)
            (events (file_link_ok (Some "40")) None (get_ok (Some "40")) None
               body32)
          = pre ++ completion file_path n.
Proof.
  split; [discriminate|]. split; [reflexivity|].
  destruct (worker_ends_reported client
              (Worker "f1" (Some "a.iso") "/downloads" AtStart)
              (events (file_link_ok (Some "40")) None (get_ok (Some "40"))
                 None body32) ltac:(discriminate)) as [_ W].
  destruct (W eq_refl)
    as (pre & Q & [(fn & err & E)|[(fp & n & E)|(fp & n & fn & e & E & _)]]).
  - apply (f_equal last) in E. rewrite last_snoc in E.
    vm_compute in E. discriminate.
  - exists pre, fp, n. split; [exact Q|exact E].
  - rewrite app_assoc in E. apply (f_equal last) in E.
    rewrite last_snoc in E. vm_compute in E. discriminate.
Defined.

Lemma unknown_size_no_progress_witness :
  run_worker client
    (Worker "f1" (Some "a.iso") "/downloads"
       (AtConnect (Some "https://dl.example/f") 0 "/downloads/a.iso"))
    (Connected (get_ok None) None :: map chunk_event (chunks body32))
  = [SetItem (Message "Downloading... 0%"); SetItem (Progress 10);
     SetItem (TotalSize 0)]
  /\ run_worker client
       (Worker "f1" (Some "a.iso") "/downloads"
          (AtConnect (Some "https://dl.example/f") 0 "/downloads/a.iso"))
       (Connected (get_ok None) None
        :: map chunk_event (chunks body32) ++ [StreamEnd])
     = [SetItem (Message "Downloading... 0%"); SetItem (Progress 10);
        SetItem (TotalSize 0)]
       ++ completion "/downloads/a.iso" 32.
Proof.
  apply (unknown_size_no_progress client
           (Worker "f1" (Some "a.iso") "/downloads"
              (AtConnect (Some "https://dl.example/f") 0 "/downloads/a.iso"))
           (Some "https://dl.example/f") 0 "/downloads/a.iso" None 0
           (chunks body32)).
  - reflexivity.
  - reflexivity.
  - lia.
  - repeat (constructor; [first [left; reflexivity|right; reflexivity]|]).
    constructor.
  - vm_compute. reflexivity.
Defined.

Lemma worker_file_path_witness :
  exists info name,
    initiate_download client "f1" (file_link_ok (Some "40")) = inr info
    /\ Some name = Some "/etc/cron.d/job"
    /\ "/etc/cron.d/job" = path_join "/downloads" name
    /\ (forall rest, name = String "/" rest -> "/etc/cron.d/job" = name).
Proof.
  destruct (worker_file_path client
              (Worker "f1" (Some "/etc/cron.d/job") "/downloads" AtResolve)
              (Worker "f1" (Some "/etc/cron.d/job") "/downloads"
                 (AtConnect (Some "https://dl.example/f") 40
                    "/etc/cron.d/job"))
              (file_link_ok (Some "40"))
              [SetItem (Message "Connecting to server...");
               SetItem (Progress 5)]
              (Some "https://dl.example/f") 40 "/etc/cron.d/job"
              eq_refl eq_refl eq_refl)
    as (info & name & Ei & _ & _ & En & Ep & Ea & _).
  exists info, name. auto.
Defined.

End WorkerReportsSamples.

(* ===================================================================== *)
(** * Entries that no thread works on *)
(* ===================================================================== *)

Section Settled.
Import Py App Runs.
Context {H : HashLib}.

Lemma run_segment_file_id client w ev p :
  run_segment client w ev = Some p -> file_id (snd p) = file_id w.
Proof.
  unfold run_segment.
  destruct (at_pc w) as [| |url size file_path|total d file_path|] eqn:P;
    destruct ev as [|post mk|get op|chunk we|err| |]; try discriminate;
    intros E; injection E as <-; try reflexivity.
  - unfold resolve. destruct (WebshareAPI.initiate_download _ _ _);
      [reflexivity|].
    destruct mk; [reflexivity|].
    destruct (if truthy (file_name w) then _ else _); reflexivity.
  - unfold connect. destruct get as [|r]; [reflexivity|].
    destruct (get_http_error r); [reflexivity|].
    destruct (match content_length r with Some _ => _ | None => _ end);
      [reflexivity|].
    destruct op; reflexivity.
  - unfold on_chunk. destruct chunk; [reflexivity|].
    destruct we; [reflexivity|]. destruct (0 <? total); [|reflexivity].
    destruct (progress_percent _ _); reflexivity.
  - unfold finish. destruct (WebshareAPI._format_file_size _); reflexivity.
Qed.

Lemma run_segment_finished client w ev :
  at_pc w = Finished -> run_segment client w ev = None.
Proof. intros F. unfold run_segment. rewrite F. reflexivity. Qed.

Lemma idle_other fid w pending :
  file_id w <> fid -> idle_for fid (WorkerThread w pending).
Proof. intros N E. contradiction. Qed.

(** No step touches an entry that no thread works on, and no step makes a
    thread work on it. *)
Lemma step_keeps_settled s l s' r fid j :
  step s l = Some (s', r) ->
  active_downloads s !! fid = Some j ->
  Forall (idle_for fid) (threads s) ->
  active_downloads s' !! fid = Some j
  /\ Forall (idle_for fid) (threads s').
Proof.
  intros E J I. destruct l as [f fname|f|rnd u p sp lp|tid ev|tid|];
    cbn [step] in E.
  - injection E as E. unfold download in E.
    destruct f as [f|]; [|injection E as <- _; auto].
    destruct (negb (truthy (Some f))); [injection E as <- _; auto|].
    destruct (active_downloads s !! f) as [j'|] eqn:F;
      injection E as <- _; [auto|].
    split; [exact J|]. cbn [threads with_threads].
    apply Forall_app. split; [exact I|]. constructor; [|constructor].
    apply idle_other. cbn [file_id]. congruence.
  - injection E as <- _. auto.
  - injection E as <- _. auto.
  - destruct (threads s !! tid) as [[w pending|f c]|] eqn:T; [| |discriminate].
    + destruct pending as [|a rest]; [|discriminate].
      destruct (run_segment (client s) w ev) as [[acts w']|] eqn:S;
        [|discriminate].
      assert (N : file_id w <> fid).
      { intros Ew. destruct (Forall_lookup_1 _ _ _ _ I T Ew) as [F _].
        rewrite (run_segment_finished _ _ _ F) in S. discriminate. }
      pose proof (run_segment_file_id _ _ _ _ S) as Ew. cbn [snd] in Ew.
      assert (I' : Forall (idle_for fid)
                     (<[tid := WorkerThread w' acts]> (threads s))).
      { apply Forall_insert; [exact I|]. apply idle_other. congruence. }
      injection E as <- _. destruct (at_pc w); split; assumption.
    + destruct c as [|wake|]; [| |discriminate].
      * destruct ev; try discriminate. injection E as <- _.
        split; [exact J|]. cbn [threads with_threads].
        apply Forall_insert; [exact I|].
        intros Ef. pose proof (Forall_lookup_1 _ _ _ _ I T Ef). discriminate.
      * destruct ev; try discriminate.
        destruct (wake <=? now s); [|discriminate]. injection E as <- _.
        assert (N : f <> fid).
        { intros Ef. pose proof (Forall_lookup_1 _ _ _ _ I T Ef).
          discriminate. }
        split.
        -- cbn [active_downloads with_threads with_jobs].
           rewrite lookup_delete_ne by exact N. exact J.
        -- cbn [threads with_threads with_jobs].
           apply Forall_insert; [exact I|]. intros _. reflexivity.
  - destruct (threads s !! tid) as [[w [|a rest]|f c]|] eqn:T;
      try discriminate.
    injection E as <- _.
    assert (N : file_id w <> fid).
    { intros Ew. destruct (Forall_lookup_1 _ _ _ _ I T Ew) as [_ F].
      discriminate. }
    unfold execute. destruct a as [fn|i| |fn err].
    + split.
      * cbn [active_downloads with_threads with_jobs].
        rewrite lookup_insert_ne by exact N. exact J.
      * cbn [threads with_threads with_jobs].
        apply Forall_insert; [exact I|]. apply idle_other, N.
    + destruct (active_downloads s !! file_id w) as [j'|].
      * split.
        -- cbn [active_downloads with_threads with_jobs].
           rewrite lookup_insert_ne by exact N. exact J.
        -- cbn [threads with_threads with_jobs].
           apply Forall_insert; [exact I|]. apply idle_other, N.
      * split; [exact J|]. cbn [threads with_threads].
        apply Forall_insert; [exact I|]. apply idle_other. exact N.
    + split; [exact J|]. cbn [threads with_threads].
      apply Forall_app. split.
      * apply Forall_insert; [exact I|]. apply idle_other, N.
      * constructor; [|constructor]. intros Ef. contradiction.
    + split.
      * cbn [active_downloads with_threads with_jobs].
        rewrite lookup_insert_ne by exact N. exact J.
      * cbn [threads with_threads with_jobs].
        apply Forall_insert; [exact I|]. apply idle_other, N.
  - injection E as <- _. auto.
Qed.

(** X22.  An entry that no thread works on stays for good.  Suppose a
    file id has an entry, every worker for the id has finished and
    executed all its statements, and no cleanup for the id is pending:
    this is where a failed download leaves the process, since the handler
    starts no cleanup.  Then no run of the process changes or removes the
    entry; every query for the id returns it; and every request to start
    the id is answered 'already in progress', with the status and
    progress of the entry, and starts no worker.  A failed download can
    therefore not be started again while the process lives. *)
Theorem settled_entry_stays (s s' : world) (ls : list label)
    (rs : list reply) (fid : string) (j : job) :
  active_downloads s !! fid = Some j ->
  Forall (idle_for fid) (threads s) ->
  run s ls = Some (s', rs) ->
  active_downloads s' !! fid = Some j
  /\ Forall (idle_for fid) (threads s')
  /\ download_progress s' fid = Found j
  /\ (fid <> EmptyString ->
      forall fname,
        step s' (Download (Some fid) fname)
        = Some (s', AlreadyInProgress
                      ("Download already in progress: " +:+ fmt fname)
                      (j_status j) (j_progress j))).
Proof.
  intros J I R.
  assert (K : active_downloads s' !! fid = Some j
              /\ Forall (idle_for fid) (threads s')).
  { revert s rs J I R. induction ls as [|l ls IH]; intros s rs J I R.
    - injection R as <- _. auto.
    - cbn [run] in R. destruct (step s l) as [[s1 r]|] eqn:E; [|discriminate].
      destruct (run s1 ls) as [[s2 rs2]|] eqn:R2; [|discriminate].
      injection R as <- _.
      destruct (step_keeps_settled _ _ _ _ _ _ E J I) as [J1 I1].
      exact (IH s1 rs2 J1 I1 R2). }
  destruct K as [J' I']. split; [exact J'|]. split; [exact I'|]. split.
  - unfold download_progress. rewrite J'. reflexivity.
  - intros N fname. cbn [step].
    rewrite (download_existing s' fid fname j J' N). reflexivity.
Qed.

(** X23.  The entry of a running worker can be gone, removed by the
    cleanup of another download of the same id.  The next statement of
    the worker that writes into the entry then raises [KeyError], the
    handler runs, and the id has an entry again: an error entry whose
    error text is the file id in quotes, with progress 0.  The worker has
    finished. *)
Theorem missing_entry_becomes_error (s : world) (tid : nat) (w : worker)
    (i : item) (rest : list action) :
  threads s !! tid = Some (WorkerThread w (SetItem i :: rest)) ->
  active_downloads s !! file_id w = None ->
  exists s',
    run s [Exec tid; Exec tid] = Some (s', [Silent; Silent])
    /\ active_downloads s' !! file_id w
       = Some (error_job (file_name w) (repr (file_id w)))
    /\ threads s' !! tid
       = Some (WorkerThread
                 (Worker (file_id w) (file_name w) (download_path w) Finished)
                 [])
    /\ length (threads s') = length (threads s).
Proof.
  intros T J. pose proof (lookup_lt_Some _ _ _ T) as Lt.
  set (wf := Worker (file_id w) (file_name w) (download_path w) Finished).
  set (s1 := with_threads
               (<[tid := WorkerThread wf [Fail (file_name w) (repr (file_id w))]]>
                  (threads s)) s).
  assert (E1 : step s (Exec tid) = Some (s1, Silent)).
  { rewrite (step_exec s tid w (SetItem i) rest T). unfold execute.
    rewrite J. reflexivity. }
  assert (T1 : threads s1 !! tid
               = Some (WorkerThread wf [Fail (file_name w) (repr (file_id w))])).
  { unfold s1. cbn [threads with_threads].
    apply list_lookup_insert_eq. exact Lt. }
  pose proof (step_exec s1 tid wf _ _ T1) as E2.
  eexists. split.
  - cbn [run]. rewrite E1, E2. reflexivity.
  - unfold execute. cbn [active_downloads threads with_threads with_jobs file_id].
    split; [apply lookup_insert_eq|]. split.
    + apply list_lookup_insert_eq. apply (lookup_lt_Some _ _ _ T1).
    + rewrite length_insert. unfold s1. cbn [threads with_threads].
      apply length_insert.
Qed.

End Settled.

Section SettledSamples.
Import Py App Runs Sample Cases.

Lemma settled_entry_stays_witness :
  exists s' rs,
    run failed_world
      [Download (Some "f1") (Some "a.iso"); Tick;
       Download (Some "g2") None; Run 1 Scheduled; Exec 1; Poll "f1"]
    = Some (s', rs)
    /\ download_progress s' "f1"
       = Found (error_job (Some "a.iso") "connection reset")
    /\ step s' (Download (Some "f1") (Some "b.iso"))
       = Some (s', AlreadyInProgress "Download already in progress: b.iso"
                     Error 0).
Proof.
  destruct (run failed_world
              [Download (Some "f1") (Some "a.iso"); Tick;
               Download (Some "g2") None; Run 1 Scheduled; Exec 1; Poll "f1"])
    as [[s' rs]|] eqn:R; [|vm_compute in R; discriminate].
  exists s', rs. split; [reflexivity|].
  assert (I : Forall (idle_for "f1") (threads failed_world)).
  { constructor; [|constructor]. intros _. split; reflexivity. }
  destruct (settled_entry_stays failed_world s' _ rs "f1"
              (error_job (Some "a.iso") "connection reset") eq_refl I R)
    as (_ & _ & P & D).
  split; [exact P|]. apply (D ltac:(discriminate) (Some "b.iso")).
Defined.

Lemma missing_entry_becomes_error_witness :
  exists s',
    run orphan_world [Exec 0; Exec 0] = Some (s', [Silent; Silent])
    /\ active_downloads s' !! "f1" = Some (error_job (Some "a.iso") "'f1'").
Proof.
  destruct (missing_entry_becomes_error orphan_world 0
              (Worker "f1" (Some "a.iso") "/downloads"
                 (AtStream 32 16 "/downloads/a.iso"))
              (Progress 50)
              [SetItem (Message "Downloading... 40%");
               SetItem (DownloadedSize 16)] eq_refl eq_refl)
    as (s' & R & J & _).
  exists s'. split; [exact R|exact J].
Defined.

End SettledSamples.

(* ===================================================================== *)
(** * Requests that register at once *)
(* ===================================================================== *)

Section Atomic.
Import Py App Runs.
Context {H : HashLib}.

Lemma weight_le fid t : (weight fid t <= 1)%nat.
Proof. unfold weight. destruct (_ && _); lia. Qed.

Lemma weight_other fid t : thread_file_id t <> fid -> weight fid t = 0%nat.
Proof.
  intros N. unfold weight.
  destruct (String.eqb_spec (thread_file_id t) fid); [contradiction|].
  rewrite andb_false_r. reflexivity.
Qed.

Lemma weight_live t : live t = true -> weight (thread_file_id t) t = 1%nat.
Proof. intros L. unfold weight. rewrite L, String.eqb_refl. reflexivity. Qed.

Lemma weight_idle fid t : live t = false -> weight fid t = 0%nat.
Proof. intros L. unfold weight. rewrite L. reflexivity. Qed.

Lemma weight_same fid t t' :
  live t = live t' -> thread_file_id t = thread_file_id t' ->
  weight fid t = weight fid t'.
Proof. intros L F. unfold weight. rewrite L, F. reflexivity. Qed.

Lemma weight_one fid t :
  weight fid t = 1%nat -> live t = true /\ thread_file_id t = fid.
Proof.
  unfold weight. destruct (live t); [|discriminate].
  destruct (String.eqb_spec (thread_file_id t) fid); [auto|discriminate].
Qed.

Lemma count_by_cons f t ts :
  count_by f (t :: ts) = (f t + count_by f ts)%nat.
Proof. reflexivity. Qed.

Lemma count_by_app f ts ts' :
  count_by f (ts ++ ts') = (count_by f ts + count_by f ts')%nat.
Proof.
  induction ts as [|t ts IH]; [reflexivity|].
  cbn [app]. rewrite !count_by_cons, IH. lia.
Qed.

Lemma count_by_insert f ts : forall tid t t',
  ts !! tid = Some t ->
  (count_by f (<[tid := t']> ts) + f t = count_by f ts + f t')%nat.
Proof.
  induction ts as [|x ts IH]; intros [|tid] t t' E; try discriminate.
  - injection E as ->. cbn [list_insert insert]. rewrite !count_by_cons. lia.
  - change (<[S tid := t']> (x :: ts)) with (x :: <[tid := t']> ts).
    rewrite !count_by_cons. pose proof (IH tid t t' E). lia.
Qed.

Lemma count_by_lookup f ts : forall tid t,
  ts !! tid = Some t -> (f t <= count_by f ts)%nat.
Proof.
  induction ts as [|x ts IH]; intros [|tid] t E; try discriminate;
    rewrite count_by_cons.
  - injection E as ->. lia.
  - pose proof (IH tid t E). lia.
Qed.

Lemma busy_cons fid t ts :
  busy fid (t :: ts) = (weight fid t + busy fid ts)%nat.
Proof. reflexivity. Qed.

Lemma busy_app fid ts ts' :
  busy fid (ts ++ ts') = (busy fid ts + busy fid ts')%nat.
Proof. apply count_by_app. Qed.

Lemma busy_insert fid ts tid t t' :
  ts !! tid = Some t ->
  (busy fid (<[tid := t']> ts) + weight fid t
   = busy fid ts + weight fid t')%nat.
Proof. apply count_by_insert. Qed.

Lemma busy_lookup fid ts tid t :
  ts !! tid = Some t -> (weight fid t <= busy fid ts)%nat.
Proof. apply count_by_lookup. Qed.

Lemma busy_two fid ts : forall i j t t',
  ts !! i = Some t -> ts !! j = Some t' -> i <> j ->
  (weight fid t + weight fid t' <= busy fid ts)%nat.
Proof.
  induction ts as [|x ts IH]; intros [|i] [|j] t t' Ei Ej N;
    try discriminate; try contradiction; rewrite busy_cons.
  - injection Ei as ->. pose proof (busy_lookup fid ts j t' Ej). lia.
  - injection Ej as ->. pose proof (busy_lookup fid ts i t Ei). lia.
  - pose proof (IH i j t t' Ei Ej ltac:(lia)). lia.
Qed.

Lemma registered_tail w a rest :
  registered (WorkerThread w (a :: rest)) -> registered (WorkerThread w rest).
Proof.
  intros (S & R & C & L). cbn [forallb existsb cleanup_last] in *.
  apply andb_true_iff in R. destruct R as [_ R].
  repeat split; [exact S|exact R| |].
  - intros E. apply C. rewrite E. apply orb_true_r.
  - destruct a as [| | |]; try exact L. destruct rest; [reflexivity|discriminate].
Qed.

(** What a worker that has left its start is given to execute. *)
Lemma segment_registered client w ev p :
  at_pc w <> AtStart ->
  run_segment client w ev = Some p ->
  registered (WorkerThread (snd p) (fst p)).
Proof.
  intros NS. unfold run_segment.
  destruct (at_pc w) as [| |url size file_path|total d file_path|] eqn:P;
    [contradiction| | | |discriminate];
    destruct ev as [|post mk|get op|chunk we|err| |]; try discriminate;
    intros E; injection E as <-.
  - unfold resolve.
    destruct (WebshareAPI.initiate_download client (file_id w) post);
      [repeat split; try discriminate; reflexivity|].
    destruct mk; [repeat split; try discriminate; reflexivity|].
    destruct (if truthy (file_name w) then _ else _);
      cbn; repeat split; try discriminate; try reflexivity.
  - unfold connect. destruct get as [|r];
      [repeat split; try discriminate; reflexivity|].
    destruct (get_http_error r);
      [repeat split; try discriminate; reflexivity|].
    destruct (match content_length r with Some _ => _ | None => _ end);
      [repeat split; try discriminate; reflexivity|].
    destruct op; cbn; repeat split; try discriminate; try reflexivity.
  - unfold on_chunk. destruct chunk.
    { cbn [fst snd registered]. rewrite P.
      repeat split; try discriminate; reflexivity. }
    destruct we; [repeat split; try discriminate; reflexivity|].
    destruct (0 <? total).
    + destruct (progress_percent _ _);
        cbn; repeat split; try discriminate; try reflexivity.
    + cbn. repeat split; try discriminate; reflexivity.
  - repeat split; try discriminate; reflexivity.
  - unfold finish. destruct (WebshareAPI._format_file_size _);
      cbn; repeat split; try discriminate; reflexivity.
Qed.

(** A live thread takes a step that leaves it about the same file id and
    touches no entry but that of this id. *)
Lemma orderly_update s tid t t' jobs' :
  orderly s ->
  threads s !! tid = Some t ->
  registered t' ->
  thread_file_id t' = thread_file_id t ->
  live t = true ->
  (forall fid, fid <> thread_file_id t ->
     jobs' !! fid = active_downloads s !! fid) ->
  (live t' = true -> is_Some (jobs' !! thread_file_id t)) ->
  orderly (with_threads (<[tid := t']> (threads s)) (with_jobs jobs' s)).
Proof.
  intros [W O] T R' Ef L Je Js. split.
  - cbn [threads with_threads with_jobs]. apply Forall_insert; assumption.
  - intros fid. cbn [threads active_downloads with_threads with_jobs].
    destruct (O fid) as [O1 O2].
    pose proof (busy_insert fid (threads s) tid t t' T) as B.
    pose proof (busy_lookup fid (threads s) tid t T) as Bl.
    pose proof (weight_le fid t').
    destruct (String.string_dec fid (thread_file_id t)) as [->|N].
    + rewrite (weight_live t L) in *. split; [lia|].
      intros E. apply Js.
      assert (Wt : weight (thread_file_id t) t' = 1%nat) by lia.
      apply weight_one in Wt. apply Wt.
    + rewrite (weight_other fid t) in B by congruence.
      rewrite (weight_other fid t') in B by congruence.
      rewrite (Je fid N). split; [lia|]. intros E. apply O2. lia.
Qed.

Lemma orderly_with_calls l s : orderly s -> orderly (with_calls l s).
Proof. intros O. exact O. Qed.

Lemma orderly_entry s tid t :
  orderly s -> threads s !! tid = Some t -> live t = true ->
  is_Some (active_downloads s !! thread_file_id t).
Proof.
  intros [_ O] T L. destruct (O (thread_file_id t)) as [O1 O2]. apply O2.
  pose proof (busy_lookup (thread_file_id t) (threads s) tid t T) as B.
  rewrite (weight_live t L) in B. lia.
Qed.

Lemma same_jobs s f : forall fid : string,
  fid <> f -> active_downloads s !! fid = active_downloads s !! fid.
Proof. reflexivity. Qed.

(** A step that is not a request to start keeps the order. *)
Lemma step_keeps_orderly s l s' r :
  orderly s ->
  match l with
  | Download _ _ => False
  | _ => True
  end ->
  step s l = Some (s', r) ->
  orderly s'.
Proof.
  intros O NL E. destruct l as [f fname|f|rnd u p sp lp|tid ev|tid|];
    [contradiction| | | | |]; cbn [step] in E.
  - injection E as <- _. exact O.
  - injection E as <- _. exact O.
  - destruct (threads s !! tid) as [[w pending|f c]|] eqn:T; [| |discriminate].
    + destruct pending as [|a rest]; [|discriminate].
      destruct (run_segment (client s) w ev) as [[acts w']|] eqn:S;
        [|discriminate].
      destruct O as [W O'].
      pose proof (Forall_lookup_1 _ _ _ _ W T) as (NS & _).
      assert (L : live (WorkerThread w []) = true).
      { cbn [live]. destruct (at_pc w) eqn:P; try reflexivity.
        rewrite (run_segment_finished _ _ _ P) in S. discriminate. }
      assert (O1 : orderly
                     (with_threads (<[tid := WorkerThread w' acts]> (threads s))
                        (with_jobs (active_downloads s) s))).
      { apply (orderly_update s tid (WorkerThread w []));
          [split; assumption|exact T| | |exact L|reflexivity|].
        - apply (segment_registered _ _ _ _ NS S).
        - apply (run_segment_file_id _ _ _ _ S).
        - intros _. apply (orderly_entry s tid _ (conj W O') T L). }
      injection E as <- _. destruct (at_pc w); exact O1.
    + destruct c as [|wake|]; [| |discriminate].
      * destruct ev; try discriminate. injection E as <- _.
        apply (orderly_update s tid (CleanupThread f CleanupStart)
                 (CleanupThread f (Sleeping (now s + 30)))
                 (active_downloads s) O T I eq_refl eq_refl).
        -- reflexivity.
        -- intros _.
           apply (orderly_entry s tid _ O T eq_refl).
      * destruct ev; try discriminate.
        destruct (wake <=? now s); [|discriminate]. injection E as <- _.
        apply (orderly_update s tid (CleanupThread f (Sleeping wake))
                 (CleanupThread f CleanupDone)
                 (delete f (active_downloads s)) O T I eq_refl eq_refl).
        -- intros fid N. apply lookup_delete_ne. cbn in N. congruence.
        -- discriminate.
  - destruct (threads s !! tid) as [[w [|a rest]|f c]|] eqn:T;
      try discriminate.
    injection E as <- _.
    pose proof O as [W O'].
    pose proof (Forall_lookup_1 _ _ _ _ W T) as R.
    pose proof (registered_tail _ _ _ R) as Rt.
    assert (L : live (WorkerThread w (a :: rest)) = true)
      by (cbn [live]; destruct (at_pc w); reflexivity).
    destruct (orderly_entry s tid _ O T L) as [j J]. cbn [thread_file_id] in J.
    unfold execute. destruct a as [fn|i| |fn err].
    + destruct R as (_ & R & _). discriminate.
    + rewrite J.
      apply (orderly_update s tid (WorkerThread w (SetItem i :: rest))
               (WorkerThread w rest) _ O T Rt eq_refl L).
      * intros fid N. apply lookup_insert_ne. cbn in N. congruence.
      * intros _. cbn [thread_file_id]. rewrite lookup_insert_eq. eauto.
    + destruct R as (_ & _ & C & Cl). cbn [existsb closing orb] in C.
      specialize (C eq_refl). cbn [cleanup_last] in Cl.
      destruct rest; [|discriminate].
      split.
      * cbn [threads with_threads]. apply Forall_app. split.
        -- apply Forall_insert; [exact W|exact Rt].
        -- constructor; [exact I|constructor].
      * intros fid. cbn [threads active_downloads with_threads].
        destruct (O' fid) as [O1 O2].
        rewrite busy_app. cbn [busy count_by fold_right].
        pose proof (busy_insert fid (threads s) tid _ (WorkerThread w []) T)
          as B.
        pose proof (busy_lookup fid (threads s) tid _ T) as Bl.
        rewrite (weight_idle fid (WorkerThread w []))
          in B by (cbn [live]; rewrite C; reflexivity).
        rewrite (weight_same fid (CleanupThread (file_id w) CleanupStart)
                   (WorkerThread w [StartCleanup]) (eq_sym L) eq_refl).
        split; [lia|]. intros E. apply O2. lia.
    + destruct R as (_ & _ & C & _). cbn [existsb closing orb] in C.
      specialize (C eq_refl).
      apply (orderly_update s tid (WorkerThread w (Fail fn err :: rest))
               (WorkerThread w []) _ O T).
      * repeat split; [|discriminate]. rewrite C. discriminate.
      * reflexivity.
      * exact L.
      * intros fid N. apply lookup_insert_ne. cbn in N. congruence.
      * cbn [live]. rewrite C. discriminate.
  - injection E as <- _. exact O.
Qed.

Lemma insert_last {A} (l : list A) x y :
  <[length l := x]> (l ++ [y]) = l ++ [x].
Proof.
  induction l as [|a l IH]; [reflexivity|].
  cbn [length app]. change (<[S (length l) := x]> (a :: l ++ [y]))
    with (a :: <[length l := x]> (l ++ [y])).
  rewrite IH. reflexivity.
Qed.

(** A request that registers at once keeps the order. *)
Lemma start_keeps_orderly s fid fname s' r :
  orderly s -> start_atomically s fid fname = Some (s', r) -> orderly s'.
Proof.
  intros O. unfold start_atomically, download.
  destruct fid as [f|]; [|intros E; injection E as <- _; exact O].
  destruct (negb (truthy (Some f))); [intros E; injection E as <- _; exact O|].
  destruct (active_downloads s !! f) as [j|] eqn:J;
    [intros E; injection E as <- _; exact O|].
  set (tid := length (threads s)).
  set (w0 := Worker f fname (DOWNLOAD_PATH s) AtStart).
  set (w1 := Worker f fname (DOWNLOAD_PATH s) AtResolve).
  set (s1 := with_threads (threads s ++ [WorkerThread w0 []]) s).
  assert (T1 : threads s1 !! tid = Some (WorkerThread w0 [])).
  { unfold s1. cbn [threads with_threads].
    apply list_lookup_middle. reflexivity. }
  assert (E1 : step s1 (Run tid Scheduled)
               = Some (with_threads
                         (<[tid := WorkerThread w1 [Register fname]]>
                            (threads s1)) s1, Silent)).
  { apply (step_run_worker s1 tid w0 Scheduled [Register fname] w1 T1);
      [reflexivity|discriminate]. }
  set (s2 := with_threads
               (<[tid := WorkerThread w1 [Register fname]]> (threads s1)) s1)
    in E1.
  assert (T2 : threads s2 !! tid = Some (WorkerThread w1 [Register fname])).
  { unfold s2. cbn [threads with_threads]. apply list_lookup_insert_eq.
    apply (lookup_lt_Some _ _ _ T1). }
  pose proof (step_exec s2 tid w1 (Register fname) [] T2) as E2.
  cbn [run]. rewrite E1, E2. intros E. injection E as <- _.
  unfold execute. cbn [file_id w1].
  assert (Th : <[tid := WorkerThread w1 []]>
                 (<[tid := WorkerThread w1 [Register fname]]>
                    (threads s ++ [WorkerThread w0 []]))
               = threads s ++ [WorkerThread w1 []]).
  { unfold tid. rewrite insert_last. apply insert_last. }
  rewrite Th. destruct O as [W O]. split.
  - cbn [threads with_threads with_jobs]. apply Forall_app. split; [exact W|].
    constructor; [|constructor]. repeat split; discriminate.
  - intros fid. cbn [threads active_downloads with_threads with_jobs].
    rewrite busy_app. cbn [busy count_by fold_right].
    destruct (O fid) as [O1 O2].
    destruct (String.string_dec fid f) as [->|N].
    + assert (B0 : busy f (threads s) = 0%nat).
      { destruct (Nat.eq_dec (busy f (threads s)) 1%nat) as [B|B]; [|lia].
        destruct (O2 B) as [j Ej]. congruence. }
      rewrite B0.
      change f with (thread_file_id (WorkerThread w1 [])) at 1 3.
      rewrite (weight_live (WorkerThread w1 []) eq_refl).
      split; [lia|]. intros _. cbn [thread_file_id file_id w1].
      rewrite lookup_insert_eq. eauto.
    + rewrite (weight_other fid (WorkerThread w1 [])) by (cbn; congruence).
      rewrite lookup_insert_ne by congruence.
      split; [lia|]. intros E. apply O2. lia.
Qed.

Lemma moves_keep_orderly ms : forall s s',
  orderly s -> moves s ms = Some s' -> orderly s'.
Proof.
  induction ms as [|m ms IH]; intros s s' O E; cbn [moves] in E.
  - injection E as <-. exact O.
  - destruct (move_step s m) as [[s1 r]|] eqn:M; [|discriminate].
    apply (IH s1 s'); [|exact E].
    destruct m as [fid fname|l]; cbn [move_step] in M.
    + exact (start_keeps_orderly _ _ _ _ _ O M).
    + destruct l as [f fn|f|rnd u p sp lp|tid ev|tid|]; [discriminate| | | | |].
      * exact (step_keeps_orderly s (Poll f) _ _ O I M).
      * exact (step_keeps_orderly s (Login rnd u p sp lp) _ _ O I M).
      * exact (step_keeps_orderly s (Run tid ev) _ _ O I M).
      * exact (step_keeps_orderly s (Exec tid) _ _ O I M).
      * exact (step_keeps_orderly s Tick _ _ O I M).
Qed.

Lemma initial_orderly path : orderly (initial path).
Proof.
  split; [constructor|]. intros fid. cbn. split; [lia|discriminate].
Qed.

(** X24.  The order that requests keep when they register at once.  Let
    every request to [/api/download] that starts a worker be followed at
    once by the worker's registration of its entry, with any other steps
    of the process in between such requests.  Then, from the start of the
    process on, a file id never has more than one live thread, be it a
    worker or a cleanup; a worker that is about to write into its entry
    finds it there, so that no [KeyError] is raised; and while a cleanup
    for a file id is pending, no worker for that id is at work, so that a
    cleanup removes the entry of its own download only. *)
Theorem atomic_start_one_worker (path : string) (ms : list move)
    (s : world) :
  moves (initial path) ms = Some s ->
  forall fid,
    (busy fid (threads s) <= 1)%nat
    /\ (busy fid (threads s) = 1%nat -> is_Some (active_downloads s !! fid))
    /\ (forall tid w i rest,
          threads s !! tid = Some (WorkerThread w (SetItem i :: rest)) ->
          file_id w = fid ->
          is_Some (active_downloads s !! fid))
    /\ (forall tid tid' c w pending,
          threads s !! tid = Some (CleanupThread fid c) ->
          c <> CleanupDone ->
          threads s !! tid' = Some (WorkerThread w pending) ->
          file_id w = fid ->
          at_pc w = Finished /\ pending = []).
Proof.
  intros E fid.
  pose proof (moves_keep_orderly ms _ _ (initial_orderly path) E) as O.
  destruct (proj2 O fid) as [O1 O2]. split; [exact O1|]. split; [exact O2|].
  split.
  - intros tid w i rest T <-.
    apply (orderly_entry s tid (WorkerThread w (SetItem i :: rest)) O T).
    cbn [live]. destruct (at_pc w); reflexivity.
  - intros tid tid' c w pending T Nc T' Ew.
    assert (Nt : tid <> tid') by (intros ->; congruence).
    pose proof (busy_two fid (threads s) tid tid' _ _ T T' Nt) as B.
    assert (Lc : live (CleanupThread fid c) = true)
      by (destruct c; [reflexivity|reflexivity|contradiction]).
    change fid with (thread_file_id (CleanupThread fid c)) in B at 1.
    rewrite (weight_live _ Lc) in B. cbn [thread_file_id] in B.
    assert (Ww : weight fid (WorkerThread w pending) = 0%nat) by lia.
    destruct (live (WorkerThread w pending)) eqn:Lw.
    + exfalso. subst fid.
      change (file_id w) with (thread_file_id (WorkerThread w pending)) in Ww.
      rewrite (weight_live _ Lw) in Ww. discriminate.
    + cbn [live] in Lw. destruct (at_pc w); try discriminate.
      destruct pending; [auto|discriminate].
Qed.

End Atomic.

Section AtomicSamples.
Import Py App Runs Sample Cases.

Lemma atomic_start_one_worker_witness :
  exists s,
    moves (initial "/downloads")
      [Start (Some "f1") (Some "a.iso"); Start (Some "f1") (Some "a.iso");
       Other (Poll "f1")]
    = Some s
    /\ (busy "f1" (threads s) <= 1)%nat
    /\ length (threads s) = 1%nat.
Proof.
  destruct (moves (initial "/downloads")
              [Start (Some "f1") (Some "a.iso");
               Start (Some "f1") (Some "a.iso"); Other (Poll "f1")])
    as [s|] eqn:E; [|vm_compute in E; discriminate].
  exists s. split; [reflexivity|].
  destruct (atomic_start_one_worker _ _ _ E "f1") as (B & _).
  split; [exact B|].
  vm_compute in E. injection E as <-. reflexivity.
Defined.

End AtomicSamples.

(* ===================================================================== *)
(** * The thirty seconds after a download *)
(* ===================================================================== *)

Section Asleep.
Import Py App Runs.
Context {H : HashLib}.

Lemma step_now_mono s l s' r : step s l = Some (s', r) -> now s <= now s'.
Proof.
  destruct l as [f fname|f|rnd u p sp lp|tid ev|tid|]; cbn [step]; intros E.
  - injection E as E. unfold download in E.
    destruct f as [f|]; [|injection E as <- _; lia].
    destruct (negb _); [injection E as <- _; lia|].
    destruct (active_downloads s !! f); injection E as <- _; cbn; lia.
  - injection E as <- _. lia.
  - injection E as <- _. cbn. lia.
  - destruct (threads s !! tid) as [[w [|a rest]|f [|wake|]]|];
      try discriminate.
    + destruct (run_segment (client s) w ev) as [[acts w']|]; [|discriminate].
      injection E as <- _. destruct (at_pc w); cbn; lia.
    + destruct ev; try discriminate. injection E as <- _. cbn. lia.
    + destruct ev; try discriminate.
      destruct (wake <=? now s); [|discriminate].
      injection E as <- _. cbn. lia.
  - destruct (threads s !! tid) as [[w [|a rest]|f c]|]; try discriminate.
    injection E as <- _. unfold execute. destruct a as [fn|i| |fn err].
    + cbn. lia.
    + destruct (active_downloads s !! file_id w); cbn; lia.
    + cbn. lia.
    + cbn. lia.
  - injection E as <- _. cbn. lia.
Qed.

Lemma run_now_mono ls : forall s s' rs,
  run s ls = Some (s', rs) -> now s <= now s'.
Proof.
  induction ls as [|l ls IH]; intros s s' rs R; cbn [run] in R.
  - injection R as <- _. lia.
  - destruct (step s l) as [[s1 r]|] eqn:E; [|discriminate].
    destruct (run s1 ls) as [[s2 rs2]|] eqn:R2; [|discriminate].
    injection R as <- _.
    pose proof (step_now_mono _ _ _ _ E). pose proof (IH _ _ _ R2). lia.
Qed.

Lemma asleep_other fid since wake w pending :
  file_id w <> fid -> asleep_for fid since wake (WorkerThread w pending).
Proof. intros N E. contradiction. Qed.

(** Before the clock shows [wake], no step touches an entry that all
    threads leave alone until then. *)
Lemma step_keeps_asleep s l s' r fid j since wake :
  step s l = Some (s', r) ->
  since <= now s < wake ->
  active_downloads s !! fid = Some j ->
  Forall (asleep_for fid since wake) (threads s) ->
  active_downloads s' !! fid = Some j
  /\ Forall (asleep_for fid since wake) (threads s').
Proof.
  intros E Hn J I. destruct l as [f fname|f|rnd u p sp lp|tid ev|tid|];
    cbn [step] in E.
  - injection E as E. unfold download in E.
    destruct f as [f|]; [|injection E as <- _; auto].
    destruct (negb (truthy (Some f))); [injection E as <- _; auto|].
    destruct (active_downloads s !! f) as [j'|] eqn:F;
      injection E as <- _; [auto|].
    split; [exact J|]. cbn [threads with_threads].
    apply Forall_app. split; [exact I|]. constructor; [|constructor].
    apply asleep_other. cbn [file_id]. congruence.
  - injection E as <- _. auto.
  - injection E as <- _. auto.
  - destruct (threads s !! tid) as [[w pending|f c]|] eqn:T; [| |discriminate].
    + destruct pending as [|a rest]; [|discriminate].
      destruct (run_segment (client s) w ev) as [[acts w']|] eqn:S;
        [|discriminate].
      assert (N : file_id w <> fid).
      { intros Ew. destruct (Forall_lookup_1 _ _ _ _ I T Ew) as [F _].
        rewrite (run_segment_finished _ _ _ F) in S. discriminate. }
      pose proof (run_segment_file_id _ _ _ _ S) as Ew. cbn [snd] in Ew.
      assert (I' : Forall (asleep_for fid since wake)
                     (<[tid := WorkerThread w' acts]> (threads s))).
      { apply Forall_insert; [exact I|]. apply asleep_other. congruence. }
      injection E as <- _. destruct (at_pc w); split; assumption.
    + destruct c as [|wake'|]; [| |discriminate].
      * destruct ev; try discriminate. injection E as <- _.
        split; [exact J|]. cbn [threads with_threads].
        apply Forall_insert; [exact I|].
        intros Ef. pose proof (Forall_lookup_1 _ _ _ _ I T Ef) as A.
        cbn in A. lia.
      * destruct ev; try discriminate.
        destruct (Z.leb_spec wake' (now s)) as [Hw|]; [|discriminate].
        injection E as <- _.
        assert (N : f <> fid).
        { intros Ef. pose proof (Forall_lookup_1 _ _ _ _ I T Ef) as A.
          cbn in A. lia. }
        split.
        -- cbn [active_downloads with_threads with_jobs].
           rewrite lookup_delete_ne by exact N. exact J.
        -- cbn [threads with_threads with_jobs].
           apply Forall_insert; [exact I|]. intros _. exact Logic.I.
  - destruct (threads s !! tid) as [[w [|a rest]|f c]|] eqn:T;
      try discriminate.
    injection E as <- _.
    assert (N : file_id w <> fid).
    { intros Ew. destruct (Forall_lookup_1 _ _ _ _ I T Ew) as [_ F].
      discriminate. }
    unfold execute. destruct a as [fn|i| |fn err].
    + split.
      * cbn [active_downloads with_threads with_jobs].
        rewrite lookup_insert_ne by exact N. exact J.
      * cbn [threads with_threads with_jobs].
        apply Forall_insert; [exact I|]. apply asleep_other, N.
    + destruct (active_downloads s !! file_id w) as [j'|].
      * split.
        -- cbn [active_downloads with_threads with_jobs].
           rewrite lookup_insert_ne by exact N. exact J.
        -- cbn [threads with_threads with_jobs].
           apply Forall_insert; [exact I|]. apply asleep_other, N.
      * split; [exact J|]. cbn [threads with_threads].
        apply Forall_insert; [exact I|]. apply asleep_other. exact N.
    + split; [exact J|]. cbn [threads with_threads].
      apply Forall_app. split.
      * apply Forall_insert; [exact I|]. apply asleep_other, N.
      * constructor; [|constructor]. intros Ef. contradiction.
    + split.
      * cbn [active_downloads with_threads with_jobs].
        rewrite lookup_insert_ne by exact N. exact J.
      * cbn [threads with_threads with_jobs].
        apply Forall_insert; [exact I|]. apply asleep_other, N.
  - injection E as <- _. auto.
Qed.

(** X25.  The entry of a completed download stays for thirty seconds.
    Suppose a file id has an entry and no thread is at work for it but
    cleanups, each of which has not gone to sleep yet or sleeps until the
    clock shows [wake] or longer, where [wake] is at most thirty seconds
    from now: this is where the process is when a worker has completed a
    download and started the cleanup.  Then, whatever the process does,
    at every time before [wake] the entry is there unchanged, a query
    returns it, and a request to start the id is answered 'already in
    progress' and starts no worker. *)
Theorem entry_stays_until_cleanup (s s' : world) (ls : list label)
    (rs : list reply) (fid : string) (j : job) (wake : Z) :
  active_downloads s !! fid = Some j ->
  Forall (asleep_for fid (now s) wake) (threads s) ->
  run s ls = Some (s', rs) ->
  now s' < wake ->
  active_downloads s' !! fid = Some j
  /\ download_progress s' fid = Found j
  /\ (fid <> EmptyString ->
      forall fname,
        step s' (Download (Some fid) fname)
        = Some (s', AlreadyInProgress
                      ("Download already in progress: " +:+ fmt fname)
                      (j_status j) (j_progress j))).
Proof.
  intros J I R Hn.
  assert (K : active_downloads s' !! fid = Some j).
  { remember (now s) as since eqn:Es.
    assert (Hs : since <= now s) by lia. clear Es.
    revert s rs J I R Hs. induction ls as [|l ls IH]; intros s rs J I R Hs.
    - injection R as <- _. exact J.
    - cbn [run] in R. destruct (step s l) as [[s1 r]|] eqn:E; [|discriminate].
      destruct (run s1 ls) as [[s2 rs2]|] eqn:R2; [|discriminate].
      injection R as <- _.
      pose proof (run_now_mono ls _ _ _ R2) as M2.
      pose proof (step_now_mono _ _ _ _ E) as M1.
      destruct (step_keeps_asleep _ _ _ _ fid j since wake E ltac:(lia) J I)
        as [J1 I1].
      apply (IH s1 rs2 J1 I1 R2). lia. }
  split; [exact K|]. split.
  - unfold download_progress. rewrite K. reflexivity.
  - intros N fname. cbn [step].
    rewrite (download_existing s' fid fname j K N). reflexivity.
Qed.

End Asleep.

Section AsleepSamples.
Import Py App Runs Sample Cases.

Lemma entry_stays_until_cleanup_witness :
  exists s' rs,
    run completed_world
      (repeat Tick 29 ++ [Download (Some "f1") (Some "a.iso"); Poll "f1"])
    = Some (s', rs)
    /\ now s' < 30
    /\ download_progress s' "f1" = Found completed_job
    /\ step s' (Download (Some "f1") (Some "a.iso"))
       = Some (s', AlreadyInProgress "Download already in progress: a.iso"
                     Completed 100).
Proof.
  destruct (run completed_world
              (repeat Tick 29
               ++ [Download (Some "f1") (Some "a.iso"); Poll "f1"]))
    as [[s' rs]|] eqn:R; [|vm_compute in R; discriminate].
  exists s', rs. split; [reflexivity|].
  assert (Hn : now s' < 30).
  { vm_compute in R. injection R as <- _. reflexivity. }
  split; [exact Hn|].
  assert (I : Forall (asleep_for "f1" (now completed_world) 30)
                (threads completed_world)).
  { constructor; [intros _; split; reflexivity|].
    constructor; [intros _; cbn; lia|constructor]. }
  destruct (entry_stays_until_cleanup completed_world s' _ rs "f1"
              completed_job 30 eq_refl I R Hn) as (_ & P & D).
  split; [exact P|]. apply (D ltac:(discriminate) (Some "a.iso")).
Defined.

End AsleepSamples.

(* ===================================================================== *)
(** * Calls of initiate_download and started downloads *)
(* ===================================================================== *)

Section Calls.
Import Py App Runs.
Context {H : HashLib}.

Lemma calls_for_cons fid f calls :
  calls_for fid (f :: calls)
  = ((if String.eqb fid f then 1 else 0) + calls_for fid calls)%nat.
Proof.
  unfold calls_for. cbn [List.filter]. destruct (String.eqb fid f); reflexivity.
Qed.

Lemma started_for_cons fid r rs :
  started_for fid (r :: rs)
  = ((if is_started_for fid r then 1 else 0) + started_for fid rs)%nat.
Proof.
  unfold started_for. cbn [List.filter].
  destruct (is_started_for fid r); reflexivity.
Qed.

(** Where a segment leaves a worker. *)
Lemma segment_pc client w ev p :
  run_segment client w ev = Some p ->
  match at_pc w with
  | AtStart =>
      at_pc (snd p) = AtResolve /\ exists fn, fst p = [Register fn]
  | _ => past_resolve (at_pc (snd p)) = true
  end.
Proof.
  unfold run_segment.
  destruct (at_pc w) as [| |url size file_path|total d file_path|] eqn:P;
    destruct ev as [|post mk|get op|chunk we|err| |]; try discriminate;
    intros E; injection E as <-.
  - split; [reflexivity|]. eexists. reflexivity.
  - unfold resolve. destruct (WebshareAPI.initiate_download _ _ _);
      [reflexivity|].
    destruct mk; [reflexivity|].
    destruct (if truthy (file_name w) then _ else _); reflexivity.
  - unfold connect. destruct get as [|r]; [reflexivity|].
    destruct (get_http_error r); [reflexivity|].
    destruct (match content_length r with Some _ => _ | None => _ end);
      [reflexivity|].
    destruct op; reflexivity.
  - unfold on_chunk. destruct chunk; [cbn [snd]; rewrite P; reflexivity|].
    destruct we; [reflexivity|]. destruct (0 <? total); [|reflexivity].
    destruct (progress_percent _ _); reflexivity.
  - reflexivity.
  - unfold finish. destruct (WebshareAPI._format_file_size _); reflexivity.
Qed.

Lemma same_worker_counts fid w w' pending pending' :
  file_id w' = file_id w ->
  is_worker_for fid (WorkerThread w' pending')
  = is_worker_for fid (WorkerThread w pending).
Proof. intros E. cbn [is_worker_for]. rewrite E. reflexivity. Qed.

Lemma same_pc_counts fid w w' pending pending' :
  file_id w' = file_id w ->
  past_resolve (at_pc w') = past_resolve (at_pc w) ->
  has_resolved fid (WorkerThread w' pending')
  = has_resolved fid (WorkerThread w pending).
Proof. intros E P. cbn [has_resolved]. rewrite E, P. reflexivity. Qed.

(** What one step does to the counts. *)
Lemma step_counts s l s' r :
  step s l = Some (s', r) ->
  Forall waiting (threads s) ->
  Forall waiting (threads s')
  /\ forall fid,
       (calls_for fid (resolve_calls s')
          + count_by (has_resolved fid) (threads s)
        = calls_for fid (resolve_calls s)
          + count_by (has_resolved fid) (threads s'))%nat
       /\ (count_by (is_worker_for fid) (threads s')
           = count_by (is_worker_for fid) (threads s)
             + (if is_started_for fid r then 1 else 0))%nat.
Proof.
  intros E W. destruct l as [f fname|f|rnd u p sp lp|tid ev|tid|];
    cbn [step] in E.
  - injection E as E. unfold download in E.
    destruct f as [f|];
      [|injection E as <- <-; split; [exact W|intros fid; cbn; lia]].
    destruct (negb (truthy (Some f)));
      [injection E as <- <-; split; [exact W|intros fid; cbn; lia]|].
    destruct (active_downloads s !! f) as [j'|];
      injection E as <- <-; [split; [exact W|intros fid; cbn; lia]|].
    split.
    + cbn [threads with_threads]. apply Forall_app. split; [exact W|].
      constructor; [reflexivity|constructor].
    + intros fid. cbn [threads resolve_calls with_threads is_started_for].
      rewrite !count_by_app. cbn [count_by fold_right has_resolved
        is_worker_for at_pc past_resolve andb file_id]. lia.
  - injection E as <- <-. split; [exact W|]. intros fid.
    unfold download_progress. destruct (active_downloads s !! f); cbn; lia.
  - injection E as <- <-. split; [exact W|]. intros fid.
    cbn [threads resolve_calls with_client is_started_for]. lia.
  - destruct (threads s !! tid) as [[w pending|f c]|] eqn:T; [| |discriminate].
    + destruct pending as [|a rest]; [|discriminate].
      destruct (run_segment (client s) w ev) as [[acts w']|] eqn:S;
        [|discriminate].
      pose proof (run_segment_file_id _ _ _ _ S) as Ew. cbn [snd] in Ew.
      pose proof (segment_pc _ _ _ _ S) as Pc. cbn [fst snd] in Pc.
      injection E as <- <-.
      assert (W' : Forall waiting
                     (<[tid := WorkerThread w' acts]> (threads s))).
      { apply Forall_insert; [exact W|]. cbn [waiting].
        destruct (at_pc w) eqn:P.
        - destruct Pc as (-> & fn & ->). right. eauto.
        - destruct (at_pc w'); try discriminate; exact I.
        - destruct (at_pc w'); try discriminate; exact I.
        - destruct (at_pc w'); try discriminate; exact I.
        - rewrite (run_segment_finished _ _ _ P) in S. discriminate. }
      assert (Cw : forall fid,
                count_by (is_worker_for fid)
                  (<[tid := WorkerThread w' acts]> (threads s))
                = count_by (is_worker_for fid) (threads s)).
      { intros fid.
        pose proof (count_by_insert (is_worker_for fid) (threads s) tid _
                      (WorkerThread w' acts) T) as B.
        rewrite (same_worker_counts fid w w' [] acts Ew) in B. lia. }
      destruct (at_pc w) eqn:P.
      * split; [exact W'|]. intros fid.
        cbn [threads resolve_calls with_threads is_started_for].
        rewrite Cw. split; [|lia].
        pose proof (count_by_insert (has_resolved fid) (threads s) tid _
                      (WorkerThread w' acts) T) as B.
        destruct Pc as (Pw & _).
        cbn [has_resolved] in B. rewrite P, Pw in B. cbn in B. lia.
      * split; [exact W'|]. intros fid.
        cbn [threads resolve_calls with_threads with_calls is_started_for].
        rewrite Cw. split; [|lia]. rewrite calls_for_cons.
        pose proof (count_by_insert (has_resolved fid) (threads s) tid _
                      (WorkerThread w' acts) T) as B.
        cbn [has_resolved] in B. rewrite P, Pc, Ew in B.
        cbn [past_resolve andb] in B. destruct (String.eqb fid (file_id w)); lia.
      * split; [exact W'|]. intros fid.
        cbn [threads resolve_calls with_threads is_started_for].
        rewrite Cw. split; [|lia].
        pose proof (count_by_insert (has_resolved fid) (threads s) tid _
                      (WorkerThread w' acts) T) as B.
        rewrite (same_pc_counts fid w w' [] acts Ew) in B; [lia|].
        rewrite P, Pc. reflexivity.
      * split; [exact W'|]. intros fid.
        cbn [threads resolve_calls with_threads is_started_for].
        rewrite Cw. split; [|lia].
        pose proof (count_by_insert (has_resolved fid) (threads s) tid _
                      (WorkerThread w' acts) T) as B.
        rewrite (same_pc_counts fid w w' [] acts Ew) in B; [lia|].
        rewrite P, Pc. reflexivity.
      * rewrite (run_segment_finished _ _ _ P) in S. discriminate.
    + assert (G : forall c',
                Forall waiting (<[tid := CleanupThread f c']> (threads s))
                /\ forall fid,
                     count_by (has_resolved fid)
                       (<[tid := CleanupThread f c']> (threads s))
                     = count_by (has_resolved fid) (threads s)
                     /\ count_by (is_worker_for fid)
                          (<[tid := CleanupThread f c']> (threads s))
                        = count_by (is_worker_for fid) (threads s)).
      { intros c'. split; [apply Forall_insert; [exact W|exact I]|].
        intros fid.
        pose proof (count_by_insert (has_resolved fid) (threads s) tid _
                      (CleanupThread f c') T) as B1.
        pose proof (count_by_insert (is_worker_for fid) (threads s) tid _
                      (CleanupThread f c') T) as B2.
        cbn [has_resolved is_worker_for] in B1, B2. lia. }
      destruct c as [|wake|]; [| |discriminate].
      * destruct ev; try discriminate. injection E as <- <-.
        destruct (G (Sleeping (now s + 30))) as [G1 G2].
        split; [exact G1|]. intros fid. destruct (G2 fid) as [G3 G4].
        cbn [threads resolve_calls with_threads is_started_for].
        rewrite G3, G4. lia.
      * destruct ev; try discriminate.
        destruct (wake <=? now s); [|discriminate]. injection E as <- <-.
        destruct (G CleanupDone) as [G1 G2].
        split; [exact G1|]. intros fid. destruct (G2 fid) as [G3 G4].
        cbn [threads resolve_calls with_threads with_jobs is_started_for].
        rewrite G3, G4. lia.
  - destruct (threads s !! tid) as [[w [|a rest]|f c]|] eqn:T;
      try discriminate.
    injection E as <- <-.
    pose proof (Forall_lookup_1 _ _ _ _ W T) as Wt. cbn [waiting] in Wt.
    assert (G : forall w' pending',
              file_id w' = file_id w ->
              past_resolve (at_pc w') = past_resolve (at_pc w) ->
              waiting (WorkerThread w' pending') ->
              Forall waiting (<[tid := WorkerThread w' pending']> (threads s))
              /\ forall fid,
                   count_by (has_resolved fid)
                     (<[tid := WorkerThread w' pending']> (threads s))
                   = count_by (has_resolved fid) (threads s)
                   /\ count_by (is_worker_for fid)
                        (<[tid := WorkerThread w' pending']> (threads s))
                      = count_by (is_worker_for fid) (threads s)).
    { intros w' pending' Ef Ep Ww.
      split; [apply Forall_insert; [exact W|exact Ww]|]. intros fid.
      pose proof (count_by_insert (has_resolved fid) (threads s) tid _
                    (WorkerThread w' pending') T) as B1.
      pose proof (count_by_insert (is_worker_for fid) (threads s) tid _
                    (WorkerThread w' pending') T) as B2.
      rewrite (same_pc_counts fid w w' (a :: rest) pending' Ef Ep) in B1.
      rewrite (same_worker_counts fid w w' (a :: rest) pending' Ef) in B2.
      lia. }
    assert (Wr : waiting (WorkerThread w rest)).
    { cbn [waiting]. destruct (at_pc w); try exact I; [discriminate|].
      destruct Wt as [Wt|(fn & Wt)]; [discriminate|].
      injection Wt as _ ->. left. reflexivity. }
    assert (We : waiting (WorkerThread w [])).
    { cbn [waiting]. destruct (at_pc w); try exact I; [reflexivity|].
      left. reflexivity. }
    unfold execute. destruct a as [fn|i| |fn err].
    + destruct (G w rest eq_refl eq_refl Wr) as [G1 G2].
      split; [exact G1|]. intros fid. destruct (G2 fid) as [G3 G4].
      cbn [threads resolve_calls with_threads with_jobs is_started_for].
      rewrite G3, G4. lia.
    + destruct (active_downloads s !! file_id w) as [j'|].
      * destruct (G w rest eq_refl eq_refl Wr) as [G1 G2].
        split; [exact G1|]. intros fid. destruct (G2 fid) as [G3 G4].
        cbn [threads resolve_calls with_threads with_jobs is_started_for].
        rewrite G3, G4. lia.
      * destruct (G (Worker (file_id w) (file_name w) (download_path w)
                       Finished)
                    [Fail (file_name w) (repr (file_id w))] eq_refl)
          as [G1 G2].
        -- cbn [at_pc past_resolve]. destruct (at_pc w); try reflexivity.
           ++ discriminate.
           ++ destruct Wt as [Wt|(fn & Wt)]; discriminate.
        -- exact I.
        -- split; [exact G1|]. intros fid. destruct (G2 fid) as [G3 G4].
           cbn [threads resolve_calls with_threads is_started_for].
           rewrite G3, G4. lia.
    + destruct (G w rest eq_refl eq_refl Wr) as [G1 G2].
      split.
      * cbn [threads with_threads]. apply Forall_app. split; [exact G1|].
        constructor; [exact I|constructor].
      * intros fid. destruct (G2 fid) as [G3 G4].
        cbn [threads resolve_calls with_threads is_started_for].
        rewrite !count_by_app, G3, G4. cbn. lia.
    + destruct (G w [] eq_refl eq_refl We) as [G1 G2].
      split; [exact G1|]. intros fid. destruct (G2 fid) as [G3 G4].
      cbn [threads resolve_calls with_threads with_jobs is_started_for].
      rewrite G3, G4. lia.
  - injection E as <- <-. split; [exact W|]. intros fid.
    cbn [threads resolve_calls with_now is_started_for]. lia.
Qed.

Lemma run_counts ls : forall s s' rs,
  run s ls = Some (s', rs) ->
  Forall waiting (threads s) ->
  Forall waiting (threads s')
  /\ forall fid,
       (calls_for fid (resolve_calls s')
          + count_by (has_resolved fid) (threads s)
        = calls_for fid (resolve_calls s)
          + count_by (has_resolved fid) (threads s'))%nat
       /\ (count_by (is_worker_for fid) (threads s')
           = count_by (is_worker_for fid) (threads s)
             + started_for fid rs)%nat.
Proof.
  induction ls as [|l ls IH]; intros s s' rs R W; cbn [run] in R.
  - injection R as <- <-. split; [exact W|]. intros fid. cbn. lia.
  - destruct (step s l) as [[s1 r]|] eqn:E; [|discriminate].
    destruct (run s1 ls) as [[s2 rs2]|] eqn:R2; [|discriminate].
    injection R as <- <-.
    destruct (step_counts _ _ _ _ E W) as [W1 C1].
    destruct (IH _ _ _ R2 W1) as [W2 C2].
    split; [exact W2|]. intros fid.
    destruct (C1 fid) as [A1 B1]. destruct (C2 fid) as [A2 B2].
    rewrite started_for_cons. lia.
Qed.

Lemma resolved_le_workers fid ts :
  (count_by (has_resolved fid) ts <= count_by (is_worker_for fid) ts)%nat.
Proof.
  induction ts as [|t ts IH]; [reflexivity|]. rewrite !count_by_cons.
  assert (has_resolved fid t <= is_worker_for fid t)%nat; [|lia].
  destruct t as [w pending|f c]; cbn [has_resolved is_worker_for]; [|lia].
  destruct (past_resolve (at_pc w)); destruct (String.eqb fid (file_id w));
    cbn; lia.
Qed.

(** X26.  One call of [initiate_download] for one started download.  In
    every run of the process from its start, with requests and threads
    interleaved in any way: the number of requests for a file id that
    were answered 'Download started' is the number of workers for that
    id; the number of calls of [initiate_download] with the id is the
    number of those workers that have got past the call; and so the
    calls never outnumber the started downloads.  No worker resolves its
    link twice, and nothing but a worker resolves one. *)
Theorem one_resolve_per_start (path : string) (ls : list label)
    (s : world) (rs : list reply) :
  run (initial path) ls = Some (s, rs) ->
  forall fid,
    started_for fid rs = count_by (is_worker_for fid) (threads s)
    /\ calls_for fid (resolve_calls s)
       = count_by (has_resolved fid) (threads s)
    /\ (calls_for fid (resolve_calls s) <= started_for fid rs)%nat.
Proof.
  intros R fid.
  destruct (run_counts ls _ _ _ R ltac:(constructor)) as [_ C].
  destruct (C fid) as [A B]. cbn in A, B.
  pose proof (resolved_le_workers fid (threads s)). lia.
Qed.

End Calls.

Section CallsSamples.
Import Py App Runs Sample Cases.

Lemma one_resolve_per_start_witness :
  exists s rs,
    run (initial "/downloads")
      [Download (Some "f1") (Some "a.iso");
       Download (Some "f1") (Some "a.iso");
       Run 0 Scheduled; Exec 0;
       Run 0 (Resolved (Http.Failed "unreachable") None)]
    = Some (s, rs)
    /\ started_for "f1" rs = 2%nat
    /\ (calls_for "f1" (resolve_calls s) <= 2)%nat.
Proof.
  destruct (run (initial "/downloads")
              [Download (Some "f1") (Some "a.iso");
               Download (Some "f1") (Some "a.iso");
               Run 0 Scheduled; Exec 0;
               Run 0 (Resolved (Http.Failed "unreachable") None)])
    as [[s rs]|] eqn:R; [|vm_compute in R; discriminate].
  exists s, rs. split; [reflexivity|].
  destruct (one_resolve_per_start _ _ _ _ R "f1") as (_ & _ & C).
  vm_compute in R. injection R as <- <-.
  split; [reflexivity|exact C].
Defined.

End CallsSamples.
